(** * KCS report metrics: a shallow embedding of [src/transform] and its properties

    The development follows the Python sources [src/src/transform/metrics.py]
    and [src/src/transform/clean.py].  pandas tables are lists of labelled rows,
    a [Series] is a list of labelled values, boolean masks are combined with
    pandas' index alignment, Python [str] values are lists of Unicode code
    points, and the system clock read by [pd.Timestamp.today()] is an explicit
    argument [today]. *)

From Stdlib Require Import ZArith NArith QArith String Ascii List Lia Bool Sorted.
From Stdlib Require Floats.PrimFloat Floats.FloatOps Floats.SpecFloat.
From stdpp Require Import base list gmap sets.

Set Default Proof Using "Type".

(* ===================================================================== *)
(** ** Python strings *)
(* ===================================================================== *)

Module PyStr.
Local Open Scope N_scope.

(** A Python [str] is a sequence of Unicode code points. *)
Definition str := list N.

(** An ASCII literal of the source as a [str]. *)
Definition lit (s : string) : str := map N_of_ascii (list_ascii_of_string s).
Arguments lit _%_string.

(** [Py_UNICODE_ISSPACE]: the code points that [str.strip()] removes. *)
Definition is_space (c : N) : bool :=
  ((9 <=? c) && (c <=? 13)) || ((28 <=? c) && (c <=? 32)) ||
  (c =? 133) || (c =? 160) || (c =? 5760) ||
  ((8192 <=? c) && (c <=? 8202)) ||
  (c =? 8232) || (c =? 8233) || (c =? 8239) || (c =? 8287) || (c =? 12288).

Fixpoint lstrip (s : str) : str :=
  match s with
  | [] => []
  | c :: s' => if is_space c then lstrip s' else s
  end.

Definition rstrip (s : str) : str := rev (lstrip (rev s)).

(** [s.strip()] *)
Definition strip (s : str) : str := rstrip (lstrip s).

Definition is_ascii_upper (c : N) : bool := (65 <=? c) && (c <=? 90).
Definition is_ascii_lower (c : N) : bool := (97 <=? c) && (c <=? 122).

Definition ascii_to_upper (c : N) : N := if is_ascii_lower c then c - 32 else c.
Definition ascii_to_lower (c : N) : N := if is_ascii_upper c then c + 32 else c.

(** The case tables of the Unicode database that ships with the Python
    runtime: the full upper-case mapping and the full case folding of the
    code points above ASCII.  The source only calls them; they are parameters
    of the development. *)
Class UnicodeTables := {
  upper_ext : N -> list N;
  fold_ext : N -> list N
}.

Section Case.
Context `{UnicodeTables}.

Definition upper_cp (c : N) : list N :=
  if c <? 128 then [ascii_to_upper c] else upper_ext c.

(** [s.upper()]: context-free, one code point at a time. *)
Definition upper (s : str) : str := flat_map upper_cp s.

Definition fold_cp (c : N) : list N :=
  if c <? 128 then [ascii_to_lower c] else fold_ext c.

(** [s.casefold()] *)
Definition casefold (s : str) : str := flat_map fold_cp s.

(** Facts of the Unicode tables used by the proofs: upper-casing is
    idempotent, the upper-case form of a non-space code point is non-empty
    and free of white space, and case folding yields no ASCII capital. *)
Definition upper_ext_idempotent : Prop :=
  forall c, 128 <= c -> upper (upper_ext c) = upper_ext c.

Definition upper_ext_keeps_nonspace : Prop :=
  forall c, 128 <= c -> is_space c = false ->
    upper_ext c <> [] /\ forallb (fun d => negb (is_space d)) (upper_ext c) = true.

Definition fold_ext_no_ascii_capital : Prop :=
  forall c, 128 <= c -> forallb (fun d => negb (is_ascii_upper d)) (fold_ext c) = true.
End Case.

(** Character test of the [re] engine under [re.IGNORECASE] for an ASCII
    letter [p] of the pattern: the subject code point matches when its ASCII
    lower-case form is that of [p], or when it is one of the engine's
    non-ASCII equivalents (dotted capital I and dotless i for [i], long s for
    [s], the Kelvin sign for [k]). *)
Definition sre_ci_eq (p c : N) : bool :=
  let lo := ascii_to_lower p in
  if c <? 128 then ascii_to_lower c =? lo
  else ((lo =? 105) && ((c =? 304) || (c =? 305)))
       || ((lo =? 115) && (c =? 383))
       || ((lo =? 107) && (c =? 8490)).

Fixpoint match_here_ci (pat s : str) : bool :=
  match pat, s with
  | [], _ => true
  | _ :: _, [] => false
  | p :: pat', c :: s' => sre_ci_eq p c && match_here_ci pat' s'
  end.

(** [re.search("a1|a2|...", s, re.IGNORECASE) is not None] for literal
    alternatives: the first position at which one alternative matches. *)
Fixpoint re_search_ci (alts : list str) (s : str) : bool :=
  existsb (fun pat => match_here_ci pat s) alts ||
  match s with
  | [] => false
  | _ :: s' => re_search_ci alts s'
  end.

End PyStr.
Export PyStr.

(* ===================================================================== *)
(** ** pandas: labelled series, masks and alignment *)
(* ===================================================================== *)

Module Pandas.

(** Exceptions the modelled code can raise. *)
Inductive pyerr :=
  | KeyError (missing : list str)   (* df[keys]: "[...] not in index" *)
  | IndexingError                   (* unalignable boolean Series as indexer *)
  | IntCastingNaNError              (* astype(int) on a value that is not finite *)
  | ValueError                      (* int() of a non-numeric string *)
  | TypeError                       (* int() of an object that is no number *)
  | OverflowError.                  (* an int that does not fit the target type *)

Inductive result (A : Type) :=
  | Ok (a : A)
  | Raise (e : pyerr).
Arguments Ok {A} a.
Arguments Raise {A} e.

Definition bind {A B} (m : result A) (k : A -> result B) : result B :=
  match m with
  | Ok a => k a
  | Raise e => Raise e
  end.

#[global] Instance result_ret : MRet result := @Ok.
#[global] Instance result_bind : MBind result := fun A B k m => bind m k.
#[global] Instance result_fmap : FMap result := fun A B f m => bind m (fun a => Ok (f a)).

(** A [Series] (and a [DataFrame], whose values are rows) carries the index
    label of every entry.  Operations on one frame work position by
    position; where two different indexes meet, entries are found by label,
    which is what pandas does for an index without repeated labels. *)
Definition Series (A : Type) := list (nat * A).

Definition index {A} (s : Series A) : list nat := map fst s.
Definition values {A} (s : Series A) : list A := map snd s.

(** Element-wise operation on a column: the index is kept. *)
Definition smap {A B} (f : A -> B) (s : Series A) : Series B :=
  map (fun p => (fst p, f (snd p))) s.

Fixpoint label_lookup {A} (i : nat) (s : Series A) : option A :=
  match s with
  | [] => None
  | (j, a) :: s' => if Nat.eqb i j then Some a else label_lookup i s'
  end.

(** The outer join of two indexes (pandas may also sort it; the consumers
    below, [sum] and re-indexing by label, do not depend on the order). *)
Definition index_union (l r : list nat) : list nat :=
  l ++ List.filter (fun i => negb (existsb (Nat.eqb i) l)) r.

(** [a & b] on boolean Series.  Equal indexes: position by position.
    Otherwise both sides are aligned on the union of the labels, a label
    missing on one side gives a missing value there, and the result of the
    operation on a missing value is filled with [False]. *)
Definition series_and (a b : Series bool) : Series bool :=
  if decide (index a = index b)
  then map (fun p => (fst (fst p), snd (fst p) && snd (snd p))) (combine a b)
  else map (fun i => (i, match label_lookup i a, label_lookup i b with
                         | Some x, Some y => x && y
                         | _, _ => false
                         end))
           (index_union (index a) (index b)).

(** [~ a] *)
Definition series_not (a : Series bool) : Series bool := smap negb a.

(** [mask.sum()]: the number of [True] entries. *)
Definition series_sum (a : Series bool) : nat := length (List.filter (fun b => b) (values a)).

Definition select_rows {A} (df : Series A) (bs : list bool) : Series A :=
  map fst (List.filter snd (combine df bs)).

Fixpoint take_labels {A} (idx : list nat) (s : Series A) : option (list A) :=
  match idx with
  | [] => Some []
  | i :: idx' =>
      match label_lookup i s, take_labels idx' s with
      | Some a, Some l => Some (a :: l)
      | _, _ => None
      end
  end.

(** [df[mask]] with a boolean Series: when the indexes differ the mask is
    re-indexed to the frame's index, and a label of the frame that the mask
    lacks raises [IndexingError]. *)
Definition getitem_mask {A} (df : Series A) (mask : Series bool) : result (Series A) :=
  if decide (index mask = index df)
  then Ok (select_rows df (values mask))
  else match take_labels (index df) mask with
       | Some bs => Ok (select_rows df bs)
       | None => Raise IndexingError
       end.

(** [s.unique()]: the distinct values in order of first appearance. *)
Fixpoint unique {A} `{EqDecision A} (l : list A) : list A :=
  match l with
  | [] => []
  | x :: l' => x :: List.filter (fun y => negb (bool_decide (y = x))) (unique l')
  end.

(** Nullable object columns of strings. *)
Definition str_strip (s : Series (option str)) : Series (option str) := smap (option_map strip) s.
Definition str_upper `{UnicodeTables} (s : Series (option str)) : Series (option str) :=
  smap (option_map upper) s.
Definition str_casefold `{UnicodeTables} (s : Series (option str)) : Series (option str) :=
  smap (option_map casefold) s.

(** [s.notna()] *)
Definition notna_value {A} (v : option A) : bool :=
  match v with
  | Some _ => true
  | None => false
  end.

Definition notna {A} (s : Series (option A)) : Series bool := smap notna_value s.

Definition in_strs (x : str) (l : list str) : bool := existsb (fun y => bool_decide (x = y)) l.

(** [s.isin(l)]: a missing value is in no list of strings. *)
Definition isin (l : list str) (s : Series (option str)) : Series bool :=
  smap (fun v => match v with Some x => in_strs x l | None => false end) s.

(** [s == lit]: false on a missing value. *)
Definition eq_str (x : str) (s : Series (option str)) : Series bool :=
  smap (fun v => bool_decide (v = Some x)) s.

(** [s != lit]: true on a missing value. *)
Definition ne_str (x : str) (s : Series (option str)) : Series bool :=
  smap (fun v => negb (bool_decide (v = Some x))) s.

(** [s.str.contains(r"a1|a2|...", case=False, na=False)] *)
Definition str_contains_ci (alts : list str) (s : Series (option str)) : Series bool :=
  smap (fun v => match v with Some x => re_search_ci alts x | None => false end) s.

(** Python floats as far as the source uses them: the quotient of two
    counts, [float(n) / float(d)], and [round(x, 3)]. *)
Class FloatOps := {
  pyfloat : Type;
  fdiv : nat -> nat -> pyfloat;
  round3 : pyfloat -> pyfloat;
  fzero : pyfloat
}.

(** What the two operations give on a zero numerator: [0.0 / d] is [0.0] for
    a non-zero [d], and [round(0.0, 3)] is [0.0]. *)
Definition float_zero_laws `{FloatOps} : Prop :=
  (forall d, d <> 0 -> fdiv 0 d = fzero) /\ round3 fzero = fzero.

End Pandas.
Export Pandas.

(* ===================================================================== *)
(** ** Timestamps *)
(* ===================================================================== *)

Module PyTime.
Local Open Scope Z_scope.

(** A naive [pd.Timestamp]. *)
Record Timestamp := mkTimestamp {
  year : Z; month : Z; day : Z;
  hour : Z; minute : Z; second : Z; microsecond : Z; nanosecond : Z
}.

#[global] Instance Timestamp_eq_dec : EqDecision Timestamp.
Proof. solve_decision. Defined.

(** A [datetime.date]. *)
Definition date := (Z * Z * Z)%type.

(** [t.date()] *)
Definition date_of (t : Timestamp) : date := (year t, month t, day t).

Fixpoint lex_leb (a b : list Z) : bool :=
  match a, b with
  | [], _ => true
  | _ :: _, [] => false
  | x :: a', y :: b' => (x <? y) || ((x =? y) && lex_leb a' b')
  end.

Definition ts_fields (t : Timestamp) : list Z :=
  [year t; month t; day t; hour t; minute t; second t; microsecond t; nanosecond t].

(** [a <= b] on timestamps and on dates. *)
Definition ts_leb (a b : Timestamp) : bool := lex_leb (ts_fields a) (ts_fields b).
Definition date_leb (a b : date) : bool :=
  match a, b with
  | (y1, m1, d1), (y2, m2, d2) => lex_leb [y1; m1; d1] [y2; m2; d2]
  end.

Definition is_leap (y : Z) : bool :=
  ((y mod 4 =? 0) && negb (y mod 100 =? 0)) || (y mod 400 =? 0).

Definition days_in_month (y m : Z) : Z :=
  if m =? 2 then (if is_leap y then 29 else 28)
  else if (m =? 4) || (m =? 6) || (m =? 9) || (m =? 11) then 30
  else 31.

(** [t.replace(day=d)] *)
Definition replace_day (d : Z) (t : Timestamp) : Timestamp :=
  mkTimestamp (year t) (month t) d (hour t) (minute t) (second t) (microsecond t) (nanosecond t).

(** [t - pd.Timedelta(days=1)]: the same time of day on the previous day. *)
Definition minus_one_day (t : Timestamp) : Timestamp :=
  if 1 <? day t then replace_day (day t - 1) t
  else if 1 <? month t
       then mkTimestamp (year t) (month t - 1) (days_in_month (year t) (month t - 1))
                        (hour t) (minute t) (second t) (microsecond t) (nanosecond t)
       else mkTimestamp (year t - 1) 12 31
                        (hour t) (minute t) (second t) (microsecond t) (nanosecond t).

(** A monthly [Period] as its ordinal, [12 * year + (month - 1)]. *)
Definition period := Z.
Definition to_period_M (t : Timestamp) : period := 12 * year t + (month t - 1).
Definition period_year (p : period) : Z := p / 12.
Definition period_month (p : period) : Z := p mod 12 + 1.

End PyTime.
Export PyTime.

(* ===================================================================== *)
(** ** [transform/metrics.py]: case metrics *)
(* ===================================================================== *)

Module Metrics.

Notation "a &: b" := (series_and a b) (at level 40, left associativity).

(** One row of the cleaned case table (the columns the metrics read). *)
Record CaseRecord := mkCase {
  case_id : option str;
  created_date : option Timestamp;
  closed_date : option Timestamp;
  region : option str;
  owner_role : option str;
  owner_company : option str;
  status : option str;
  close_reason : option str;
  case_record_type : option str
}.

#[global] Instance CaseRecord_eq_dec : EqDecision CaseRecord.
Proof. solve_decision. Defined.

Definition DataFrame := Series CaseRecord.

(** [df[name]] *)
Definition col {R A} (field : R -> A) (df : Series R) : Series A := smap field df.

Definition CLOSE_REASONS : list str :=
  [lit "Solved by existing article"; lit "Solved by existing doc"; lit "Article Updated";
   lit "Article Flagged"; lit "Article Created"].

(** ["Closed – Purged"], with its en dash U+2013. *)
Definition CLOSED_PURGED : str := lit "Closed " ++ [8211%N] ++ lit " Purged".

Inductive ratio_result `{FloatOps} :=
  | Scalar (x : option pyfloat)
  | PerRegion (l : list (option str * option pyfloat)).

Section CaseMetrics.
Context `{UnicodeTables} `{FloatOps}.

(** The helper [_ratio] of [close_reason_ratio]. *)
Definition _ratio (num_mask denom_mask : Series bool) : option pyfloat :=
  let num := series_sum num_mask in
  let denom := series_sum denom_mask in
  if Nat.eqb denom 0 then None else Some (round3 (fdiv num denom)).

(** [regions == reg] for a key taken from [regions.unique()]; the missing
    key compares unequal to everything. *)
Definition eq_key (reg : option str) (s : Series (option str)) : Series bool :=
  smap (fun v => match reg, v with
                 | Some a, Some b => bool_decide (a = b)
                 | _, _ => false
                 end) s.

Definition close_reason_ratio (df_cases : DataFrame) (region_arg : option str) : ratio_result :=
  let notna_mask := notna (col close_reason df_cases) in
  let valid_mask :=
    notna_mask
    &: isin CLOSE_REASONS (str_strip (col close_reason df_cases))
    &: ne_str CLOSED_PURGED (str_strip (col status df_cases))
    &: str_contains_ci [lit "Support"; lit "Idaptive"; lit "EPM"] (col owner_role df_cases)
    &: eq_str (lit "External") (str_strip (col case_record_type df_cases))
    &: series_not (isin [lit "ADMIN"; lit "INTERNAL"]
                        (str_upper (str_strip (col region df_cases)))) in
  match region_arg with
  | None => Scalar (_ratio valid_mask notna_mask)
  | Some r =>
      if bool_decide (upper r = lit "ALL") then
        let regions := str_upper (str_strip (col region df_cases)) in
        PerRegion
          (map (fun reg =>
                  let reg_mask := eq_key reg regions in
                  (reg, _ratio (valid_mask &: reg_mask) (notna_mask &: reg_mask)))
               (unique (values regions)))
      else
        let reg_mask := eq_str (upper r) (str_upper (str_strip (col region df_cases))) in
        Scalar (_ratio (valid_mask &: reg_mask) (notna_mask &: reg_mask))
  end.

(** The value a group contributes under [groupby(...).apply]: the call is
    made with [region=None], which returns the scalar. *)
Definition scalar_of (r : ratio_result) : option pyfloat :=
  match r with
  | Scalar x => x
  | PerRegion _ => None
  end.

(** [df["month"]]: the UTC calendar month of [created_date]; a derived
    column, a function of the row. *)
Definition month_of (r : CaseRecord) : option period := option_map to_period_M (created_date r).

(** [df["region"].str.strip().str.upper()] on one row. *)
Definition region_norm (r : CaseRecord) : option str := option_map upper (option_map strip (region r)).

(** The statements that open both [close_reason_ratio_last_n_months] and
    its by-region variant: the month column, the current month read from
    the clock ([today]), and [df[df["month"] >= start_month]]; a missing
    month compares false.  [pd.to_datetime(..., utc=True)] leaves the
    calendar fields of a naive timestamp as they are. *)
Definition last_n_months_filter (today : Timestamp) (df_cases : DataFrame) (n : Z)
  : result DataFrame :=
  let current_month := to_period_M today in
  let start_month := (current_month - (n - 1))%Z in
  getitem_mask df_cases
    (smap (fun m => match m with Some m => (start_month <=? m)%Z | None => false end)
          (col month_of df_cases)).
End CaseMetrics.

(** Sorted group keys of [groupby]: insertion sort of the distinct keys. *)
Section Sort.
Context {K : Type} (leb : K -> K -> bool).

Fixpoint insert_sorted (k : K) (l : list K) : list K :=
  match l with
  | [] => [k]
  | x :: l' => if leb k x then k :: l else x :: insert_sorted k l'
  end.

Definition sort_keys (l : list K) : list K := fold_right insert_sorted [] l.
End Sort.

(** [df.groupby(key)]: the groups of the non-missing keys, in key order,
    each with its rows in frame order. *)
Definition groupby {R K} `{EqDecision K} (leb : K -> K -> bool) (key : R -> option K)
    (df : Series R) : list (K * Series R) :=
  map (fun k => (k, List.filter (fun p => bool_decide (key (snd p) = Some k)) df))
      (sort_keys leb (unique (omap key (values df)))).

(** Python's order on [str]: code point by code point. *)
Fixpoint str_leb (a b : str) : bool :=
  match a, b with
  | [], _ => true
  | _ :: _, [] => false
  | x :: a', y :: b' => (x <? y)%N || ((x =? y)%N && str_leb a' b')
  end.

Definition month_region_leb (a b : period * str) : bool :=
  (fst a <? fst b)%Z || ((fst a =? fst b)%Z && str_leb (snd a) (snd b)).

Definition digit (n : Z) : N := (48 + Z.to_N (n mod 10))%N.

(** [str(month)] of a monthly period: ["YYYY-MM"]. *)
Definition period_str (p : period) : str :=
  let y := period_year p in
  let m := period_month p in
  [digit (y / 1000); digit (y / 100); digit (y / 10); digit y; 45%N; digit (m / 10); digit m].

(** Result of [close_reason_ratio_last_n_months]: when every group gives
    [None] (or there is no group) [apply] returns an empty frame, otherwise
    the Series of the groups' values indexed by month. *)
Inductive monthly_result `{FloatOps} :=
  | EmptyFrame
  | MonthSeries (l : list (period * option pyfloat)).

Record region_month_record `{FloatOps} := mkRMR {
  rmr_month : str;
  rmr_region : str;
  rmr_ratio : option pyfloat
}.
Arguments mkRMR {_} _ _ _.

Record osp_result `{FloatOps} := mkOsp {
  filtered_df : DataFrame;
  count : nat;
  osp_close_reason_ratio : option pyfloat;
  close_reason_denom : nat
}.
Arguments mkOsp {_} _ _ _ _.

Section CaseMetrics2.
Context `{UnicodeTables} `{FloatOps}.

Definition close_reason_ratio_last_n_months (today : Timestamp) (df_cases : DataFrame) (n : Z)
  : result monthly_result :=
  df_filtered ← last_n_months_filter today df_cases n;
  let ratios :=
    map (fun g => (fst g, scalar_of (close_reason_ratio (snd g) None)))
        (groupby Z.leb month_of df_filtered) in
  mret (if forallb (fun x => bool_decide (snd x = None)) ratios
        then EmptyFrame else MonthSeries ratios).

Definition close_reason_ratio_last_n_months_by_region
    (today : Timestamp) (df_cases : DataFrame) (n : Z) : result (list region_month_record) :=
  df_filtered ← last_n_months_filter today df_cases n;
  let grouped :=
    groupby month_region_leb
      (fun r => match month_of r, region_norm r with
                | Some m, Some g => Some (m, g)
                | _, _ => None
                end)
      df_filtered in
  mret (map (fun g =>
               let ratio := scalar_of (close_reason_ratio (snd g) None) in
               mkRMR (period_str (fst (fst g))) (snd (fst g)) ratio)
            grouped).

Definition get_valid_cases_and_ratio (df_cases : DataFrame) (region_arg : option str)
  : result (DataFrame * option pyfloat) :=
  df ← match region_arg with
       | Some r =>
           if negb (bool_decide (upper r = lit "ALL"))
           then getitem_mask df_cases
                  (eq_str (upper r) (str_upper (str_strip (col region df_cases))))
           else mret df_cases
       | None => mret df_cases
       end;
  let notna_mask := notna (col close_reason df) in
  let valid_mask :=
    notna_mask
    &: isin CLOSE_REASONS (str_strip (col close_reason df_cases))
    &: ne_str CLOSED_PURGED (str_strip (col status df))
    &: str_contains_ci [lit "Support"; lit "Idaptive"; lit "EPM"] (col owner_role df)
    &: eq_str (lit "External") (str_strip (col case_record_type df)) in
  valid_cases_df ← getitem_mask df valid_mask;
  let num := series_sum valid_mask in
  let denom := series_sum notna_mask in
  let ratio := if Nat.eqb denom 0 then None else Some (round3 (fdiv num denom)) in
  mret (valid_cases_df, ratio).

(** [df["created_date"] >= t] and [<= t]: false on a missing date. *)
Definition ge_ts (t : Timestamp) (s : Series (option Timestamp)) : Series bool :=
  smap (fun v => match v with Some x => ts_leb t x | None => false end) s.
Definition le_ts (t : Timestamp) (s : Series (option Timestamp)) : Series bool :=
  smap (fun v => match v with Some x => ts_leb x t | None => false end) s.

Definition osp_kcs_engagement (today : Timestamp) (df_cases : DataFrame) : result osp_result :=
  let first_of_this_month := replace_day 1 today in
  let last_month_end := minus_one_day first_of_this_month in
  let last_month_start := replace_day 1 last_month_end in
  let mask :=
    eq_str (lit "External") (str_strip (col case_record_type df_cases))
    &: str_contains_ci [lit "Idaptive"; lit "Support"] (col owner_role df_cases)
    &: ne_str CLOSED_PURGED (str_strip (col status df_cases))
    &: isin [lit "Solugenix"; lit "Helpware"] (col owner_company df_cases)
    &: ge_ts last_month_start (col created_date df_cases)
    &: le_ts last_month_end (col created_date df_cases) in
  filtered ← getitem_mask df_cases mask;
  let count := length filtered in
  let notna_mask := notna (col close_reason filtered) in
  let valid_mask := notna_mask &: isin CLOSE_REASONS (str_casefold (col close_reason filtered)) in
  let denom := series_sum notna_mask in
  let num := series_sum valid_mask in
  let ratio := if Nat.eqb denom 0 then None else Some (fdiv num denom) in
  let ratio := match ratio with Some x => Some (round3 x) | None => None end in
  mret (mkOsp filtered count ratio denom).
End CaseMetrics2.

(** *** Open cases week over week *)

Section OpenCases.
Context `{UnicodeTables}.

(** [dt.replace(day=d, hour=0, minute=0, second=0, microsecond=0)]; the
    nanosecond field is not among the replaced ones. *)
Definition replace_day_midnight (d : Z) (dt : Timestamp) : Timestamp :=
  mkTimestamp (year dt) (month dt) d 0 0 0 0 (nanosecond dt).

(** The local function [get_month_week_start]. *)
Definition get_month_week_start (dt : Timestamp) : Timestamp :=
  let day := day dt in
  if (day <=? 7)%Z then replace_day_midnight 1 dt
  else if (day <=? 14)%Z then replace_day_midnight 8 dt
  else if (day <=? 21)%Z then replace_day_midnight 15 dt
  else replace_day_midnight 22 dt.

(** [.dt.normalize()]: midnight of the same day. *)
Definition normalize (t : Timestamp) : Timestamp :=
  mkTimestamp (year t) (month t) (day t) 0 0 0 0 0.

(** [df["week_start"]] on one row: [apply] maps the function over
    [closed_date] (a missing date stays missing), then [normalize]. *)
Definition week_start (r : CaseRecord) : option Timestamp :=
  option_map normalize (option_map get_month_week_start (closed_date r)).

Definition exclude_roles : list str :=
  [lit "Queue " ++ [8211%N] ++ lit " Support Mailbox";
   lit "Queue " ++ [8211%N] ++ lit " Sales Ops";
   lit "Users Access";
   lit "Queue " ++ [8211%N] ++ lit " Renewal Ops"].

Definition week_region_leb (a b : Timestamp * str) : bool :=
  ts_leb (fst a) (fst b) && (negb (ts_leb (fst b) (fst a)) || str_leb (snd a) (snd b)).

Definition open_cases_week_over_week_by_region
    (df_cases : DataFrame) (end_date : option Timestamp)
  : result (list (Timestamp * str * nat)) :=
  let exclude_regions_upper := map upper [lit "ADMIN LAND (TEST)"; lit ""] in
  df ← getitem_mask df_cases
         (series_not (isin exclude_regions_upper (str_upper (str_strip (col region df_cases))))
          &: notna (col region df_cases)
          &: series_not (isin exclude_roles (col owner_role df_cases))
          &: ne_str (lit "License") (col case_record_type df_cases));
  df ← match end_date with
       | Some end_dt => getitem_mask df (le_ts end_dt (col closed_date df))
       | None => mret df
       end;
  mret (map (fun g => (fst (fst g), snd (fst g), length (snd g)))
            (groupby week_region_leb
               (fun r => match week_start r, region_norm r with
                         | Some w, Some g => Some (w, g)
                         | _, _ => None
                         end)
               df)).
End OpenCases.

(** *** Article metrics *)

(** A cell of a date column: missing, the empty string, or a timestamp. *)
Inductive datecell :=
  | DNull
  | DEmpty
  | DTime (t : Timestamp).

#[global] Instance datecell_eq_dec : EqDecision datecell.
Proof. solve_decision. Defined.

(** One row of the cleaned article-version table (the columns the metrics
    read). *)
Record ArticleRecord := mkArticle {
  article_id : option str;
  article_type : option str;
  creator_name : option str;
  version_is_latest : option bool;
  publish_status : option str;
  published_at : datecell;
  visible_to_customers : option bool;
  internal : option bool;
  days_to_publish : option Z;
  published_by_name : option str
}.

Definition ArticleFrame := Series ArticleRecord.

(** [s == True] and [s == False] on a nullable boolean column. *)
Definition eq_bool (b : bool) (s : Series (option bool)) : Series bool :=
  smap (fun v => bool_decide (v = Some b)) s.

(** [pd.to_datetime(s, errors='coerce')] on a date cell. *)
Definition to_datetime_coerce (c : datecell) : option Timestamp :=
  match c with
  | DTime t => Some t
  | _ => None
  end.

(** [dates >= d] and [dates <= d]: false on [NaT]. *)
Definition ge_date (d : date) (s : Series (option date)) : Series bool :=
  smap (fun v => match v with Some x => date_leb d x | None => false end) s.
Definition le_date (d : date) (s : Series (option date)) : Series bool :=
  smap (fun v => match v with Some x => date_leb x d | None => false end) s.

(** [s.nunique()]: the number of distinct non-missing values. *)
Definition nunique {A} `{EqDecision A} (s : Series (option A)) : nat :=
  length (unique (omap (fun v => v) (values s))).

Definition ARTICLE_TYPES : list str := [lit "FAQ"; lit "How To"; lit "Technical Issue"].

Definition count_published_articles (df : ArticleFrame) (start end_ : Timestamp) : result nat :=
  let allowed_types := ARTICLE_TYPES in
  df ← getitem_mask df (isin allowed_types (col article_type df));
  df ← getitem_mask df (ne_str (lit "BI Integration") (col creator_name df));
  df ← getitem_mask df (eq_bool true (col version_is_latest df));
  published_df ← getitem_mask df (eq_str (lit "Online") (col publish_status df));
  let start_dt := date_of start in
  let end_dt := date_of end_ in
  let published_dates :=
    smap (fun c => option_map date_of (to_datetime_coerce c)) (col published_at published_df) in
  let published_in_range := ge_date start_dt published_dates &: le_date end_dt published_dates in
  selected ← getitem_mask published_df published_in_range;
  let published_count := nunique (col article_id selected) in
  mret published_count.

(** [valid_days.median()] of a non-empty list of day counts: the middle
    value of the sorted list, or the mean of the two middle values. *)
Definition median (l : list Z) : Q :=
  let s := sort_keys Z.leb l in
  let n := length s in
  if Nat.even n
  then Qmake (nth (n / 2 - 1) s 0%Z + nth (n / 2) s 0%Z) 2
  else inject_Z (nth (n / 2) s 0%Z).

Definition median_days_to_publish (df : ArticleFrame) : result (option Q) :=
  let mask :=
    eq_str (lit "Online") (col publish_status df)
    &: eq_bool true (col visible_to_customers df)
    &: eq_bool true (col version_is_latest df)
    &: isin [lit "FAQ"; lit "Technical Issue"; lit "How To"] (col article_type df)
    &: smap (fun c => negb (bool_decide (c = DNull))) (col published_at df)
    &: smap (fun c => negb (bool_decide (c = DEmpty))) (col published_at df)
    &: ne_str (lit "") (col published_by_name df)
    &: eq_bool false (col internal df) in
  selected ← getitem_mask df mask;
  let valid_days := omap (fun v => v) (values (col days_to_publish selected)) in
  mret (match valid_days with
        | [] => None
        | _ :: _ => Some (median valid_days)
        end).

End Metrics.
Export Metrics.

(* ===================================================================== *)
(** ** [transform/clean.py]: the normalizer *)
(* ===================================================================== *)

Module Clean.

(** A value of a column of Python objects. *)
Inductive cell :=
  | CNull                              (* None or NaN *)
  | CInt (z : Z)                       (* int *)
  | CFloat (x : PrimFloat.float)       (* float *)
  | CStr (s : str)                     (* str *)
  | CBool (b : bool)                   (* bool *)
  | CTime (t : Timestamp).             (* pd.Timestamp *)

(** A column: its dtype and its values. *)
Inductive column :=
  | Objects (l : list cell)                    (* object *)
  | Int64s (l : list Z)                        (* int64 *)
  | Float64s (l : list PrimFloat.float)        (* float64, NaN for a missing value *)
  | Bools (l : list bool)                      (* bool *)
  | Datetimes (l : list (option Timestamp)).   (* datetime64[ns], NaT as [None] *)

(** A raw table: its columns by (distinct) source name.  A cleaned table:
    its columns in order, each with its canonical name. *)
Definition RawFrame := gmap str column.
Definition CleanFrame := list (str * column).

(** A Python dict display: a repeated key keeps its first position and takes
    the last value. *)
Fixpoint dict_set (k v : str) (d : list (str * str)) : list (str * str) :=
  match d with
  | [] => [(k, v)]
  | (k', v') :: d' => if bool_decide (k = k') then (k, v) :: d' else (k', v') :: dict_set k v d'
  end.

Definition dict_display (items : list (str * str)) : list (str * str) :=
  fold_left (fun d kv => dict_set (fst kv) (snd kv) d) items [].

Definition dict_get (d : list (str * str)) (k : str) : option str :=
  option_map snd (find (fun kv => bool_decide (fst kv = k)) d).

(** [df[keys]]: the listed columns in the order of the keys; [KeyError]
    names the keys that are no column. *)
Definition getitem_cols (keys : list str) (df : RawFrame) : result CleanFrame :=
  match List.filter (fun k => bool_decide (df !! k = None)) keys with
  | [] => Ok (omap (fun k => option_map (fun c => (k, c)) (df !! k)) keys)
  | missing => Raise (KeyError missing)
  end.

(** [df.rename(columns=wanted)] *)
Definition rename (wanted : list (str * str)) (df : CleanFrame) : CleanFrame :=
  map (fun kc => (match dict_get wanted (fst kc) with Some n => n | None => fst kc end, snd kc)) df.

(** The values an int64 holds. *)
Definition in_int64 (z : Z) : bool := ((- 2 ^ 63 <=? z) && (z <? 2 ^ 63))%Z.

(** The whole number that the cast of a float64 to an integer keeps: the
    value with its fraction cut off; [None] for NaN and the infinities. *)
Definition float_trunc (x : PrimFloat.float) : option Z :=
  match FloatOps.Prim2SF x with
  | SpecFloat.S754_zero _ => Some 0%Z
  | SpecFloat.S754_finite s m e =>
      let a := (if 0 <=? e then Zpos m * 2 ^ e else Zpos m / 2 ^ (- e))%Z in
      Some (if s then (- a)%Z else a)
  | SpecFloat.S754_infinity _ | SpecFloat.S754_nan => None
  end.

Definition float_is_nan (x : PrimFloat.float) : bool :=
  match FloatOps.Prim2SF x with
  | SpecFloat.S754_nan => true
  | _ => false
  end.

(** Every value of a list, when [f] gives one for each. *)
Fixpoint traverse {A B} (f : A -> option B) (l : list A) : option (list B) :=
  match l with
  | [] => Some []
  | a :: l' =>
      match f a, traverse f l' with
      | Some b, Some bs => Some (b :: bs)
      | _, _ => None
      end
  end.

(** The results of a list in order, up to the first that raises. *)
Fixpoint collect {A} (l : list (result A)) : result (list A) :=
  match l with
  | [] => Ok []
  | r :: l' =>
      a ← r;
      l'' ← collect l';
      mret (a :: l'')
  end.

Section Normalizer.
(** Python's [int()] on a string, a builtin the source only calls; [None]
    stands for its [ValueError]. *)
Variable int_of_str : str -> option Z.

(** [s.fillna(0).astype(int)] is pandas' work, and what it does depends on
    the dtype of the column.  The model fixes it on the columns where a
    count can be read off each value: an int64 or bool column, a float64
    column of NaN and of finite values that fit an int64, and an object
    column of [None], ints that fit, bools and strings.  On every other
    column (datetimes, infinities, values beyond 64 bits, other objects)
    the two calls are left to pandas, [astype_other]: it may raise or
    return, by dtype and version. *)
Variable astype_other : column -> result column.

(** One value of a float64 column: NaN is filled with 0, a finite value is
    cut to its whole part. *)
Definition int_of_float (x : PrimFloat.float) : option Z :=
  if float_is_nan x then Some 0%Z
  else match float_trunc x with
       | Some z => if in_int64 z then Some z else None
       | None => None
       end.

(** One value of an object column: [None] is filled with 0, and [int()]
    reads the others. *)
Definition int_of_cell (v : cell) : option (result Z) :=
  match v with
  | CNull => Some (Ok 0%Z)
  | CInt z => if in_int64 z then Some (Ok z) else None
  | CBool b => Some (Ok (if b then 1 else 0)%Z)
  | CStr s =>
      match int_of_str s with
      | None => Some (Raise ValueError)
      | Some z => if in_int64 z then Some (Ok z) else None
      end
  | CFloat _ | CTime _ => None
  end.

(** The values of the cast on the columns the model fixes. *)
Definition pinned_cast (c : column) : option (result (list Z)) :=
  match c with
  | Int64s l => if forallb in_int64 l then Some (Ok l) else None
  | Bools l => Some (Ok (map (fun b : bool => if b then 1 else 0)%Z l))
  | Float64s l => option_map Ok (traverse int_of_float l)
  | Objects l => option_map collect (traverse int_of_cell l)
  | Datetimes _ => None
  end.

(** [s.fillna(0).astype(int)]: an int64 column, or the error of the cast. *)
Definition fillna0_astype_int (c : column) : result column :=
  match pinned_cast c with
  | Some r => l ← r; mret (Int64s l)
  | None => astype_other c
  end.

(** [df[name] = df[name].fillna(0).astype(int)]: the column keeps its
    place; a frame without it raises [KeyError]. *)
Fixpoint coerce_column (name : str) (df : CleanFrame) : result CleanFrame :=
  match df with
  | [] => Raise (KeyError [name])
  | (n, c) :: df' =>
      if bool_decide (n = name)
      then c' ← fillna0_astype_int c; mret ((n, c') :: df')
      else df'' ← coerce_column name df'; mret ((n, c) :: df'')
  end.

Definition wanted_articles : list (str * str) :=
  dict_display
    [(lit "PUBLISHED_BY_NAME", lit "publisher");
     (lit "PUBLISHED_BY_REGION", lit "region");
     (lit "PUBLIC_KB_VIEWCOUNT", lit "views_by_customers");
     (lit "ARTICLE_NUMBER", lit "article_id");
     (lit "ARTICLE_FIRST_PUBLISHED_DATE", lit "published_at");
     (lit "DAYS_TO_PUBLISH", lit "days_to_publish");
     (lit "ARTICLE_TYPE", lit "article_type");
     (lit "PUBLISH_STATUS", lit "publish_status");
     (lit "INTERNAL", lit "internal");
     (lit "ARTILE_TITLE", lit "title");
     (lit "COMMUNITY_ARTICLE_URL", lit "community_article_url");
     (lit "ARTICLE_CASE_ATTACH_COUNT", lit "article_attach_count");
     (lit "CREATOR_REGION", lit "creator_region");
     (lit "ARTICLE_CREATED_DATE", lit "created_at");
     (lit "CREATOR_NAME", lit "creator_name");
     (lit "VISIBLE_IN_CUSTOMER_PORTAL", lit "visible_to_customers");
     (lit "VERSION_IS_LATEST", lit "version_is_latest");
     (lit "PUBLISHED_BY_NAME", lit "published_by_name")].

Definition clean_articles (df : RawFrame) : result CleanFrame :=
  let wanted := wanted_articles in
  df ← getitem_cols (map fst wanted) df;
  let df := rename wanted df in
  coerce_column (lit "views_by_customers") df.


End Normalizer.

End Clean.
Export Clean.

(* ===================================================================== *)
(** ** [transform/metrics.py]: the remaining functions *)
(* ===================================================================== *)

Module MetricsMore.

(** One record of [get_all_regions_valid_cases_and_ratios]. *)
Record region_summary `{FloatOps} := mkSummary {
  rs_region : str;
  rs_valid_cases_count : nat;
  rs_close_reason_ratio : option pyfloat
}.
Arguments mkSummary {_} _ _ _.

Section AllRegions.
Context `{UnicodeTables} `{FloatOps}.

(** The loop over [regions]: a missing region ([pd.isna]) and the regions
    of [exclude_regions] are skipped; the first call that raises ends the
    loop. *)
Fixpoint all_regions_loop (df_cases : DataFrame) (regions : list (option str))
  : result (list region_summary) :=
  match regions with
  | [] => mret []
  | None :: rest => all_regions_loop df_cases rest
  | Some region :: rest =>
      if in_strs region [lit "NONE"; lit "ADMIN LAND (TEST)"]
      then all_regions_loop df_cases rest
      else
        vr ← get_valid_cases_and_ratio df_cases (Some region);
        records ← all_regions_loop df_cases rest;
        mret (mkSummary region (length (fst vr)) (snd vr) :: records)
  end.

Definition get_all_regions_valid_cases_and_ratios (df_cases : DataFrame)
  : result (list region_summary) :=
  let regions := unique (values (str_upper (str_strip (col region df_cases)))) in
  all_regions_loop df_cases regions.
End AllRegions.

(** A row of the cleaned article table with its [created_at] column. *)
Record ArticleRow := mkArticleRow {
  article : ArticleRecord;
  created_at : datecell
}.

Definition count_created_articles (df : Series ArticleRow) (start end_ : Timestamp)
  : result nat :=
  let allowed_types := ARTICLE_TYPES in
  df ← getitem_mask df (isin allowed_types (col (fun r => article_type (article r)) df));
  df ← getitem_mask df (ne_str (lit "BI Integration")
                               (col (fun r => creator_name (article r)) df));
  df ← getitem_mask df (eq_bool true (col (fun r => version_is_latest (article r)) df));
  let start_dt := start in
  let end_dt := end_ in
  let created_dates := smap to_datetime_coerce (col created_at df) in
  let created_in_range := ge_ts start_dt created_dates &: le_ts end_dt created_dates in
  selected ← getitem_mask df created_in_range;
  let created_count := length selected in
  mret created_count.

End MetricsMore.
Export MetricsMore.

(* ===================================================================== *)
(** ** [extract/queries.py] and [pipeline.py]: the date windows *)
(* ===================================================================== *)

Module Queries.
Local Open Scope Z_scope.

(** What [datetime.date] arithmetic can raise. *)
Inductive date_error :=
  | DateValueError       (* replace(): not a date *)
  | DateOverflowError.   (* date - timedelta: before year 1 *)

Definition dbind {A B} (m : date_error + A) (k : A -> date_error + B) : date_error + B :=
  match m with
  | inl e => inl e
  | inr a => k a
  end.

(** The dates that [datetime.date] can hold. *)
Definition valid_date (d : date) : bool :=
  match d with
  | (y, m, dd) =>
      (1 <=? y) && (y <=? 9999) && (1 <=? m) && (m <=? 12)
      && (1 <=? dd) && (dd <=? days_in_month y m)
  end.

(** [d.replace(year=y, month=m, day=dd)] *)
Definition date_replace (y m dd : Z) : date_error + date :=
  if valid_date (y, m, dd) then inr (y, m, dd) else inl DateValueError.

(** [d - timedelta(days=1)] *)
Definition date_minus_one_day (d : date) : date_error + date :=
  match d with
  | (y, m, dd) =>
      if 1 <? dd then inr (y, m, dd - 1)
      else if 1 <? m then inr (y, m - 1, days_in_month y (m - 1))
      else if 1 <? y then inr (y - 1, 12, 31)
      else inl DateOverflowError
  end.

(** [d.isoformat()]: ["YYYY-MM-DD"]. *)
Definition isoformat (d : date) : str :=
  match d with
  | (y, m, dd) =>
      [digit (y / 1000); digit (y / 100); digit (y / 10); digit y; 45%N;
       digit (m / 10); digit m; 45%N; digit (dd / 10); digit dd]
  end.

(** [last_month_window()] for the clock reading [today]. *)
Definition last_month_window (today : date) : date_error + (str * str) :=
  match today with
  | (y, m, _) =>
      dbind (date_replace y m 1) (fun first_this_month =>
      dbind (date_minus_one_day first_this_month) (fun last_day_prev =>
      match last_day_prev with
      | (yp, mp, _) =>
          dbind (date_replace yp mp 1) (fun first_day_prev =>
          inr (isoformat first_day_prev, isoformat last_day_prev))
      end))
  end.

(** The loop [while month <= 0: month += 12; year -= 1]; [None] when the
    fuel runs out. *)
Fixpoint wrap_month (fuel : nat) (month year : Z) : option (Z * Z) :=
  if month <=? 0 then
    match fuel with
    | O => None
    | S fuel' => wrap_month fuel' (month + 12) (year - 1)
    end
  else Some (month, year).

(** [last_n_months_window(n)] for the clock reading [today]. *)
Definition last_n_months_window (today : date) (n : Z) : option (date_error + (str * str)) :=
  match today with
  | (y, m, _) =>
      match date_replace y m 1 with
      | inl e => Some (inl e)
      | inr first_this_month =>
          let month := m - (n - 1) in
          let year := y in
          match wrap_month (Z.to_nat (1 - month)) month year with
          | None => None
          | Some (month, year) =>
              Some (dbind (date_replace year month 1) (fun first_n_months_ago =>
                    inr (isoformat first_n_months_ago, isoformat today)))
          end
      end
  end.

(** The date calculations of [pipeline.py]: the window passed to the two
    fetch functions, for the reading [now] of [pd.Timestamp.now()]. *)
Definition pipeline_window (now : Timestamp) : date * date :=
  let first_of_this_month := replace_day 1 now in
  let last_month_end := minus_one_day first_of_this_month in
  let last_month_start := replace_day 1 last_month_end in
  let start := date_of last_month_start in
  let end_ := date_of last_month_end in
  (start, end_).

End Queries.
Export Queries.

(* ===================================================================== *)
(** ** Concrete runtimes, to run the definitions on tables *)
(* ===================================================================== *)

Module Instances.

(** A fragment of the Unicode case tables: sharp s, e acute, dotless i,
    dotted capital I and the Kelvin sign; every other code point above
    ASCII is left as it is. *)
Definition fragment_upper (c : N) : list N :=
  if (c =? 223)%N then [83; 83]%N
  else if (c =? 233)%N then [201]%N
  else if (c =? 305)%N then [73]%N
  else [c].

Definition fragment_fold (c : N) : list N :=
  if (c =? 223)%N then [115; 115]%N
  else if (c =? 201)%N then [233]%N
  else if (c =? 304)%N then [105; 775]%N
  else if (c =? 8490)%N then [107]%N
  else [c].

Definition fragment_tables : UnicodeTables :=
  {| upper_ext := fragment_upper; fold_ext := fragment_fold |}.

(** Round half to even of [n / d]. *)
Definition half_even (n : Z) (d : positive) : Z :=
  let f := (n / Zpos d)%Z in
  let r := (n mod Zpos d)%Z in
  if (2 * r <? Zpos d)%Z then f
  else if (Zpos d <? 2 * r)%Z then (f + 1)%Z
  else if Z.even f then f else (f + 1)%Z.

(** Python's [float(z)]: the binary64 value nearest to the integer. *)
Definition float_of_Z (z : Z) : PrimFloat.float :=
  FloatOps.SF2Prim (SpecFloat.binary_normalize FloatOps.prec FloatOps.emax z 0 false).

(** The binary64 value nearest to [k / 1000]: what Python writes [0.667]
    for [k = 667]. *)
Definition thousandths (k : Z) : PrimFloat.float :=
  PrimFloat.div (float_of_Z k) (float_of_Z 1000).

(** [float(n) / float(d)]: the binary64 quotient; a zero count over a
    non-zero one is [0.0]. *)
Definition py_div (n d : nat) : PrimFloat.float :=
  match n, d with
  | O, S _ => PrimFloat.zero
  | _, _ => PrimFloat.div (float_of_Z (Z.of_nat n)) (float_of_Z (Z.of_nat d))
  end.

(** [round(x, 3)]: Python rounds the exact value of the binary64 [x] to
    three decimals, ties to even, and returns the binary64 value nearest to
    that decimal.  From [2 ^ 43] on the result is [x] itself, its neighbours
    being further away than half a thousandth. *)
Definition py_round3 (x : PrimFloat.float) : PrimFloat.float :=
  match FloatOps.Prim2SF x with
  | SpecFloat.S754_finite s m e =>
      if (43 <=? Z.log2 (Zpos m) + e)%Z then x
      else
        let k := if (0 <=? e)%Z then (Zpos m * 2 ^ e * 1000)%Z
                 else half_even (Zpos m * 1000) (Z.to_pos (2 ^ (- e))) in
        if s then PrimFloat.opp (thousandths k) else thousandths k
  | _ => x
  end.

(** Python's floats. *)
Definition exact_float : FloatOps :=
  {| pyfloat := PrimFloat.float;
     fdiv := py_div;
     round3 := py_round3;
     fzero := PrimFloat.zero |}.

(** A timestamp at midnight, and one with a time of day. *)
Definition at_midnight (y m d : Z) : Timestamp := mkTimestamp y m d 0 0 0 0 0.
Definition at_time (y m d h mi : Z) : Timestamp := mkTimestamp y m d h mi 0 0 0.

(** A case of the given region, role, status, close reason and record type. *)
Definition a_case (created : option Timestamp) (reg role stat reason rtype : option str)
  : CaseRecord :=
  mkCase None created None reg role (Some (lit "Solugenix")) stat reason rtype.

(** The end-to-end scenario of section 8: ten cases, six valid, two purged,
    one without a close reason, one with a role outside the rule. *)
Definition scenario : DataFrame :=
  let ok := a_case None (Some (lit "EMEA")) (Some (lit "Tier 2 Support"))
                   (Some (lit "Closed")) (Some (lit "Article Created"))
                   (Some (lit "External")) in
  let purged := a_case None (Some (lit "EMEA")) (Some (lit "Tier 2 Support"))
                       (Some CLOSED_PURGED) (Some (lit "Article Created"))
                       (Some (lit "External")) in
  let open := a_case None (Some (lit "EMEA")) (Some (lit "Tier 2 Support"))
                     (Some (lit "Closed")) None (Some (lit "External")) in
  let sales := a_case None (Some (lit "EMEA")) (Some (lit "Sales"))
                      (Some (lit "Closed")) (Some (lit "Article Created"))
                      (Some (lit "External")) in
  [(0, ok); (1, ok); (2, ok); (3, ok); (4, ok); (5, ok);
   (6, purged); (7, purged); (8, open); (9, sales)].

(** A case that passes every filter of [osp_kcs_engagement] but the date
    window, created at the given time. *)
Definition osp_case (created : Timestamp) : CaseRecord :=
  a_case (Some created) (Some (lit "EMEA")) (Some (lit "Tier 2 Support"))
         (Some (lit "Closed")) (Some (lit "Article Created")) (Some (lit "External")).

(** Cases of one region written in three ways, and one ADMIN case. *)
Definition regional : DataFrame :=
  let c := fun reg reason =>
    a_case (Some (at_time 2024 2 10 12 0)) (Some reg) (Some (lit "Tier 2 Support"))
           (Some (lit "Closed")) reason (Some (lit "External")) in
  [(0, c (lit " emea ") (Some (lit "Article Created")));
   (1, c (lit "EMEA") (Some (lit "Duplicate")));
   (2, c (lit "Emea") None);
   (3, c (lit "apac") (Some (lit "Article Updated")));
   (4, c (lit "admin") (Some (lit "Article Flagged")))].

(** A case closed on the given day of February 2024, late in the day. *)
Definition closed_on (d : Z) : CaseRecord :=
  mkCase None None (Some (mkTimestamp 2024 2 d 23 59 59 999999 999))
         (Some (lit "EMEA")) None None None None None.

(** Clock readings: a morning in March 2024, a later day of that month at
    the same time, and the same morning a month later. *)
(** A raw article table of one row with every source column, each a
    missing value; the same table with another column of view counts; and
    a reading of decimal digits for [int()]. *)
Definition raw_articles : Clean.RawFrame :=
  list_to_map
    (map (fun k => (k, Clean.Objects [Clean.CNull]))
       [lit "PUBLISHED_BY_NAME"; lit "PUBLISHED_BY_REGION"; lit "PUBLIC_KB_VIEWCOUNT";
        lit "ARTICLE_NUMBER"; lit "ARTICLE_FIRST_PUBLISHED_DATE"; lit "DAYS_TO_PUBLISH";
        lit "ARTICLE_TYPE"; lit "PUBLISH_STATUS"; lit "INTERNAL"; lit "ARTILE_TITLE";
        lit "COMMUNITY_ARTICLE_URL"; lit "ARTICLE_CASE_ATTACH_COUNT"; lit "CREATOR_REGION";
        lit "ARTICLE_CREATED_DATE"; lit "CREATOR_NAME"; lit "VISIBLE_IN_CUSTOMER_PORTAL";
        lit "VERSION_IS_LATEST"]).

Definition raw_articles_with (views : Clean.column) : Clean.RawFrame :=
  <[lit "PUBLIC_KB_VIEWCOUNT" := views]> raw_articles.

(** A stand-in for the cast on the columns the model leaves to pandas; the
    tables of this section stay within the columns it fixes. *)
Definition left_to_pandas (c : Clean.column) : result Clean.column := Raise TypeError.

Definition digits_only (s : str) : option Z :=
  if forallb (fun c => (48 <=? c)%N && (c <=? 57)%N) s && negb (bool_decide (s = []))
  then Some (fold_left (fun z c => (10 * z + Z.of_N (c - 48))%Z) s 0%Z)
  else None.

(** A published how-to article, created on 15 March 2024 at 10:30. *)
Definition created_in_the_morning : ArticleRow :=
  mkArticleRow
    (mkArticle (Some (lit "ka-1")) (Some (lit "How To")) (Some (lit "A. Writer")) (Some true)
               (Some (lit "Online")) (DTime (at_time 2024 3 16 9 0)) None None None None)
    (DTime (at_time 2024 3 15 10 30)).

Definition march_15 : Timestamp := at_time 2024 3 15 10 30.
Definition march_20 : Timestamp := at_time 2024 3 20 10 30.
Definition april_15 : Timestamp := at_time 2024 4 15 10 30.

End Instances.

(* ===================================================================== *)
(** ** The rules in the words of the specification *)
(* ===================================================================== *)

Module Spec.

(** [w] occurs in [s] when case is ignored: some segment of [s] matches [w]
    code point by code point. *)
Definition occurs_ci (w s : str) : Prop :=
  exists pre mid post, s = pre ++ mid ++ post /\ Forall2 (fun p c => sre_ci_eq p c = true) w mid.

Definition KCS_ROLES : list str := [lit "Support"; lit "Idaptive"; lit "EPM"].
Definition OSP_ROLES : list str := [lit "Idaptive"; lit "Support"].
Definition OSP_COMPANIES : list str := [lit "Solugenix"; lit "Helpware"].

(** The clauses of the validity rule (section 4.2), on one case. *)
Definition has_close_reason (r : CaseRecord) : Prop := close_reason r <> None.

Definition close_reason_listed (r : CaseRecord) : Prop :=
  exists s, close_reason r = Some s /\ In (strip s) CLOSE_REASONS.

Definition status_not_purged (r : CaseRecord) : Prop :=
  forall s, status r = Some s -> strip s <> CLOSED_PURGED.

Definition owner_role_matches (words : list str) (r : CaseRecord) : Prop :=
  exists s w, owner_role r = Some s /\ In w words /\ occurs_ci w s.

Definition record_type_external (r : CaseRecord) : Prop :=
  exists s, case_record_type r = Some s /\ strip s = lit "External".

Definition region_not_admin_internal `{UnicodeTables} (r : CaseRecord) : Prop :=
  forall s, region r = Some s -> ~ In (upper (strip s)) [lit "ADMIN"; lit "INTERNAL"].

(** Clauses 1 to 5: the rule of the "valid cases" variant. *)
Definition valid_case (r : CaseRecord) : Prop :=
  has_close_reason r /\ close_reason_listed r /\ status_not_purged r /\
  owner_role_matches KCS_ROLES r /\ record_type_external r.

(** Clauses 1 to 6: the full validity conjunction. *)
Definition kcs_valid `{UnicodeTables} (r : CaseRecord) : Prop :=
  valid_case r /\ region_not_admin_internal r.

(** The region a row belongs to: the trimmed, upper-cased region string. *)
Definition in_region `{UnicodeTables} (g : str) (r : CaseRecord) : Prop :=
  exists s, region r = Some s /\ upper (strip s) = g.

(** The region a call asks for: none when no region is passed, and none
    for ["ALL"] (in any letter case), which stands for every region;
    otherwise the upper-cased argument. *)
Definition requested_region `{UnicodeTables} (region_arg : option str) : option str :=
  match region_arg with
  | Some r => if decide (upper r = lit "ALL") then None else Some (upper r)
  | None => None
  end.

Definition in_requested_region `{UnicodeTables} (region_arg : option str) (r : CaseRecord)
  : Prop :=
  match requested_region region_arg with
  | Some g => in_region g r
  | None => True
  end.

(** Replacing the region of a case by its trimmed, upper-cased form, on
    the rows of a table that [sel] picks. *)
Definition with_region (g : option str) (r : CaseRecord) : CaseRecord :=
  mkCase (case_id r) (created_date r) (closed_date r) g (owner_role r) (owner_company r)
         (status r) (close_reason r) (case_record_type r).

Definition normalize_region `{UnicodeTables} (r : CaseRecord) : CaseRecord :=
  with_region (region_norm r) r.

Definition replace_regions `{UnicodeTables} (sel : nat * CaseRecord -> bool) (df : DataFrame)
  : DataFrame :=
  map (fun x => (fst x, if sel x then normalize_region (snd x) else snd x)) df.

(** Two region strings that differ only in letter case or in surrounding
    white space: each is a core without white space at its ends, wrapped in
    white space, and the cores agree code point by code point up to case
    (the two code points have the same upper-case form). *)
Definition all_space (ws : str) : Prop := forallb is_space ws = true.

Definition no_outer_space (t : str) : Prop := lstrip t = t /\ lstrip (rev t) = rev t.

Definition differ_in_case_or_outer_space `{UnicodeTables} (s1 s2 : str) : Prop :=
  exists a1 t1 b1 a2 t2 b2,
    s1 = a1 ++ t1 ++ b1 /\ s2 = a2 ++ t2 ++ b2 /\
    all_space a1 /\ all_space b1 /\ all_space a2 /\ all_space b2 /\
    no_outer_space t1 /\ no_outer_space t2 /\
    Forall2 (fun c d => upper_cp c = upper_cp d) t1 t2.

(** [t] lies in the full calendar month before the month of [today]. *)
Definition in_previous_month (today t : Timestamp) : Prop :=
  to_period_M t = (to_period_M today - 1)%Z.

(** The time of day of a timestamp. *)
Definition time_of_day (t : Timestamp) : list Z :=
  [hour t; minute t; second t; microsecond t; nanosecond t].

(** Order of calendar dates. *)
Definition date_le (a b : date) : Prop :=
  match a, b with
  | (y1, m1, d1), (y2, m2, d2) =>
      (y1 < y2 \/ (y1 = y2 /\ (m1 < m2 \/ (m1 = m2 /\ d1 <= d2))))%Z
  end.

(** An article version that [count_published] counts for the window
    [start, end]: its type, creator, latest-version flag and publish status
    pass, and the date of [published_at] lies in the window. *)
Definition counted_as_published (start end_ : Timestamp) (r : ArticleRecord) : Prop :=
  (exists s, article_type r = Some s /\ In s ARTICLE_TYPES) /\
  creator_name r <> Some (lit "BI Integration") /\
  version_is_latest r = Some true /\
  publish_status r = Some (lit "Online") /\
  exists t, published_at r = DTime t /\
            date_le (date_of start) (date_of t) /\ date_le (date_of t) (date_of end_).

(** An article version that enters [median_days_to_publish]. *)
Definition enters_median (r : ArticleRecord) : Prop :=
  publish_status r = Some (lit "Online") /\
  visible_to_customers r = Some true /\
  version_is_latest r = Some true /\
  (exists s, article_type r = Some s /\ In s ARTICLE_TYPES) /\
  published_at r <> DNull /\ published_at r <> DEmpty /\
  published_by_name r <> Some (lit "") /\
  internal r = Some false.

(** [m] is a median of [l]: at least half of the values are at most [m] and
    at least half are at least [m]. *)
Definition is_median (m : Q) (l : list Z) : Prop :=
  length l <= 2 * length (List.filter (fun x => Qle_bool (inject_Z x) m) l) /\
  length l <= 2 * length (List.filter (fun x => Qle_bool m (inject_Z x)) l).

(** The table [out] is the projection of the raw table [df] along the
    mapping [wanted]: one column per entry of the mapping, in its order,
    named by the canonical field and holding the values of the source field
    as transformed by [coerce]. *)
Definition projected (wanted : list (str * str)) (coerce : str -> column -> column)
    (df : RawFrame) (out : CleanFrame) : Prop :=
  Forall2 (fun kv oc => fst oc = snd kv /\
                        exists c, df !! fst kv = Some c /\ snd oc = coerce (snd kv) c)
          wanted out.







(** Number of entries of a list that satisfy a decidable property. *)
Definition count_of {A} (P : A -> Prop) `{forall x, Decision (P x)} (l : list A) : nat :=
  length (filter P l).

(** [Ratio] of section 4.2: undefined on an empty denominator. *)
Definition Ratio `{FloatOps} (num denom : nat) : option pyfloat :=
  if decide (denom = 0) then None else Some (round3 (fdiv num denom)).

End Spec.
Export Spec.

(* ===================================================================== *)
(** ** Row tests of the masks and auxiliary notions of the proofs *)
(* ===================================================================== *)

(** Each clause is decided by the row test its mask applies. *)
Definition close_reason_listed_b (r : CaseRecord) : bool :=
  match option_map strip (close_reason r) with
  | Some x => in_strs x CLOSE_REASONS
  | None => false
  end.

Definition status_not_purged_b (r : CaseRecord) : bool :=
  negb (bool_decide (option_map strip (status r) = Some CLOSED_PURGED)).

Definition owner_role_matches_b (words : list str) (r : CaseRecord) : bool :=
  match owner_role r with
  | Some x => re_search_ci words x
  | None => false
  end.

Definition record_type_external_b (r : CaseRecord) : bool :=
  bool_decide (option_map strip (case_record_type r) = Some (lit "External")).

Definition region_not_admin_internal_b `{UnicodeTables} (r : CaseRecord) : bool :=
  negb match option_map upper (option_map strip (region r)) with
       | Some x => in_strs x [lit "ADMIN"; lit "INTERNAL"]
       | None => false
       end.

Definition valid_case_b (r : CaseRecord) : bool :=
  notna_value (close_reason r) && close_reason_listed_b r && status_not_purged_b r
  && owner_role_matches_b KCS_ROLES r && record_type_external_b r.

Definition kcs_valid_b `{UnicodeTables} (r : CaseRecord) : bool :=
  valid_case_b r && region_not_admin_internal_b r.

Definition has_close_reason_b (r : CaseRecord) : bool := notna_value (close_reason r).

Definition in_region_b `{UnicodeTables} (g : str) (r : CaseRecord) : bool :=
  bool_decide (region_norm r = Some g).

(** A mask over the rows of [sub], followed by [False] on further labels:
    what alignment yields when a mask of a filtered frame meets a column of
    the frame it was filtered from. *)
Definition padded {A} (p : A -> bool) (sub : Series A) (rest : list nat) : Series bool :=
  smap p sub ++ map (fun i => (i, false)) rest.

(** The labels of [full] that [sub] lacks. *)
Definition labels_outside {A} (sub full : Series A) : list nat :=
  List.filter (fun i => negb (existsb (Nat.eqb i) (index sub))) (index full).

(** A stripped string: no white space at either end. *)
Definition stripped (s : str) : Prop := lstrip s = s /\ lstrip (rev s) = rev s.

(** A mapping whose images of non-space code points are non-empty and free
    of white space keeps a string free of leading white space. *)
Definition keeps_nonspace (g : N -> list N) : Prop :=
  forall c, is_space c = false ->
    g c <> [] /\ forallb (fun d => negb (is_space d)) (g c) = true.

(** Two cases that agree on every column but [region], and on the normal
    form of the region. *)
Definition same_but_region `{UnicodeTables} (r r' : CaseRecord) : Prop :=
  created_date r' = created_date r /\ owner_role r' = owner_role r /\
  status r' = status r /\ close_reason r' = close_reason r /\
  case_record_type r' = case_record_type r /\ region_norm r' = region_norm r.

(** A row function that reads the region only through its normal form. *)
Definition region_blind `{UnicodeTables} {B} (q : CaseRecord -> B) : Prop :=
  forall r r', same_but_region r r' -> q r' = q r.

(** The window the function derives from the clock reading [today]. *)
Definition osp_window (today : Timestamp) : Timestamp * Timestamp :=
  let last_month_end := minus_one_day (replace_day 1 today) in
  (replace_day 1 last_month_end, last_month_end).

(** The row test of the mask of [osp_kcs_engagement]. *)
Definition osp_row_b (today : Timestamp) (r : CaseRecord) : bool :=
  record_type_external_b r
  && owner_role_matches_b OSP_ROLES r
  && status_not_purged_b r
  && match owner_company r with Some x => in_strs x OSP_COMPANIES | None => false end
  && match created_date r with Some x => ts_leb (fst (osp_window today)) x | None => false end
  && match created_date r with Some x => ts_leb x (snd (osp_window today)) | None => false end.

(** The row test of the numerator: a case-folded close reason of the list. *)
Definition folded_reason_listed_b `{UnicodeTables} (r : CaseRecord) : bool :=
  notna_value (close_reason r)
  && match option_map casefold (close_reason r) with
     | Some x => in_strs x CLOSE_REASONS
     | None => false
     end.

(** The row test that the successive filters of [count_published_articles]
    add up to. *)
Definition counted_as_published_b (start end_ : Timestamp) (r : ArticleRecord) : bool :=
  match article_type r with Some x => in_strs x ARTICLE_TYPES | None => false end
  && negb (bool_decide (creator_name r = Some (lit "BI Integration")))
  && bool_decide (version_is_latest r = Some true)
  && bool_decide (publish_status r = Some (lit "Online"))
  && (match option_map date_of (to_datetime_coerce (published_at r)) with
      | Some x => date_leb (date_of start) x
      | None => false
      end
      && match option_map date_of (to_datetime_coerce (published_at r)) with
         | Some x => date_leb x (date_of end_)
         | None => false
         end).

(** The row test of the mask of [median_days_to_publish]. *)
Definition enters_median_b (r : ArticleRecord) : bool :=
  bool_decide (publish_status r = Some (lit "Online"))
  && bool_decide (visible_to_customers r = Some true)
  && bool_decide (version_is_latest r = Some true)
  && match article_type r with
     | Some x => in_strs x [lit "FAQ"; lit "Technical Issue"; lit "How To"]
     | None => false
     end
  && negb (bool_decide (published_at r = DNull))
  && negb (bool_decide (published_at r = DEmpty))
  && negb (bool_decide (published_by_name r = Some (lit "")))
  && bool_decide (internal r = Some false).

(** A mapping whose every entry is found under its own key. *)
Definition dict_sound (wanted : list (str * str)) : Prop :=
  Forall (fun kv => dict_get wanted (fst kv) = Some (snd kv)) wanted.

(* ===================================================================== *)
(** ** Further rules, row tests and notions, for the remaining functions *)
(* ===================================================================== *)

(** The regions that [open_cases_week_over_week_by_region] leaves out, in
    normal form. *)
Definition OPEN_EXCLUDED_REGIONS : list str := [lit "ADMIN LAND (TEST)"; lit ""].

(** A case that [open_cases_week_over_week_by_region] keeps: it has a
    region, outside the excluded ones; its owner role is none of the four
    queues; it is no license case; and with an [end_date] it was closed on
    or before it. *)
Definition open_case_kept `{UnicodeTables} (end_date : option Timestamp) (r : CaseRecord)
  : Prop :=
  (exists s, region r = Some s /\ ~ In (upper (strip s)) OPEN_EXCLUDED_REGIONS) /\
  (forall s, owner_role r = Some s -> ~ In s exclude_roles) /\
  case_record_type r <> Some (lit "License") /\
  (forall e, end_date = Some e -> exists t, closed_date r = Some t /\ ts_leb t e = true).

Definition open_case_kept_b `{UnicodeTables} (end_date : option Timestamp) (r : CaseRecord)
  : bool :=
  (negb match option_map upper (option_map strip (region r)) with
        | Some x => in_strs x (map upper [lit "ADMIN LAND (TEST)"; lit ""])
        | None => false
        end
   && notna_value (region r)
   && negb match owner_role r with Some x => in_strs x exclude_roles | None => false end
   && negb (bool_decide (case_record_type r = Some (lit "License"))))
  && match end_date with
     | Some e => match closed_date r with Some x => ts_leb x e | None => false end
     | None => true
     end.

(** The group key of [open_cases_week_over_week_by_region]. *)
Definition week_region_key `{UnicodeTables} (r : CaseRecord) : option (Timestamp * str) :=
  match week_start r, region_norm r with
  | Some w, Some g => Some (w, g)
  | _, _ => None
  end.

(** The group key of the by-region month breakdown. *)
Definition month_region_key `{UnicodeTables} (r : CaseRecord) : option (period * str) :=
  match month_of r, region_norm r with
  | Some m, Some g => Some (m, g)
  | _, _ => None
  end.

(** The first month that the last-[n]-months functions keep. *)
Definition first_month (today : Timestamp) (n : Z) : period :=
  (to_period_M today - (n - 1))%Z.

(** The row test of [last_n_months_filter]. *)
Definition in_last_n_months_b (today : Timestamp) (n : Z) (r : CaseRecord) : bool :=
  match month_of r with
  | Some m => (first_month today n <=? m)%Z
  | None => false
  end.

(** The cases a summary record of region [g] is computed from: those of
    the region, or every case when the region is named ["ALL"]. *)
Definition summary_scope `{UnicodeTables} (g : str) (r : CaseRecord) : Prop :=
  g = lit "ALL" \/ in_region g r.

(** A row created on the day of [end_], after midnight. *)
Definition created_later_on (end_ : Timestamp) (r : ArticleRow) : Prop :=
  exists t, created_at r = DTime t /\ date_of t = date_of end_ /\
            Forall (fun f => (0 <= f)%Z) (time_of_day t) /\
            time_of_day t <> [0; 0; 0; 0; 0]%Z.

(** A value of an object column that [int()] reads within 64 bits, or
    rejects: [None], a bool, an int that fits, a string. *)
Definition plain_cell (int_of_str : str -> option Z) (v : cell) : Prop :=
  match v with
  | CNull | CBool _ => True
  | CInt z => in_int64 z = true
  | CStr s => forall z, int_of_str s = Some z -> in_int64 z = true
  | CFloat _ | CTime _ => False
  end.

(** A string that [int()] rejects. *)
Definition rejected (int_of_str : str -> option Z) (v : cell) : Prop :=
  exists s, v = CStr s /\ int_of_str s = None.

(** The regions that [get_all_regions_valid_cases_and_ratios] reports: the
    distinct normal forms of the table, in order of first appearance, but
    the missing one and the two excluded names. *)
Definition reported_regions `{UnicodeTables} (df : DataFrame) : list str :=
  List.filter (fun g => negb (in_strs g [lit "NONE"; lit "ADMIN LAND (TEST)"]))
              (omap (fun v => v) (unique (map region_norm (values df)))).

(** An article row that [count_created_articles] counts. *)
Definition counted_as_created (start end_ : Timestamp) (r : ArticleRow) : Prop :=
  (exists s, article_type (article r) = Some s /\ In s ARTICLE_TYPES) /\
  creator_name (article r) <> Some (lit "BI Integration") /\
  version_is_latest (article r) = Some true /\
  exists t, created_at r = DTime t /\ ts_leb start t = true /\ ts_leb t end_ = true.

Definition counted_as_created_b (start end_ : Timestamp) (r : ArticleRow) : bool :=
  match article_type (article r) with Some x => in_strs x ARTICLE_TYPES | None => false end
  && negb (bool_decide (creator_name (article r) = Some (lit "BI Integration")))
  && bool_decide (version_is_latest (article r) = Some true)
  && (match to_datetime_coerce (created_at r) with
      | Some x => ts_leb start x
      | None => false
      end
      && match to_datetime_coerce (created_at r) with
         | Some x => ts_leb x end_
         | None => false
         end).

(* ===================================================================== *)
(** ** Series and mask lemmas *)
(* ===================================================================== *)

Lemma index_smap {A B : Type} (f : A -> B) (s : Series A) : index (smap f s) = index s.
Proof. unfold index, smap. rewrite map_map. reflexivity. Qed.

Lemma values_smap {A B : Type} (f : A -> B) (s : Series A) : values (smap f s) = map f (values s).
Proof. unfold values, smap. rewrite !map_map. reflexivity. Qed.

Lemma smap_smap {A B C : Type} (f : A -> B) (g : B -> C) (s : Series A) :
  smap g (smap f s) = smap (fun a => g (f a)) s.
Proof. unfold smap. rewrite map_map. reflexivity. Qed.

Lemma smap_ext {A B : Type} (f g : A -> B) (s : Series A) :
  (forall a, In a (values s) -> f a = g a) -> smap f s = smap g s.
Proof.
  intros E. unfold smap. apply map_ext_in. intros [i a] Hin. simpl.
  rewrite (E a); [reflexivity|]. unfold values. apply in_map_iff. exists (i, a). auto.
Qed.

Lemma series_and_smap {A : Type} (p q : A -> bool) (s : Series A) :
  series_and (smap p s) (smap q s) = smap (fun a => p a && q a) s.
Proof.
  unfold series_and. rewrite !index_smap. rewrite decide_True by reflexivity.
  induction s as [|[i a] s IH]; simpl; [reflexivity|]. f_equal. exact IH.
Qed.

Lemma series_sum_smap {A : Type} (p : A -> bool) (s : Series A) :
  series_sum (smap p s) = length (List.filter p (values s)).
Proof.
  unfold series_sum. rewrite values_smap.
  induction (values s) as [|a l IH]; simpl; [reflexivity|].
  destruct (p a); simpl; rewrite IH; reflexivity.
Qed.

Lemma select_rows_smap {A : Type} (p : A -> bool) (s : Series A) :
  select_rows s (map p (values s)) = List.filter (fun x => p (snd x)) s.
Proof.
  unfold select_rows, values.
  induction s as [|[i a] s IH]; simpl; [reflexivity|].
  destruct (p a); simpl; rewrite IH; reflexivity.
Qed.

Lemma getitem_mask_smap {A : Type} (p : A -> bool) (s : Series A) :
  getitem_mask s (smap p s) = Ok (List.filter (fun x => p (snd x)) s).
Proof.
  unfold getitem_mask. rewrite index_smap, decide_True by reflexivity.
  rewrite values_smap, select_rows_smap. reflexivity.
Qed.

Lemma values_filter_rows {A : Type} (p : A -> bool) (s : Series A) :
  values (List.filter (fun x => p (snd x)) s) = List.filter p (values s).
Proof.
  unfold values. induction s as [|[i a] s IH]; simpl; [reflexivity|].
  destruct (p a); simpl; rewrite IH; reflexivity.
Qed.

(** Counting with a boolean test and with the property it decides. *)
Lemma length_filter_reflect {A} (p : A -> bool) (P : A -> Prop) `{forall x, Decision (P x)}
    (l : list A) :
  (forall x, p x = true <-> P x) -> length (List.filter p l) = count_of P l.
Proof.
  intros E. unfold count_of. induction l as [|a l IH]; [reflexivity|].
  simpl. rewrite filter_cons. destruct (decide (P a)) as [Ha|Ha].
  - apply E in Ha. rewrite Ha. simpl. rewrite IH. reflexivity.
  - destruct (p a) eqn:Hp; [apply E in Hp; contradiction|]. exact IH.
Qed.

Lemma filter_reflect {A} (p : A -> bool) (P : A -> Prop) `{forall x, Decision (P x)}
    (l : list A) :
  (forall x, p x = true <-> P x) -> List.filter p l = filter P l.
Proof.
  intros E. induction l as [|a l IH]; [reflexivity|].
  simpl. rewrite filter_cons. destruct (decide (P a)) as [Ha|Ha].
  - apply E in Ha. rewrite Ha, IH. reflexivity.
  - destruct (p a) eqn:Hp; [apply E in Hp; contradiction|]. exact IH.
Qed.

(* ===================================================================== *)
(** ** The search of the [re] engine finds exactly the occurrences *)
(* ===================================================================== *)

Lemma match_here_ci_spec (pat s : str) :
  match_here_ci pat s = true <->
  exists mid post, s = mid ++ post /\ Forall2 (fun p c => sre_ci_eq p c = true) pat mid.
Proof.
  revert s. induction pat as [|p pat IH]; intros s; simpl.
  - split; [|reflexivity]. intros _. exists [], s. split; [reflexivity|constructor].
  - destruct s as [|c s].
    + split; [discriminate|]. intros (mid & post & E & F).
      inversion F; subst. discriminate.
    + rewrite andb_true_iff, IH. split.
      * intros (Hc & mid & post & E & F). exists (c :: mid), post. subst.
        split; [reflexivity|]. constructor; assumption.
      * intros (mid & post & E & F). inversion F as [|? c' ? mid' Hc F']; subst.
        simpl in E. injection E as -> ->. split; [assumption|]. eauto.
Qed.

Lemma re_search_ci_spec (alts : list str) (s : str) :
  re_search_ci alts s = true <-> exists w, In w alts /\ occurs_ci w s.
Proof.
  induction s as [|c s IH].
  - simpl. rewrite orb_false_r, existsb_exists. split.
    + intros (w & Hw & Hm). exists w. split; [assumption|].
      apply match_here_ci_spec in Hm as (mid & post & E & F).
      exists [], mid, post. auto.
    + intros (w & Hw & pre & mid & post & E & F). exists w. split; [assumption|].
      apply match_here_ci_spec. symmetry in E.
      apply app_eq_nil in E as [-> E]. exists mid, post. auto.
  - simpl. rewrite orb_true_iff, IH, existsb_exists. split.
    + intros [(w & Hw & Hm)|(w & Hw & pre & mid & post & E & F)].
      * exists w. split; [assumption|].
        apply match_here_ci_spec in Hm as (mid & post & E & F).
        exists [], mid, post. auto.
      * exists w. split; [assumption|]. exists (c :: pre), mid, post.
        subst. auto.
    + intros (w & Hw & pre & mid & post & E & F). destruct pre as [|c' pre].
      * left. exists w. split; [assumption|]. apply match_here_ci_spec.
        exists mid, post. auto.
      * right. simpl in E. injection E as -> ->. exists w. split; [assumption|].
        exists pre, mid, post. auto.
Qed.

Lemma in_strs_spec (x : str) (l : list str) : in_strs x l = true <-> In x l.
Proof.
  unfold in_strs. rewrite existsb_exists. split.
  - intros (y & Hy & E). apply bool_decide_eq_true in E. subst. assumption.
  - intros Hx. exists x. split; [assumption|]. apply bool_decide_eq_true. reflexivity.
Qed.

(* ===================================================================== *)
(** ** Row tests of the masks, and the clauses they decide *)
(* ===================================================================== *)

Lemma close_reason_listed_b_spec r : close_reason_listed_b r = true <-> close_reason_listed r.
Proof.
  unfold close_reason_listed_b, close_reason_listed.
  destruct (close_reason r) as [s|]; cbn [option_map].
  - rewrite in_strs_spec. split; [eauto|]. intros (s' & E & Hin). congruence.
  - split; [discriminate|]. intros (s' & E & _). discriminate.
Qed.

Lemma status_not_purged_b_spec r : status_not_purged_b r = true <-> status_not_purged r.
Proof.
  unfold status_not_purged_b, status_not_purged. rewrite negb_true_iff, bool_decide_eq_false.
  destruct (status r) as [s|]; simpl.
  - split.
    + intros Hne s' [= <-] E. apply Hne. congruence.
    + intros Hs [= E]. exact (Hs s eq_refl E).
  - split; [intros _ s' [=]|intros _ [=]].
Qed.

Lemma owner_role_matches_b_spec words r :
  owner_role_matches_b words r = true <-> owner_role_matches words r.
Proof.
  unfold owner_role_matches_b, owner_role_matches.
  destruct (owner_role r) as [s|].
  - rewrite re_search_ci_spec. split.
    + intros (w & Hw & Ho). exists s, w. auto.
    + intros (s' & w & [= <-] & Hw & Ho). eauto.
  - split; [discriminate|]. intros (s' & w & [=] & _).
Qed.

Lemma record_type_external_b_spec r :
  record_type_external_b r = true <-> record_type_external r.
Proof.
  unfold record_type_external_b, record_type_external. rewrite bool_decide_eq_true.
  destruct (case_record_type r) as [s|]; simpl.
  - split; [intros [= E]; eauto|]. intros (s' & [= <-] & E). congruence.
  - split; [discriminate|]. intros (s' & [=] & _).
Qed.

Lemma region_not_admin_internal_b_spec `{UnicodeTables} r :
  region_not_admin_internal_b r = true <-> region_not_admin_internal r.
Proof.
  unfold region_not_admin_internal_b, region_not_admin_internal. rewrite negb_true_iff.
  destruct (region r) as [s|]; cbn [option_map].
  - rewrite <- not_true_iff_false, in_strs_spec. split.
    + intros Hn s' [= <-]. exact Hn.
    + intros Hs. exact (Hs s eq_refl).
  - split; [intros _ s' [=]|reflexivity].
Qed.

Lemma has_close_reason_b_spec r :
  notna_value (close_reason r) = true <-> has_close_reason r.
Proof.
  unfold has_close_reason. destruct (close_reason r); simpl; split; congruence.
Qed.

Lemma valid_case_b_spec r : valid_case_b r = true <-> valid_case r.
Proof.
  unfold valid_case_b, valid_case. rewrite !andb_true_iff.
  rewrite has_close_reason_b_spec, close_reason_listed_b_spec, status_not_purged_b_spec,
    owner_role_matches_b_spec, record_type_external_b_spec. tauto.
Qed.

(** The clauses are decidable, so that rows can be counted by them. *)
#[global] Instance has_close_reason_dec r : Decision (has_close_reason r).
Proof. unfold has_close_reason. apply _. Defined.

#[global] Instance valid_case_dec r : Decision (valid_case r).
Proof.
  destruct (valid_case_b r) eqn:E; [left|right].
  - apply valid_case_b_spec. exact E.
  - intros Hv. apply valid_case_b_spec in Hv. congruence.
Defined.

#[global] Instance region_not_admin_internal_dec `{UnicodeTables} r :
  Decision (region_not_admin_internal r).
Proof.
  destruct (region_not_admin_internal_b r) eqn:E; [left|right].
  - apply region_not_admin_internal_b_spec. exact E.
  - intros Hv. apply region_not_admin_internal_b_spec in Hv. congruence.
Defined.

#[global] Instance kcs_valid_dec `{UnicodeTables} r : Decision (kcs_valid r).
Proof. unfold kcs_valid. apply _. Defined.

(* ===================================================================== *)
(** ** [close_reason_ratio] *)
(* ===================================================================== *)

Section CloseReasonRatio.
Context `{UnicodeTables} `{FloatOps}.

Lemma kcs_valid_b_spec r : kcs_valid_b r = true <-> kcs_valid r.
Proof.
  unfold kcs_valid_b, kcs_valid.
  rewrite andb_true_iff, valid_case_b_spec, region_not_admin_internal_b_spec. tauto.
Qed.

Lemma in_region_b_spec g r : in_region_b g r = true <-> in_region g r.
Proof.
  unfold in_region_b, in_region, region_norm. rewrite bool_decide_eq_true.
  destruct (region r) as [s|]; simpl.
  - split; [intros [= E]; eauto|]. intros (s' & [= <-] & E). congruence.
  - split; [discriminate|]. intros (s' & [=] & _).
Qed.

Lemma _ratio_smap (p q : CaseRecord -> bool) (df : DataFrame) :
  _ratio (smap p df) (smap q df)
  = Ratio (length (List.filter p (values df))) (length (List.filter q (values df))).
Proof.
  unfold _ratio, Ratio. rewrite !series_sum_smap.
  destruct (length (List.filter q (values df))); reflexivity.
Qed.

(** The masks of [close_reason_ratio] as row tests on the frame. *)
Lemma close_reason_ratio_masks (df : DataFrame) (region_arg : option str) :
  close_reason_ratio df region_arg =
  match region_arg with
  | None => Scalar (_ratio (smap kcs_valid_b df) (smap has_close_reason_b df))
  | Some r =>
      if bool_decide (upper r = lit "ALL") then
        PerRegion
          (map (fun reg =>
                  (reg,
                   _ratio
                     (smap (fun a => kcs_valid_b a &&
                                     match reg, region_norm a with
                                     | Some x, Some y => bool_decide (x = y)
                                     | _, _ => false
                                     end) df)
                     (smap (fun a => has_close_reason_b a &&
                                     match reg, region_norm a with
                                     | Some x, Some y => bool_decide (x = y)
                                     | _, _ => false
                                     end) df)))
               (unique (map region_norm (values df))))
      else
        Scalar (_ratio (smap (fun a => kcs_valid_b a && in_region_b (upper r) a) df)
                       (smap (fun a => has_close_reason_b a && in_region_b (upper r) a) df))
  end.
Proof.
  unfold close_reason_ratio, notna, isin, ne_str, str_contains_ci, eq_str, series_not,
    str_upper, str_strip, eq_key, col.
  destruct region_arg as [r|]; [destruct (bool_decide (upper r = lit "ALL"))|];
    rewrite !smap_smap, !series_and_smap.
  - rewrite values_smap. f_equal. apply map_ext. intros reg.
    rewrite !smap_smap, !series_and_smap. reflexivity.
  - reflexivity.
  - reflexivity.
Qed.

(** C1: with [region=None], [close_reason_ratio] returns
    [round(valid / nonnull, 3)], where [valid] counts the rows that satisfy
    the full validity conjunction and [nonnull] the rows with a non-null
    [close_reason], when [nonnull] is positive; and it returns the
    undefined value [None] (not a zero) when no row has a non-null
    [close_reason]. *)
Theorem close_reason_ratio_overall (df : DataFrame) :
  let valid := count_of kcs_valid (values df) in
  let nonnull := count_of has_close_reason (values df) in
  (0 < nonnull ->
     close_reason_ratio df None = Scalar (Some (round3 (fdiv valid nonnull)))) /\
  (nonnull = 0 -> close_reason_ratio df None = Scalar None).
Proof.
  intros valid nonnull.
  assert (E : close_reason_ratio df None = Scalar (Ratio valid nonnull)).
  { rewrite close_reason_ratio_masks, _ratio_smap.
    rewrite (length_filter_reflect kcs_valid_b kcs_valid) by apply kcs_valid_b_spec.
    rewrite (length_filter_reflect has_close_reason_b has_close_reason)
      by apply has_close_reason_b_spec.
    reflexivity. }
  rewrite E. unfold Ratio. split; intros Hn.
  - rewrite decide_False by lia. reflexivity.
  - rewrite decide_True by assumption. reflexivity.
Qed.

End CloseReasonRatio.

(** The scenario of section 8 gives six valid rows over nine rows with a
    close reason: [0.667]. *)
Example close_reason_ratio_scenario :
  @close_reason_ratio Instances.fragment_tables Instances.exact_float Instances.scenario None
  = @Scalar Instances.exact_float (Some (Instances.thousandths 667)).
Proof. reflexivity. Qed.

(* ===================================================================== *)
(** ** Masks over a sub-frame: alignment on the labels *)
(* ===================================================================== *)

Lemma existsb_eqb_In (i : nat) (l : list nat) : existsb (Nat.eqb i) l = true <-> In i l.
Proof.
  rewrite existsb_exists. split.
  - intros (j & Hj & E). apply Nat.eqb_eq in E. subst. assumption.
  - intros Hi. exists i. split; [assumption|apply Nat.eqb_refl].
Qed.

Lemma label_lookup_None {A} (i : nat) (s : Series A) :
  ~ In i (index s) -> label_lookup i s = None.
Proof.
  induction s as [|[j b] s IH]; simpl; intros Hn; [reflexivity|].
  destruct (Nat.eqb_spec i j) as [->|Hne]; [exfalso; apply Hn; left; reflexivity|].
  apply IH. intros Hi. apply Hn. right. exact Hi.
Qed.

Lemma label_lookup_In {A} (i : nat) (a : A) (s : Series A) :
  List.NoDup (index s) -> In (i, a) s -> label_lookup i s = Some a.
Proof.
  induction s as [|[j b] s IH]; simpl; intros ND Hin; [contradiction|].
  inversion ND as [|? ? Hj ND']; subst.
  destruct Hin as [[= -> ->]|Hin].
  - rewrite Nat.eqb_refl. reflexivity.
  - destruct (Nat.eqb_spec i j) as [->|Hne]; [|apply IH; assumption].
    exfalso. apply Hj. unfold index. apply in_map_iff. exists (j, a). auto.
Qed.

Lemma label_lookup_smap {A B} (f : A -> B) (i : nat) (s : Series A) :
  label_lookup i (smap f s) = option_map f (label_lookup i s).
Proof.
  induction s as [|[j b] s IH]; simpl; [reflexivity|].
  destruct (Nat.eqb i j); [reflexivity|exact IH].
Qed.

Lemma label_lookup_app {A} (i : nat) (s t : Series A) :
  label_lookup i (s ++ t) =
  match label_lookup i s with
  | Some a => Some a
  | None => label_lookup i t
  end.
Proof.
  induction s as [|[j b] s IH]; simpl; [reflexivity|].
  destruct (Nat.eqb i j); [reflexivity|exact IH].
Qed.

Lemma label_lookup_const {A} (i : nat) (c : A) (l : list nat) :
  In i l -> label_lookup i (map (fun j => (j, c)) l) = Some c.
Proof.
  induction l as [|j l IH]; simpl; intros Hin; [contradiction|].
  destruct (Nat.eqb_spec i j) as [->|Hne]; [reflexivity|].
  destruct Hin as [->|Hin]; [contradiction|]. apply IH. exact Hin.
Qed.

Lemma index_padded {A} (p : A -> bool) (sub : Series A) (rest : list nat) :
  index (padded p sub rest) = index sub ++ rest.
Proof.
  unfold padded, index. rewrite map_app. f_equal.
  - apply (index_smap p sub).
  - rewrite map_map. simpl. apply map_id.
Qed.

Lemma map_index_as_smap {A B} (g : nat -> B) (h : A -> B) (s : Series A) :
  (forall i a, In (i, a) s -> g i = h a) -> map (fun i => (i, g i)) (index s) = smap h s.
Proof.
  intros E. unfold index, smap. rewrite map_map. apply map_ext_in. intros [i a] Hin. simpl.
  rewrite (E i a Hin). reflexivity.
Qed.

Lemma filter_all_of_length {A} (f : A -> bool) (l : list A) :
  length (List.filter f l) = length l -> List.filter f l = l.
Proof.
  induction l as [|a l IH]; simpl; [reflexivity|].
  pose proof (List.filter_length_le f l) as Hle.
  destruct (f a); simpl; intros E.
  - f_equal. apply IH. lia.
  - lia.
Qed.

Section SubFrame.
Context {A : Type} (f : nat * A -> bool) (full : Series A).
Hypothesis full_nodup : List.NoDup (index full).

Let sub : Series A := List.filter f full.
Let rest : list nat := labels_outside sub full.

Lemma sub_in_full (x : nat * A) : In x sub -> In x full.
Proof. unfold sub. intros Hx. apply filter_In in Hx. tauto. Qed.

Lemma sub_nodup : List.NoDup (index sub).
Proof using full_nodup.
  unfold sub, index. clear rest sub. induction full as [|[i a] l IH]; simpl; [constructor|].
  inversion full_nodup as [|? ? Hi ND]; subst.
  destruct (f (i, a)); simpl; [|apply IH; assumption].
  constructor; [|apply IH; assumption].
  intros Hin. apply Hi. apply in_map_iff in Hin as ([j b] & E & Hin). simpl in E. subst.
  apply filter_In in Hin as [Hin _]. apply in_map_iff. exists (i, b). auto.
Qed.

Lemma rest_outside (i : nat) : In i rest -> ~ In i (index sub).
Proof.
  unfold rest, labels_outside. intros Hi. apply filter_In in Hi as [_ Hi].
  apply negb_true_iff in Hi. intros Hin. apply existsb_eqb_In in Hin. congruence.
Qed.

Lemma rest_nil_of_same_index : index sub = index full -> rest = [] /\ sub = full.
Proof.
  intros E. assert (Hs : sub = full).
  { unfold sub. apply filter_all_of_length.
    apply (f_equal (@length nat)) in E. unfold index in E. rewrite !length_map in E. exact E. }
  split; [|exact Hs]. unfold rest, labels_outside. rewrite Hs.
  induction (index full) as [|i l IH] in |- *; [reflexivity|].
  assert (Hall : forall k m, (forall j, In j k -> In j m) ->
            List.filter (fun j => negb (existsb (Nat.eqb j) m)) k = []).
  { clear. induction k as [|j k IHk]; intros m Hm; simpl; [reflexivity|].
    assert (Hj : existsb (Nat.eqb j) m = true) by (apply existsb_eqb_In, Hm; left; reflexivity).
    rewrite Hj. simpl. apply IHk. intros j' Hj'. apply Hm. right. exact Hj'. }
  apply Hall. auto.
Qed.

(** First conjunction of the mask: the left side lives on [sub], the right
    side on [full]. *)
Lemma series_and_sub_full (p q : A -> bool) :
  series_and (smap p sub) (smap q full) = padded (fun a => p a && q a) sub rest.
Proof using full_nodup.
  unfold series_and. rewrite !index_smap. destruct (decide (index sub = index full)) as [E|NE].
  - destruct (rest_nil_of_same_index E) as [-> Hs]. unfold padded. simpl. rewrite app_nil_r.
    replace (smap q full) with (smap q sub) by (rewrite Hs; reflexivity).
    pose proof (series_and_smap p q sub) as S. unfold series_and in S.
    rewrite !index_smap, decide_True in S by reflexivity. exact S.
  - unfold index_union, padded. rewrite map_app. f_equal.
    + apply (map_index_as_smap
               (fun i => match label_lookup i (smap p sub), label_lookup i (smap q full) with
                         | Some x, Some y => x && y
                         | _, _ => false
                         end)).
      intros i a Hin. rewrite !label_lookup_smap.
      rewrite (label_lookup_In i a sub sub_nodup Hin).
      rewrite (label_lookup_In i a full full_nodup (sub_in_full _ Hin)). reflexivity.
    + fold (labels_outside sub full). fold rest. apply map_ext_in. intros i Hi.
      rewrite label_lookup_smap, (label_lookup_None i sub (rest_outside i Hi)). reflexivity.
Qed.

(** Every further conjunction: an aligned mask meets a mask on [sub]. *)
Lemma series_and_padded_sub (p q : A -> bool) :
  series_and (padded p sub rest) (smap q sub) = padded (fun a => p a && q a) sub rest.
Proof using full_nodup.
  unfold series_and. rewrite index_padded, index_smap.
  destruct (decide (index sub ++ rest = index sub)) as [E|NE].
  - assert (Hr : rest = []).
    { apply (f_equal (@length nat)) in E. rewrite length_app in E.
      destruct rest; [reflexivity|simpl in E; lia]. }
    rewrite Hr. unfold padded. simpl. rewrite !app_nil_r.
    pose proof (series_and_smap p q sub) as S. unfold series_and in S.
    rewrite !index_smap, decide_True in S by reflexivity. exact S.
  - unfold index_union.
    assert (Hnone : List.filter (fun i => negb (existsb (Nat.eqb i) (index sub ++ rest)))
                      (index sub) = []).
    { assert (Hall : forall k, (forall j, In j k -> In j (index sub ++ rest)) ->
                List.filter (fun i => negb (existsb (Nat.eqb i) (index sub ++ rest))) k = []).
      { induction k as [|j k IHk]; intros Hm; simpl; [reflexivity|].
        assert (Hj : existsb (Nat.eqb j) (index sub ++ rest) = true)
          by (apply existsb_eqb_In, Hm; left; reflexivity).
        rewrite Hj. simpl. apply IHk. intros j' Hj'. apply Hm. right. exact Hj'. }
      apply Hall. intros j Hj. apply in_or_app. left. exact Hj. }
    rewrite Hnone, app_nil_r. unfold padded. rewrite map_app. f_equal.
    + apply (map_index_as_smap
               (fun i => match label_lookup i (smap p sub ++ map (fun j => (j, false)) rest),
                               label_lookup i (smap q sub) with
                         | Some x, Some y => x && y
                         | _, _ => false
                         end)).
      intros i a Hin. rewrite label_lookup_app, !label_lookup_smap.
      rewrite (label_lookup_In i a sub sub_nodup Hin). reflexivity.
    + apply map_ext_in. intros i Hi.
      rewrite label_lookup_app, !label_lookup_smap.
      rewrite (label_lookup_None i sub (rest_outside i Hi)). simpl.
      rewrite (label_lookup_const i false rest Hi). reflexivity.
Qed.

Lemma series_sum_padded (p : A -> bool) :
  series_sum (padded p sub rest) = length (List.filter p (values sub)).
Proof.
  rewrite <- series_sum_smap. unfold series_sum, padded, values.
  rewrite map_app, List.filter_app, length_app, map_map. simpl.
  assert (Hz : List.filter (fun b : bool => b) (map (fun _ : nat => false) rest) = []).
  { induction rest as [|i l IH] in |- *; simpl; [reflexivity|exact IH]. }
  rewrite Hz. simpl. lia.
Qed.

Lemma label_lookup_padded (p : A -> bool) (i : nat) (a : A) :
  In (i, a) sub -> label_lookup i (padded p sub rest) = Some (p a).
Proof using full_nodup.
  intros Hin. unfold padded. rewrite label_lookup_app, label_lookup_smap.
  rewrite (label_lookup_In i a sub sub_nodup Hin). reflexivity.
Qed.

Lemma take_labels_padded (p : A -> bool) :
  take_labels (index sub) (padded p sub rest) = Some (map p (values sub)).
Proof using full_nodup.
  assert (G : forall l, (forall x, In x l -> In x sub) ->
            take_labels (index l) (padded p sub rest) = Some (map p (values l))).
  { induction l as [|[i a] l IH]; intros Hl; [reflexivity|].
    change (index ((i, a) :: l)) with (i :: index l).
    change (values ((i, a) :: l)) with (a :: values l).
    cbn [take_labels map].
    rewrite (label_lookup_padded p i a (Hl _ (or_introl eq_refl))).
    rewrite IH by (intros x Hx; apply Hl; right; exact Hx).
    reflexivity. }
  apply G. auto.
Qed.

(** [df[mask]] with an aligned mask keeps the rows of [sub] that pass. *)
Lemma getitem_mask_padded (p : A -> bool) :
  getitem_mask sub (padded p sub rest) = Ok (List.filter (fun x => p (snd x)) sub).
Proof using full_nodup.
  unfold getitem_mask. rewrite index_padded.
  destruct (decide (index sub ++ rest = index sub)) as [E|NE].
  - assert (Hr : rest = []).
    { apply (f_equal (@length nat)) in E. rewrite length_app in E.
      destruct rest; [reflexivity|simpl in E; lia]. }
    rewrite Hr. unfold padded. simpl. rewrite app_nil_r, values_smap, select_rows_smap.
    reflexivity.
  - rewrite take_labels_padded, select_rows_smap. reflexivity.
Qed.
End SubFrame.

(* ===================================================================== *)
(** ** [get_valid_cases_and_ratio] *)
(* ===================================================================== *)

Lemma filter_filter_andb {A} (f g : A -> bool) (l : list A) :
  List.filter g (List.filter f l) = List.filter (fun x => f x && g x) l.
Proof.
  induction l as [|a l IH]; simpl; [reflexivity|].
  destruct (f a); simpl; [destruct (g a)|]; rewrite IH; reflexivity.
Qed.

Lemma if_eqb_zero_decide {A} (n : nat) (x y : A) :
  (if Nat.eqb n 0 then x else y) = (if decide (n = 0) then x else y).
Proof. destruct n; reflexivity. Qed.

Section ValidCases.
Context `{UnicodeTables} `{FloatOps}.

#[global] Instance in_region_dec g r : Decision (in_region g r).
Proof.
  destruct (in_region_b g r) eqn:E; [left|right].
  - apply in_region_b_spec. exact E.
  - intros Hv. apply in_region_b_spec in Hv. congruence.
Defined.

#[global] Instance in_requested_region_dec region_arg r :
  Decision (in_requested_region region_arg r).
Proof. unfold in_requested_region. destruct (requested_region region_arg); apply _. Defined.

Lemma region_filter_rows (g : str) (df : DataFrame) :
  getitem_mask df (eq_str g (str_upper (str_strip (col region df))))
  = Ok (List.filter (fun x => in_region_b g (snd x)) df).
Proof.
  unfold eq_str, str_upper, str_strip, col. rewrite !smap_smap.
  apply (getitem_mask_smap (in_region_b g)).
Qed.

(** The function on an aligned frame: every mask is a row test. *)
Lemma get_valid_cases_and_ratio_rows (df_cases : DataFrame) (region_arg : option str) :
  List.NoDup (index df_cases) ->
  exists scope : CaseRecord -> bool,
    (forall r, scope r = true <-> in_requested_region region_arg r) /\
    get_valid_cases_and_ratio df_cases region_arg =
    Ok (List.filter (fun x => scope (snd x) && valid_case_b (snd x)) df_cases,
        Ratio (length (List.filter (fun r => scope r && valid_case_b r) (values df_cases)))
              (length (List.filter (fun r => scope r && has_close_reason_b r)
                                   (values df_cases)))).
Proof.
  intros ND. unfold get_valid_cases_and_ratio, in_requested_region, requested_region.
  assert (Hall : exists scope : CaseRecord -> bool,
            (forall r, scope r = true <-> True) /\
            (df ← mret df_cases;
             let notna_mask := notna (col close_reason df) in
             let valid_mask :=
               notna_mask
               &: isin CLOSE_REASONS (str_strip (col close_reason df_cases))
               &: ne_str CLOSED_PURGED (str_strip (col status df))
               &: str_contains_ci [lit "Support"; lit "Idaptive"; lit "EPM"] (col owner_role df)
               &: eq_str (lit "External") (str_strip (col case_record_type df)) in
             valid_cases_df ← getitem_mask df valid_mask;
             let num := series_sum valid_mask in
             let denom := series_sum notna_mask in
             let ratio := if Nat.eqb denom 0 then None else Some (round3 (fdiv num denom)) in
             mret (valid_cases_df, ratio)) =
            Ok (List.filter (fun x => scope (snd x) && valid_case_b (snd x)) df_cases,
                Ratio (length (List.filter (fun r => scope r && valid_case_b r) (values df_cases)))
                      (length (List.filter (fun r => scope r && has_close_reason_b r)
                                           (values df_cases))))).
  { exists (fun _ => true). split; [tauto|].
    cbn [mbind mret result_bind result_ret bind].
    unfold notna, isin, ne_str, str_contains_ci, eq_str, str_strip, col.
    rewrite !smap_smap, !series_and_smap.
    rewrite getitem_mask_smap. cbn [mbind mret result_bind result_ret bind].
    rewrite !series_sum_smap, if_eqb_zero_decide. reflexivity. }
  destruct region_arg as [r|]; [|exact Hall].
  destruct (decide (upper r = lit "ALL")) as [E|NE].
  - rewrite (bool_decide_eq_true_2 _ E). cbn [negb]. exact Hall.
  - clear Hall. rewrite (bool_decide_eq_false_2 _ NE). cbn [negb].
    exists (in_region_b (upper r)). split; [apply in_region_b_spec|].
    rewrite region_filter_rows.
    cbn [mbind mret result_bind result_ret bind].
    set (f := fun x : nat * CaseRecord => in_region_b (upper r) (snd x)).
    unfold notna, isin, ne_str, str_contains_ci, eq_str, str_strip, col.
    rewrite !smap_smap.
    rewrite (series_and_sub_full f df_cases ND).
    rewrite !(series_and_padded_sub f df_cases ND).
    rewrite (getitem_mask_padded f df_cases ND).
    cbn [mbind mret result_bind result_ret bind].
    rewrite (series_sum_padded f df_cases), series_sum_smap.
    rewrite filter_filter_andb.
    unfold f. rewrite !values_filter_rows, !filter_filter_andb, if_eqb_zero_decide.
    reflexivity.
Qed.

(** C4: [get_valid_cases_and_ratio] returns the rows of the input that
    satisfy clauses 1 to 5 of the validity rule (the ADMIN/INTERNAL region
    exclusion is not applied), restricted to the requested region when one
    is given (matched on the trimmed, upper-cased region of the row against
    the upper-cased argument), together with [round(valid / nonnull, 3)]
    over the region-restricted table, undefined when [nonnull] is zero.
    The table has distinct index labels. *)
Theorem get_valid_cases_and_ratio_spec (df_cases : DataFrame) (region_arg : option str) :
  List.NoDup (index df_cases) ->
  let scoped := in_requested_region region_arg in
  get_valid_cases_and_ratio df_cases region_arg =
  Ok (filter (fun x => scoped (snd x) /\ valid_case (snd x)) df_cases,
      Ratio (count_of (fun r => scoped r /\ valid_case r) (values df_cases))
            (count_of (fun r => scoped r /\ has_close_reason r) (values df_cases))).
Proof.
  intros ND scoped.
  destruct (get_valid_cases_and_ratio_rows df_cases region_arg ND) as (scope & Hs & ->).
  f_equal. f_equal; [|f_equal].
  - apply filter_reflect. intros x.
    rewrite andb_true_iff, Hs, valid_case_b_spec. reflexivity.
  - apply length_filter_reflect. intros x.
    rewrite andb_true_iff, Hs, valid_case_b_spec. reflexivity.
  - apply length_filter_reflect. intros x. unfold has_close_reason_b.
    rewrite andb_true_iff, Hs, has_close_reason_b_spec. reflexivity.
Qed.

End ValidCases.

(* ===================================================================== *)
(** ** Region normalisation: [strip] then [upper] is idempotent *)
(* ===================================================================== *)

Lemma lstrip_idem (s : str) : lstrip (lstrip s) = lstrip s.
Proof.
  induction s as [|c s IH]; simpl; [reflexivity|].
  destruct (is_space c) eqn:E; [exact IH|]. simpl. rewrite E. reflexivity.
Qed.

Lemma lstrip_fixed_iff (s : str) :
  lstrip s = s <-> s = [] \/ exists c s', s = c :: s' /\ is_space c = false.
Proof.
  destruct s as [|c s]; simpl.
  - split; [auto|reflexivity].
  - destruct (is_space c) eqn:E.
    + split.
      * intros Hl. exfalso.
        assert (Hlen : length (lstrip s) <= length s).
        { clear. induction s as [|d s IH]; simpl; [lia|]. destruct (is_space d); simpl; lia. }
        rewrite Hl in Hlen. simpl in Hlen. lia.
      * intros [Hn|(c' & s' & [= <- <-] & Hc)]; congruence.
    + split; [|reflexivity]. intros _. right. eauto.
Qed.

Lemma lstrip_snoc_nonspace (l : str) (c : N) :
  is_space c = false -> exists u, lstrip (l ++ [c]) = u ++ [c].
Proof.
  intros Hc. induction l as [|d l IH]; simpl.
  - rewrite Hc. exists []. reflexivity.
  - destruct (is_space d); [exact IH|]. exists (d :: l). reflexivity.
Qed.

Lemma rstrip_idem (s : str) : rstrip (rstrip s) = rstrip s.
Proof. unfold rstrip. rewrite rev_involutive, lstrip_idem. reflexivity. Qed.

Lemma lstrip_rstrip (s : str) : lstrip s = s -> lstrip (rstrip s) = rstrip s.
Proof.
  intros Hs. apply lstrip_fixed_iff in Hs as [->|(c & s' & -> & Hc)]; [reflexivity|].
  unfold rstrip. change (rev (c :: s')) with (rev s' ++ [c]).
  destruct (lstrip_snoc_nonspace (rev s') c Hc) as [u ->].
  rewrite rev_app_distr. simpl. rewrite Hc. reflexivity.
Qed.

Lemma strip_stripped (s : str) : stripped (strip s).
Proof.
  unfold stripped, strip. split.
  - apply lstrip_rstrip, lstrip_idem.
  - unfold rstrip. rewrite rev_involutive. apply lstrip_idem.
Qed.

Lemma strip_fixed (s : str) : stripped s -> strip s = s.
Proof.
  intros [Hl Hr]. unfold strip, rstrip. rewrite Hl, Hr. apply rev_involutive.
Qed.

Lemma flat_map_rev {A B} (g : A -> list B) (l : list A) :
  rev (flat_map g l) = flat_map (fun a => rev (g a)) (rev l).
Proof.
  induction l as [|a l IH]; simpl; [reflexivity|].
  rewrite rev_app_distr, IH, flat_map_app. simpl. rewrite app_nil_r. reflexivity.
Qed.

Lemma lstrip_flat_map (g : N -> list N) (s : str) :
  keeps_nonspace g -> lstrip s = s -> lstrip (flat_map g s) = flat_map g s.
Proof.
  intros Hg Hs. apply lstrip_fixed_iff in Hs as [->|(c & s' & -> & Hc)]; [reflexivity|].
  simpl. destruct (Hg c Hc) as [Hne Hall].
  destruct (g c) as [|d u]; [contradiction|]. simpl in *.
  apply andb_true_iff in Hall as [Hd _]. apply negb_true_iff in Hd. rewrite Hd. reflexivity.
Qed.

Lemma ascii_to_upper_nonspace (c : N) :
  is_space c = false -> is_space (ascii_to_upper c) = false.
Proof.
  unfold ascii_to_upper, is_ascii_lower. destruct ((97 <=? c)%N && (c <=? 122)%N) eqn:E; [|auto].
  intros _. apply andb_true_iff in E as [E1 E2].
  apply N.leb_le in E1. apply N.leb_le in E2.
  unfold is_space.
  repeat (apply orb_false_iff; split);
    try (apply andb_false_iff; first [left; apply N.leb_gt; lia|right; apply N.leb_gt; lia]);
    apply N.eqb_neq; lia.
Qed.

Lemma ascii_to_upper_idem (c : N) : ascii_to_upper (ascii_to_upper c) = ascii_to_upper c.
Proof.
  unfold ascii_to_upper, is_ascii_lower.
  destruct ((97 <=? c)%N && (c <=? 122)%N) eqn:E.
  - apply andb_true_iff in E as [E1 E2]. apply N.leb_le in E1. apply N.leb_le in E2.
    assert (Hf : ((97 <=? c - 32)%N && (c - 32 <=? 122)%N) = false).
    { apply andb_false_iff. left. apply N.leb_gt. lia. }
    rewrite Hf. reflexivity.
  - rewrite E. reflexivity.
Qed.

Lemma ascii_to_upper_ascii (c : N) : (c < 128)%N -> (ascii_to_upper c < 128)%N.
Proof. unfold ascii_to_upper. destruct (is_ascii_lower c); lia. Qed.

Section Normalisation.
Context `{UnicodeTables}.
Hypothesis upper_idem_ext : upper_ext_idempotent.
Hypothesis upper_nonspace_ext : upper_ext_keeps_nonspace.

Lemma upper_app (s t : str) : upper (s ++ t) = upper s ++ upper t.
Proof. apply flat_map_app. Qed.

Lemma upper_cp_idem (c : N) : upper (upper_cp c) = upper_cp c.
Proof using upper_idem_ext.
  unfold upper_cp. destruct (N.ltb_spec c 128) as [Hlt|Hge].
  - unfold upper. simpl. unfold upper_cp.
    pose proof (ascii_to_upper_ascii c Hlt) as Hu. apply N.ltb_lt in Hu. rewrite Hu.
    rewrite ascii_to_upper_idem. reflexivity.
  - apply upper_idem_ext. exact Hge.
Qed.

Lemma upper_idem (s : str) : upper (upper s) = upper s.
Proof using upper_idem_ext.
  induction s as [|c s IH]; [reflexivity|].
  change (upper (c :: s)) with (upper_cp c ++ upper s).
  rewrite upper_app, upper_cp_idem, IH. reflexivity.
Qed.

Lemma upper_cp_keeps_nonspace : keeps_nonspace upper_cp.
Proof using upper_nonspace_ext.
  intros c Hc. unfold upper_cp. destruct (N.ltb_spec c 128) as [Hlt|Hge].
  - split; [discriminate|]. simpl. rewrite (ascii_to_upper_nonspace c Hc). reflexivity.
  - apply upper_nonspace_ext; assumption.
Qed.

Lemma rev_upper_cp_keeps_nonspace : keeps_nonspace (fun c => rev (upper_cp c)).
Proof using upper_nonspace_ext.
  intros c Hc. destruct (upper_cp_keeps_nonspace c Hc) as [Hne Hall]. split.
  - intros E. apply Hne. apply (f_equal (@rev N)) in E. rewrite rev_involutive in E. exact E.
  - apply forallb_forall. intros d Hd. apply in_rev in Hd.
    rewrite forallb_forall in Hall. apply Hall. exact Hd.
Qed.

Lemma upper_stripped (s : str) : stripped s -> stripped (upper s).
Proof using upper_nonspace_ext.
  intros [Hl Hr]. split.
  - apply lstrip_flat_map; [apply upper_cp_keeps_nonspace|exact Hl].
  - unfold upper. rewrite flat_map_rev.
    apply lstrip_flat_map; [apply rev_upper_cp_keeps_nonspace|exact Hr].
Qed.

(** The normal form of a region is its own normal form. *)
Lemma region_normal_form_idem (s : str) :
  upper (strip (upper (strip s))) = upper (strip s).
Proof using upper_idem_ext upper_nonspace_ext.
  rewrite (strip_fixed (upper (strip s))) by apply upper_stripped, strip_stripped.
  apply upper_idem.
Qed.
End Normalisation.

(* ===================================================================== *)
(** ** Region-keyed aggregations see only the normal form of a region *)
(* ===================================================================== *)

Section RegionInvariance.
Context `{UnicodeTables} `{FloatOps}.
Variable h : nat * CaseRecord -> CaseRecord.
Hypothesis h_same : forall x, same_but_region (snd x) (h x).

Let rep (df : DataFrame) : DataFrame := map (fun x => (fst x, h x)) df.

Lemma smap_rep {B} (q : CaseRecord -> B) (df : DataFrame) :
  region_blind q -> smap q (rep df) = smap q df.
Proof using h_same.
  intros Hq. unfold smap, rep. rewrite map_map. apply map_ext. intros x. simpl.
  rewrite (Hq (snd x) (h x) (h_same x)). reflexivity.
Qed.

Lemma filter_rep (t : CaseRecord -> bool) (df : DataFrame) :
  region_blind t ->
  List.filter (fun x => t (snd x)) (rep df) = rep (List.filter (fun x => t (snd x)) df).
Proof using h_same.
  intros Ht. unfold rep. induction df as [|x df IH]; simpl; [reflexivity|].
  rewrite (Ht (snd x) (h x) (h_same x)). destruct (t (snd x)); simpl; rewrite IH; reflexivity.
Qed.

Lemma values_rep_map {B} (q : CaseRecord -> B) (df : DataFrame) :
  region_blind q -> map q (values (rep df)) = map q (values df).
Proof using h_same.
  intros Hq. rewrite <- !values_smap, smap_rep by assumption. reflexivity.
Qed.

Lemma region_blind_has_close_reason : region_blind has_close_reason_b.
Proof. intros r r' (_ & _ & _ & E & _). unfold has_close_reason_b. rewrite E. reflexivity. Qed.

Lemma region_blind_region_norm : region_blind region_norm.
Proof. intros r r' (_ & _ & _ & _ & _ & E). exact E. Qed.

Lemma region_blind_month_of : region_blind month_of.
Proof. intros r r' (E & _). unfold month_of. rewrite E. reflexivity. Qed.

Lemma region_blind_kcs_valid : region_blind kcs_valid_b.
Proof.
  intros r r' (_ & E1 & E2 & E3 & E4 & E5).
  unfold kcs_valid_b, valid_case_b, close_reason_listed_b, status_not_purged_b,
    owner_role_matches_b, record_type_external_b, region_not_admin_internal_b.
  unfold region_norm in E5. rewrite E1, E2, E3, E4, E5. reflexivity.
Qed.

Lemma region_blind_in_region (g : str) : region_blind (in_region_b g).
Proof. intros r r' Hs. unfold in_region_b. rewrite (region_blind_region_norm r r' Hs). reflexivity. Qed.

Lemma region_blind_andb (p q : CaseRecord -> bool) :
  region_blind p -> region_blind q -> region_blind (fun a => p a && q a).
Proof. intros Hp Hq r r' Hs. rewrite (Hp r r' Hs), (Hq r r' Hs). reflexivity. Qed.

Lemma region_blind_key (reg : option str) :
  region_blind (fun a => match reg, region_norm a with
                         | Some x, Some y => bool_decide (x = y)
                         | _, _ => false
                         end).
Proof. intros r r' Hs. rewrite (region_blind_region_norm r r' Hs). reflexivity. Qed.

Lemma close_reason_ratio_rep (df : DataFrame) (region_arg : option str) :
  close_reason_ratio (rep df) region_arg = close_reason_ratio df region_arg.
Proof using h_same.
  rewrite !close_reason_ratio_masks.
  destruct region_arg as [r|]; [destruct (bool_decide (upper r = lit "ALL"))|].
  - rewrite (values_rep_map region_norm) by apply region_blind_region_norm.
    f_equal. apply map_ext. intros reg.
    rewrite !smap_rep; [reflexivity| |];
      apply region_blind_andb;
      auto using region_blind_has_close_reason, region_blind_kcs_valid, region_blind_key.
  - rewrite !smap_rep; [reflexivity| |];
      apply region_blind_andb;
      auto using region_blind_has_close_reason, region_blind_kcs_valid, region_blind_in_region.
  - rewrite !smap_rep; [reflexivity| |];
      auto using region_blind_has_close_reason, region_blind_kcs_valid.
Qed.

Lemma omap_values_rep {K} (key : CaseRecord -> option K) (df : DataFrame) :
  region_blind key -> omap key (values (rep df)) = omap key (values df).
Proof using h_same.
  intros Hk. unfold values, rep.
  induction df as [|x df IH]; [reflexivity|].
  cbn [map omap list_omap snd]. rewrite (Hk (snd x) (h x) (h_same x)), IH.
  reflexivity.
Qed.

Lemma groupby_rep {K} `{EqDecision K} (leb : K -> K -> bool) (key : CaseRecord -> option K)
    (df : DataFrame) :
  region_blind key ->
  groupby leb key (rep df) = map (fun g => (fst g, rep (snd g))) (groupby leb key df).
Proof using h_same.
  intros Hk. unfold groupby. rewrite omap_values_rep by assumption. rewrite map_map.
  apply map_ext. intros k. simpl. f_equal.
  pose (t := fun r : CaseRecord => bool_decide (key r = Some k)).
  apply (filter_rep t).
  intros r r' Hs. unfold t. rewrite (Hk r r' Hs). reflexivity.
Qed.

Lemma last_n_months_filter_rep (today : Timestamp) (df : DataFrame) (n : Z) :
  last_n_months_filter today (rep df) n
  = match last_n_months_filter today df n with
    | Ok d => Ok (rep d)
    | Raise e => Raise e
    end.
Proof using h_same.
  unfold last_n_months_filter, col. rewrite !smap_smap, !getitem_mask_smap.
  f_equal.
  apply (filter_rep (fun r => match month_of r with
                              | Some m => (to_period_M today - (n - 1) <=? m)%Z
                              | None => false
                              end)).
  intros r r' Hs. rewrite (region_blind_month_of r r' Hs). reflexivity.
Qed.

Lemma by_region_rep (today : Timestamp) (df : DataFrame) (n : Z) :
  close_reason_ratio_last_n_months_by_region today (rep df) n
  = close_reason_ratio_last_n_months_by_region today df n.
Proof using h_same.
  unfold close_reason_ratio_last_n_months_by_region.
  rewrite last_n_months_filter_rep.
  destruct (last_n_months_filter today df n) as [d|e]; [|reflexivity].
  cbn [mbind mret result_bind result_ret bind]. f_equal.
  rewrite groupby_rep.
  - rewrite map_map. apply map_ext. intros g. cbn [fst snd].
    rewrite close_reason_ratio_rep. reflexivity.
  - intros r r' Hs.
    rewrite (region_blind_month_of r r' Hs), (region_blind_region_norm r r' Hs). reflexivity.
Qed.
End RegionInvariance.

Lemma lstrip_all_space_app (ws u : str) : all_space ws -> lstrip (ws ++ u) = lstrip u.
Proof.
  unfold all_space. induction ws as [|c ws IH]; simpl; [reflexivity|].
  intros Hs. apply andb_true_iff in Hs as [Hc Hs]. rewrite Hc. apply IH. exact Hs.
Qed.

Lemma all_space_rev (ws : str) : all_space ws -> all_space (rev ws).
Proof.
  unfold all_space. rewrite !forallb_forall. intros Hs c Hc. apply Hs, in_rev. exact Hc.
Qed.

Lemma strip_wrapped (a t b : str) :
  all_space a -> all_space b -> no_outer_space t -> strip (a ++ t ++ b) = t.
Proof.
  intros Ha Hb [Hl Hr]. unfold strip. rewrite (lstrip_all_space_app a _ Ha).
  apply lstrip_fixed_iff in Hl as [->|(c & t' & -> & Hc)].
  - simpl. rewrite <- (app_nil_r b), (lstrip_all_space_app b [] Hb). reflexivity.
  - change (lstrip ((c :: t') ++ b)) with (lstrip (c :: (t' ++ b))).
    cbn [lstrip]. rewrite Hc. unfold rstrip.
    change (c :: t' ++ b) with ((c :: t') ++ b). rewrite rev_app_distr.
    rewrite (lstrip_all_space_app (rev b) _ (all_space_rev b Hb)), Hr.
    apply rev_involutive.
Qed.

Lemma upper_same_letters `{UnicodeTables} (t1 t2 : str) :
  Forall2 (fun c d => upper_cp c = upper_cp d) t1 t2 -> upper t1 = upper t2.
Proof.
  induction 1 as [|c d t1 t2 E F IH]; [reflexivity|].
  unfold upper in *. simpl. rewrite E, IH. reflexivity.
Qed.

(** Region strings that differ only in case or outer white space have one
    normal form. *)
Lemma normal_form_case_space `{UnicodeTables} (s1 s2 : str) :
  differ_in_case_or_outer_space s1 s2 -> upper (strip s1) = upper (strip s2).
Proof.
  intros (a1 & t1 & b1 & a2 & t2 & b2 & -> & -> & Ha1 & Hb1 & Ha2 & Hb2 & Ht1 & Ht2 & F).
  rewrite !strip_wrapped by assumption. apply upper_same_letters. exact F.
Qed.

Lemma replaced_row_same `{UnicodeTables} (sel : nat * CaseRecord -> bool) (x : nat * CaseRecord) :
  upper_ext_idempotent -> upper_ext_keeps_nonspace ->
  same_but_region (snd x) (if sel x then normalize_region (snd x) else snd x).
Proof.
  intros Hi Hk. destruct (sel x); unfold same_but_region; [|tauto].
  repeat split. unfold normalize_region, region_norm, with_region. simpl.
  destruct (region (snd x)) as [s|]; simpl; [|reflexivity].
  rewrite (region_normal_form_idem Hi Hk). reflexivity.
Qed.

(** C2: the region-keyed aggregations read a region only through its
    trimmed, upper-cased form.  Two records whose regions differ only in
    letter case or surrounding white space get the same group key; and
    replacing the region of any rows by its trimmed, upper-cased form leaves
    the result of [close_reason_ratio] (for ["ALL"], for a specific region
    and for no region) and of the by-region month breakdown unchanged. *)
Theorem region_keyed_aggregations_normalised `{UnicodeTables} `{FloatOps}
    (sel : nat * CaseRecord -> bool) (df : DataFrame) (region_arg : option str)
    (today : Timestamp) (n : Z) :
  upper_ext_idempotent -> upper_ext_keeps_nonspace ->
  (forall r1 r2 s1 s2,
     region r1 = Some s1 -> region r2 = Some s2 -> differ_in_case_or_outer_space s1 s2 ->
     region_norm r1 = region_norm r2) /\
  close_reason_ratio (replace_regions sel df) region_arg = close_reason_ratio df region_arg /\
  close_reason_ratio_last_n_months_by_region today (replace_regions sel df) n
  = close_reason_ratio_last_n_months_by_region today df n.
Proof.
  intros Hi Hk. split; [|split].
  - intros r1 r2 s1 s2 E1 E2 D. unfold region_norm. rewrite E1, E2. simpl.
    rewrite (normal_form_case_space s1 s2 D). reflexivity.
  - apply (close_reason_ratio_rep (fun x => if sel x then normalize_region (snd x) else snd x)).
    intros x. apply replaced_row_same; assumption.
  - apply (by_region_rep (fun x => if sel x then normalize_region (snd x) else snd x)).
    intros x. apply replaced_row_same; assumption.
Qed.

(* ===================================================================== *)
(** ** [osp_kcs_engagement] *)
(* ===================================================================== *)

Section Osp.
Context `{UnicodeTables} `{FloatOps}.

Lemma osp_kcs_engagement_rows (today : Timestamp) (df : DataFrame) :
  let filtered := List.filter (fun x => osp_row_b today (snd x)) df in
  let denom := length (List.filter has_close_reason_b (values filtered)) in
  let num := length (List.filter folded_reason_listed_b (values filtered)) in
  osp_kcs_engagement today df =
  Ok (mkOsp filtered (length filtered)
            (if decide (denom = 0) then None else Some (round3 (fdiv num denom)))
            denom).
Proof.
  intros filtered denom num. unfold osp_kcs_engagement. cbv zeta.
  unfold notna, isin, ne_str, str_contains_ci, eq_str, str_strip, str_casefold, ge_ts, le_ts, col.
  rewrite !smap_smap, !series_and_smap, getitem_mask_smap.
  cbn [mbind mret result_bind result_ret bind].
  change (List.filter _ df) with filtered.
  rewrite !smap_smap, !series_and_smap, !series_sum_smap, if_eqb_zero_decide.
  change (length (List.filter (fun a => notna_value (close_reason a)) (values filtered)))
    with denom.
  destruct (decide (denom = 0)); reflexivity.
Qed.

(** Case folding yields no ASCII capital letter. *)
Lemma casefold_no_capital (s : str) :
  fold_ext_no_ascii_capital ->
  forallb (fun d => negb (is_ascii_upper d)) (casefold s) = true.
Proof.
  intros Hf. unfold casefold. induction s as [|c s IH]; [reflexivity|].
  simpl. rewrite forallb_app, IH, andb_true_r.
  unfold fold_cp. destruct (N.ltb_spec c 128) as [Hlt|Hge]; [|apply Hf; exact Hge].
  simpl. rewrite andb_true_r. unfold ascii_to_lower, is_ascii_upper.
  destruct ((65 <=? c)%N && (c <=? 90)%N) eqn:E.
  - apply andb_true_iff in E as [E1 E2]. apply N.leb_le in E1. apply N.leb_le in E2.
    apply negb_true_iff, andb_false_iff. right. apply N.leb_gt. lia.
  - rewrite E. reflexivity.
Qed.

(** Every entry of [CLOSE_REASONS] has a capital letter, so no case-folded
    string is in the list. *)
Lemma casefold_not_listed (s : str) :
  fold_ext_no_ascii_capital -> in_strs (casefold s) CLOSE_REASONS = false.
Proof.
  intros Hf. apply not_true_iff_false. intros Hin. apply in_strs_spec in Hin.
  pose proof (casefold_no_capital s Hf) as Hc.
  unfold CLOSE_REASONS in Hin. simpl in Hin.
  destruct Hin as [E|[E|[E|[E|[E|[]]]]]]; rewrite <- E in Hc; vm_compute in Hc; discriminate.
Qed.

Lemma folded_reason_never_listed (r : CaseRecord) :
  fold_ext_no_ascii_capital -> folded_reason_listed_b r = false.
Proof.
  intros Hf. unfold folded_reason_listed_b. destruct (close_reason r) as [s|]; [|reflexivity].
  cbn [option_map notna_value andb]. apply casefold_not_listed. exact Hf.
Qed.

Lemma no_close_reason_iff (l : DataFrame) :
  length (List.filter has_close_reason_b (values l)) = 0
  <-> Forall (fun x => close_reason (snd x) = None) l.
Proof.
  unfold values. induction l as [|[i r] l IH]; simpl.
  - split; [constructor|reflexivity].
  - unfold has_close_reason_b at 1. destruct (close_reason r) eqn:E; simpl.
    + split; [discriminate|]. intros F. inversion F as [|? ? Hx _]; subst.
      simpl in Hx. congruence.
    + rewrite IH. split.
      * intros F. constructor; [exact E|exact F].
      * intros F. inversion F; assumption.
Qed.

(** C6: the ratio that [osp_kcs_engagement] returns is undefined ([None])
    exactly when no filtered row has a non-null [close_reason], and is
    [0.0] otherwise: a case-folded close reason is never one of the
    mixed-case [CLOSE_REASONS], so the numerator is always zero. *)
Theorem osp_ratio_none_or_zero (today : Timestamp) (df : DataFrame) :
  fold_ext_no_ascii_capital -> float_zero_laws ->
  exists res,
    osp_kcs_engagement today df = Ok res /\
    length (List.filter folded_reason_listed_b (values (filtered_df res))) = 0 /\
    (Forall (fun x => close_reason (snd x) = None) (filtered_df res) ->
       osp_close_reason_ratio res = None) /\
    (~ Forall (fun x => close_reason (snd x) = None) (filtered_df res) ->
       osp_close_reason_ratio res = Some fzero).
Proof.
  intros Hf [Hdiv Hround]. eexists. split; [apply osp_kcs_engagement_rows|].
  cbn [filtered_df osp_close_reason_ratio].
  set (filtered := List.filter (fun x => osp_row_b today (snd x)) df).
  assert (Hnum : length (List.filter folded_reason_listed_b (values filtered)) = 0).
  { assert (E : List.filter folded_reason_listed_b (values filtered) = []).
    { induction (values filtered) as [|r l IH]; [reflexivity|]. simpl.
      rewrite (folded_reason_never_listed r Hf). exact IH. }
    rewrite E. reflexivity. }
  pose proof (no_close_reason_iff filtered) as Hden.
  split; [exact Hnum|]. split.
  - intros F. apply Hden in F. rewrite decide_True by exact F. reflexivity.
  - intros F. rewrite decide_False by (intros E; apply F, Hden, E).
    rewrite Hnum, Hdiv, Hround; [reflexivity|]. intros E. apply F, Hden, E.
Qed.

End Osp.

(** C5 (the code at the failing input): run on a March morning at 10:30,
    [osp_kcs_engagement] drops a case created on 1 February at midnight that
    passes every other filter, although 1 February is the first day of the
    preceding calendar month: the window starts at 10:30 on that day. *)
Theorem osp_drops_first_day_of_previous_month `{UnicodeTables} `{FloatOps} :
  let today := Instances.march_15 in
  let created := Instances.at_midnight 2024 2 1 in
  let r := Instances.osp_case created in
  in_previous_month today created /\
  record_type_external r /\ owner_role_matches OSP_ROLES r /\ status_not_purged r /\
  owner_company r = Some (lit "Solugenix") /\
  osp_window today = (Instances.at_time 2024 2 1 10 30, Instances.at_time 2024 2 29 10 30) /\
  osp_kcs_engagement today [(0, r)] = Ok (mkOsp [] 0 None 0).
Proof.
  intros today created r. split; [reflexivity|].
  split; [apply record_type_external_b_spec; reflexivity|].
  split; [apply owner_role_matches_b_spec; reflexivity|].
  split; [apply status_not_purged_b_spec; reflexivity|].
  split; [reflexivity|]. split; [reflexivity|].
  rewrite osp_kcs_engagement_rows. reflexivity.
Qed.

(** The same case created one minute after the window opens is kept. *)
Example osp_keeps_case_inside_window `{UnicodeTables} `{FloatOps} :
  let r := Instances.osp_case (Instances.at_time 2024 2 1 10 31) in
  filtered_df <$> osp_kcs_engagement Instances.march_15 [(0, r)] = Ok [(0, r)].
Proof. intros r. rewrite osp_kcs_engagement_rows. reflexivity. Qed.

(* ===================================================================== *)
(** ** The clock *)
(* ===================================================================== *)

(** C3 (counterexample): on one and the same table, [osp_kcs_engagement]
    gives different results at two readings of the clock. *)
Lemma osp_result_depends_on_clock :
  let df := [(0, Instances.osp_case (Instances.at_time 2024 2 10 12 0))] in
  @osp_kcs_engagement Instances.fragment_tables Instances.exact_float Instances.march_15 df
  <> @osp_kcs_engagement Instances.fragment_tables Instances.exact_float Instances.april_15 df.
Proof.
  intros df E.
  apply (f_equal (fun r => match r with Ok res => count res | Raise _ => 0 end)) in E.
  vm_compute in E. discriminate. Qed.

Lemma replace_day_same_fields (d : Z) (t1 t2 : Timestamp) :
  year t1 = year t2 -> month t1 = month t2 -> time_of_day t1 = time_of_day t2 ->
  replace_day d t1 = replace_day d t2.
Proof.
  destruct t1, t2. unfold time_of_day, replace_day. simpl.
  intros -> -> [= -> -> -> -> ->]. reflexivity.
Qed.

(** C3 (amended): the monthly metrics are functions of the table and of the
    clock reading.  Two invocations on the same table agree when the clock
    shows the same year and month (for [close_reason_ratio_last_n_months]
    and its by-region variant) and, for [osp_kcs_engagement], also the same
    time of day; the day of the month plays no part. *)
Theorem monthly_metrics_read_clock_fields `{UnicodeTables} `{FloatOps}
    (today1 today2 : Timestamp) (df : DataFrame) (n : Z) :
  year today1 = year today2 -> month today1 = month today2 ->
  close_reason_ratio_last_n_months today1 df n = close_reason_ratio_last_n_months today2 df n /\
  close_reason_ratio_last_n_months_by_region today1 df n
  = close_reason_ratio_last_n_months_by_region today2 df n /\
  (time_of_day today1 = time_of_day today2 ->
   osp_kcs_engagement today1 df = osp_kcs_engagement today2 df).
Proof.
  intros Hy Hm.
  assert (Hf : last_n_months_filter today1 df n = last_n_months_filter today2 df n).
  { unfold last_n_months_filter, to_period_M. rewrite Hy, Hm. reflexivity. }
  split; [|split].
  - unfold close_reason_ratio_last_n_months. rewrite Hf. reflexivity.
  - unfold close_reason_ratio_last_n_months_by_region. rewrite Hf. reflexivity.
  - intros Ht. unfold osp_kcs_engagement.
    rewrite (replace_day_same_fields 1 today1 today2 Hy Hm Ht). reflexivity.
Qed.

(* ===================================================================== *)
(** ** Week buckets of [open_cases_week_over_week_by_region] *)
(* ===================================================================== *)

(** C7: the week bucket assigned from [closed_date] is midnight of day 1,
    8, 15 or 22 of the month of [closed_date]: days 1 to 7 go to day 1,
    days 8 to 14 to day 8, days 15 to 21 to day 15, and day 22 onwards to
    day 22. *)
Theorem month_week_bucket_boundaries (r : CaseRecord) (dt : Timestamp) :
  closed_date r = Some dt ->
  exists w,
    week_start r = Some w /\
    year w = year dt /\ month w = month dt /\ time_of_day w = [0; 0; 0; 0; 0]%Z /\
    ((1 <= day dt <= 7)%Z -> day w = 1%Z) /\
    ((8 <= day dt <= 14)%Z -> day w = 8%Z) /\
    ((15 <= day dt <= 21)%Z -> day w = 15%Z) /\
    ((22 <= day dt)%Z -> day w = 22%Z).
Proof.
  intros E. unfold week_start. rewrite E. simpl. eexists. split; [reflexivity|].
  unfold get_month_week_start.
  destruct (Z.leb_spec (day dt) 7); [|destruct (Z.leb_spec (day dt) 14);
    [|destruct (Z.leb_spec (day dt) 21)]]; simpl; repeat split; intros; lia.
Qed.

(** The boundary days named by the specification. *)
Example month_week_bucket_days (y m : Z) :
  map (fun d => day (get_month_week_start (Instances.at_time y m d 17 45))) [7; 8; 21; 22]%Z
  = [1; 8; 15; 22]%Z.
Proof. reflexivity. Qed.

(* ===================================================================== *)
(** ** [count_published_articles] *)
(* ===================================================================== *)

Lemma lex_leb3_spec (y1 m1 d1 y2 m2 d2 : Z) :
  lex_leb [y1; m1; d1] [y2; m2; d2] = true <->
  (y1 < y2 \/ (y1 = y2 /\ (m1 < m2 \/ (m1 = m2 /\ d1 <= d2))))%Z.
Proof.
  simpl. rewrite andb_true_r.
  destruct (Z.ltb_spec y1 y2), (Z.eqb_spec y1 y2), (Z.ltb_spec m1 m2), (Z.eqb_spec m1 m2),
    (Z.ltb_spec d1 d2), (Z.eqb_spec d1 d2); simpl; split; intros; try discriminate;
    try reflexivity; lia.
Qed.

Lemma date_leb_spec (a b : date) : date_leb a b = true <-> date_le a b.
Proof. destruct a as [[y1 m1] d1], b as [[y2 m2] d2]. apply lex_leb3_spec. Qed.

Lemma counted_as_published_b_spec start end_ r :
  counted_as_published_b start end_ r = true <-> counted_as_published start end_ r.
Proof.
  unfold counted_as_published_b, counted_as_published.
  rewrite !andb_true_iff, negb_true_iff, bool_decide_eq_false, !bool_decide_eq_true.
  assert (Ht : match article_type r with Some x => in_strs x ARTICLE_TYPES | None => false end
               = true <-> exists s, article_type r = Some s /\ In s ARTICLE_TYPES).
  { destruct (article_type r) as [s|].
    - rewrite in_strs_spec. split; [eauto|]. intros (s' & [= <-] & Hin). exact Hin.
    - split; [discriminate|]. intros (s' & [=] & _). }
  assert (Hd : (match option_map date_of (to_datetime_coerce (published_at r)) with
                | Some x => date_leb (date_of start) x
                | None => false
                end = true /\
                match option_map date_of (to_datetime_coerce (published_at r)) with
                | Some x => date_leb x (date_of end_)
                | None => false
                end = true)
               <-> exists t, published_at r = DTime t /\
                     date_le (date_of start) (date_of t) /\ date_le (date_of t) (date_of end_)).
  { destruct (published_at r) as [| |t]; cbn [option_map to_datetime_coerce].
    - split; [intros [[=] _]|intros (t & [=] & _)].
    - split; [intros [[=] _]|intros (t & [=] & _)].
    - rewrite !date_leb_spec. split; [eauto|]. intros (t' & [= <-] & Hr). exact Hr. }
  rewrite Ht, Hd. tauto.
Qed.

#[global] Instance counted_as_published_dec start end_ r :
  Decision (counted_as_published start end_ r).
Proof.
  destruct (counted_as_published_b start end_ r) eqn:E; [left|right].
  - apply counted_as_published_b_spec. exact E.
  - intros Hv. apply counted_as_published_b_spec in Hv. congruence.
Defined.

Lemma count_published_articles_rows (df : ArticleFrame) (start end_ : Timestamp) :
  count_published_articles df start end_ =
  Ok (length (unique (omap article_id
        (values (List.filter (fun x => counted_as_published_b start end_ (snd x)) df))))).
Proof.
  unfold count_published_articles, nunique, isin, ne_str, eq_bool, eq_str, ge_date, le_date, col.
  cbv zeta.
  repeat (rewrite ?smap_smap, ?series_and_smap, getitem_mask_smap;
          cbn [mbind mret result_bind result_ret bind]).
  rewrite !filter_filter_andb, values_smap.
  assert (EF : forall l : list ArticleRecord,
            omap (fun v : option str => v) (map article_id l) = omap article_id l).
  { induction l as [|a l IH]; [reflexivity|].
    cbn [map omap list_omap]. destruct (article_id a); rewrite <- IH; reflexivity. }
  rewrite EF. do 5 f_equal. apply List.filter_ext. intros x.
  unfold counted_as_published_b. rewrite !andb_assoc. reflexivity.
Qed.

(** [unique] keeps one copy of every value. *)
Lemma unique_elem_of {A} `{EqDecision A} (l : list A) (x : A) : x ∈ unique l <-> x ∈ l.
Proof.
  induction l as [|a l IH]; simpl; [reflexivity|].
  rewrite !elem_of_cons, <- IH, !list_elem_of_In, filter_In, negb_true_iff, bool_decide_eq_false.
  destruct (decide (x = a)); tauto.
Qed.

Lemma unique_NoDup {A} `{EqDecision A} (l : list A) : NoDup (unique l).
Proof.
  induction l as [|a l IH]; simpl; [constructor|].
  apply NoDup_cons. split.
  - rewrite list_elem_of_In, filter_In, negb_true_iff, bool_decide_eq_false. tauto.
  - apply NoDup_ListNoDup, List.NoDup_filter, NoDup_ListNoDup. exact IH.
Qed.

Lemma length_unique_size `{Countable A} (l : list A) :
  length (unique l) = size (list_to_set l : gset A).
Proof.
  rewrite <- (size_list_to_set (C := gset A) (unique l)) by apply unique_NoDup.
  f_equal. apply set_eq. intros x. rewrite !elem_of_list_to_set. apply unique_elem_of.
Qed.

(** C8: [count_published_articles] returns the number of distinct
    [article_id] values (not of rows) among the rows whose [article_type]
    is one of the three types, whose [creator_name] is not "BI Integration",
    whose [version_is_latest] is true, whose [publish_status] is "Online" and
    whose [published_at] has its calendar date between the dates of [start]
    and [end], both included; two such rows with one [article_id] count
    once. *)
Theorem count_published_articles_distinct (df : ArticleFrame) (start end_ : Timestamp) :
  count_published_articles df start end_ =
  Ok (size (list_to_set
              (omap article_id
                 (values (filter (fun x => counted_as_published start end_ (snd x)) df)))
            : gset str)) /\
  (forall i j r1 r2 a,
     counted_as_published start end_ r1 -> counted_as_published start end_ r2 ->
     article_id r1 = Some a -> article_id r2 = Some a ->
     count_published_articles [(i, r1); (j, r2)] start end_ = Ok 1).
Proof.
  assert (G : forall d, count_published_articles d start end_ =
    Ok (size (list_to_set
                (omap article_id
                   (values (filter (fun x => counted_as_published start end_ (snd x)) d)))
              : gset str))).
  { intros d. rewrite count_published_articles_rows, length_unique_size.
    rewrite (filter_reflect (fun x => counted_as_published_b start end_ (snd x))
               (fun x => counted_as_published start end_ (snd x)))
      by (intros x; apply counted_as_published_b_spec).
    reflexivity. }
  split; [apply G|].
  intros i j r1 r2 a H1 H2 E1 E2. rewrite G.
  unfold ArticleFrame, Series. rewrite !filter_cons, filter_nil. cbn [snd].
  rewrite !decide_True by assumption.
  cbn [values map snd omap list_omap]. rewrite E1, E2. cbn [list_to_set foldr].
  f_equal. rewrite union_empty_r_L, union_idemp_L. apply size_singleton.
Qed.

(* ===================================================================== *)
(** ** [median_days_to_publish] *)
(* ===================================================================== *)

Lemma insert_sorted_perm (k : Z) (l : list Z) : Permutation (insert_sorted Z.leb k l) (k :: l).
Proof.
  induction l as [|x l IH]; simpl; [reflexivity|].
  destruct (Z.leb k x); [reflexivity|].
  rewrite IH. apply perm_swap.
Qed.

Lemma sort_keys_perm (l : list Z) : Permutation (sort_keys Z.leb l) l.
Proof.
  induction l as [|x l IH]; simpl; [reflexivity|].
  rewrite insert_sorted_perm. constructor. exact IH.
Qed.

Lemma insert_sorted_sorted (k : Z) (l : list Z) :
  StronglySorted Z.le l -> StronglySorted Z.le (insert_sorted Z.leb k l).
Proof.
  induction l as [|x l IH]; simpl; intros S.
  - constructor; constructor.
  - inversion S as [|? ? S' F]; subst. destruct (Z.leb_spec k x) as [Hle|Hgt].
    + constructor; [exact S|]. constructor; [exact Hle|].
      eapply List.Forall_impl; [|exact F]. simpl. intros y Hy. lia.
    + constructor; [apply IH; exact S'|].
      rewrite (insert_sorted_perm k l). constructor; [lia|exact F].
Qed.

Lemma sort_keys_sorted (l : list Z) : StronglySorted Z.le (sort_keys Z.leb l).
Proof.
  induction l as [|x l IH]; simpl; [constructor|]. apply insert_sorted_sorted. exact IH.
Qed.

Lemma sorted_around (a b : list Z) (x : Z) :
  StronglySorted Z.le (a ++ x :: b) ->
  Forall (fun y => (y <= x)%Z) a /\ Forall (fun y => (x <= y)%Z) b.
Proof.
  induction a as [|c a IH]; simpl; intros S; inversion S as [|? ? S' F]; subst.
  - split; [constructor|exact F].
  - destruct (IH S') as [Ha Hb]. split; [|exact Hb]. constructor; [|exact Ha].
    rewrite Forall_app in F. destruct F as [_ F]. inversion F; assumption.
Qed.

Lemma length_filter_perm {A} (p : A -> bool) (l l' : list A) :
  Permutation l l' -> length (List.filter p l) = length (List.filter p l').
Proof.
  induction 1 as [|x l l' _ IH|x y l|l l' l'' _ IH1 _ IH2]; simpl.
  - reflexivity.
  - destruct (p x); simpl; rewrite IH; reflexivity.
  - destruct (p x), (p y); reflexivity.
  - rewrite IH1. exact IH2.
Qed.

Lemma length_filter_all {A} (p : A -> bool) (l : list A) :
  Forall (fun x => p x = true) l -> length (List.filter p l) = length l.
Proof.
  induction 1 as [|x l Hx _ IH]; simpl; [reflexivity|]. rewrite Hx. simpl. rewrite IH. reflexivity.
Qed.

Lemma Qle_bool_inject (x y : Z) : Qle_bool (inject_Z x) (inject_Z y) = (x <=? y)%Z.
Proof. unfold Qle_bool, inject_Z. simpl. rewrite !Z.mul_1_r. reflexivity. Qed.

Lemma Qle_bool_mean_r (x a b : Z) : (2 * x <= a + b)%Z -> Qle_bool (inject_Z x) (Qmake (a + b) 2) = true.
Proof. intros Hx. unfold Qle_bool, inject_Z. simpl. apply Z.leb_le. lia. Qed.

Lemma Qle_bool_mean_l (x a b : Z) : (a + b <= 2 * x)%Z -> Qle_bool (Qmake (a + b) 2) (inject_Z x) = true.
Proof. intros Hx. unfold Qle_bool, inject_Z. simpl. apply Z.leb_le. lia. Qed.

(** The middle of the sorted values is a median. *)
Lemma median_is_median (l : list Z) : l <> [] -> is_median (median l) l.
Proof.
  intros Hne. unfold is_median, median.
  pose proof (sort_keys_perm l) as HP. pose proof (sort_keys_sorted l) as HS.
  set (s := sort_keys Z.leb l) in *.
  assert (Hlen : length s = length l) by (apply Permutation_length; exact HP).
  assert (Hpos : 0 < length l) by (destruct l; [contradiction|simpl; lia]).
  rewrite <- !(length_filter_perm _ s l HP), <- Hlen.
  destruct (Nat.even (length s)) eqn:Ev.
  - apply Nat.even_spec in Ev as [k Hk].
    assert (Hk1 : (length s / 2 = k)%nat) by (rewrite Hk, Nat.mul_comm; apply Nat.div_mul; lia).
    rewrite Hk1.
    destruct (nth_split s 0%Z (n := k - 1)) as (a & c & Es & Ha); [lia|].
    destruct c as [|y b].
    { exfalso. rewrite Es, length_app in Hk. simpl in Hk. lia. }
    assert (Hy : nth k s 0%Z = y).
    { rewrite Es. replace k with (length a + 1)%nat by lia.
      rewrite app_nth2_plus. reflexivity. }
    rewrite Hy. set (x := nth (k - 1) s 0%Z) in *.
    assert (S1 := HS). rewrite Es in S1. apply sorted_around in S1 as [Fa Fb].
    inversion_clear Fb as [|? ? Hxy Fb'].
    assert (Fax : Forall (fun z => (z <= x)%Z) (a ++ [x])).
    { apply Forall_app. split; [exact Fa|]. constructor; [lia|constructor]. }
    assert (S2 := HS). rewrite Es in S2.
    change (a ++ x :: y :: b) with (a ++ [x] ++ y :: b) in S2. rewrite app_assoc in S2.
    apply sorted_around in S2 as [_ Fby].
    assert (Hb : (length b = k - 1)%nat).
    { pose proof (f_equal (@length Z) Es) as El. rewrite length_app in El. simpl in El. lia. }
    split.
    + rewrite Es. change (a ++ x :: y :: b) with (a ++ [x] ++ y :: b).
      rewrite app_assoc, List.filter_app, !length_app.
      rewrite (length_filter_all _ (a ++ [x])).
      * rewrite length_app. simpl. lia.
      * eapply List.Forall_impl; [|exact Fax]. simpl. intros z Hz. apply Qle_bool_mean_r. lia.
    + rewrite Es. change (a ++ x :: y :: b) with (a ++ [x] ++ y :: b).
      rewrite app_assoc, List.filter_app, !length_app.
      rewrite (length_filter_all _ (y :: b)).
      * simpl. lia.
      * constructor; [apply Qle_bool_mean_l; lia|].
        eapply List.Forall_impl; [|exact Fby]. simpl. intros z Hz. apply Qle_bool_mean_l. lia.
  - assert (Ho : Nat.odd (length s) = true).
    { rewrite <- Nat.negb_even, Ev. reflexivity. }
    apply Nat.odd_spec in Ho as [k Hk].
    assert (Hk1 : (length s / 2 = k)%nat).
    { rewrite Hk. replace (2 * k + 1)%nat with (1 + k * 2)%nat by lia.
      rewrite Nat.div_add by lia. reflexivity. }
    rewrite Hk1.
    destruct (nth_split s 0%Z (n := k)) as (a & b & Es & Ha); [lia|].
    set (x := nth k s 0%Z) in *.
    assert (S1 := HS). rewrite Es in S1. apply sorted_around in S1 as [Fa Fb].
    assert (Hb : (length b = k)%nat).
    { pose proof (f_equal (@length Z) Es) as El. rewrite length_app in El. simpl in El. lia. }
    split.
    + rewrite Es. change (a ++ x :: b) with (a ++ [x] ++ b).
      rewrite app_assoc, List.filter_app, !length_app.
      rewrite (length_filter_all _ (a ++ [x])).
      * rewrite length_app. simpl. lia.
      * apply Forall_app. split.
        -- eapply List.Forall_impl; [|exact Fa]. simpl. intros z Hz.
           rewrite Qle_bool_inject. apply Z.leb_le. exact Hz.
        -- constructor; [|constructor]. rewrite Qle_bool_inject. apply Z.leb_le. lia.
    + rewrite Es, List.filter_app, !length_app.
      rewrite (length_filter_all _ (x :: b)).
      * simpl. lia.
      * constructor; [rewrite Qle_bool_inject; apply Z.leb_le; lia|].
        eapply List.Forall_impl; [|exact Fb]. simpl. intros z Hz.
        rewrite Qle_bool_inject. apply Z.leb_le. exact Hz.
Qed.

Lemma enters_median_b_spec r : enters_median_b r = true <-> enters_median r.
Proof.
  unfold enters_median_b, enters_median.
  rewrite !andb_true_iff, !negb_true_iff, !bool_decide_eq_false, !bool_decide_eq_true.
  assert (Ht : match article_type r with
               | Some x => in_strs x [lit "FAQ"; lit "Technical Issue"; lit "How To"]
               | None => false
               end = true <-> exists s, article_type r = Some s /\ In s ARTICLE_TYPES).
  { destruct (article_type r) as [s|].
    - rewrite in_strs_spec. unfold ARTICLE_TYPES. split.
      + intros Hin. exists s. split; [reflexivity|]. simpl in *. tauto.
      + intros (s' & [= <-] & Hin). simpl in *. tauto.
    - split; [discriminate|]. intros (s' & [=] & _). }
  rewrite Ht. tauto.
Qed.

#[global] Instance enters_median_dec r : Decision (enters_median r).
Proof.
  destruct (enters_median_b r) eqn:E; [left|right].
  - apply enters_median_b_spec. exact E.
  - intros Hv. apply enters_median_b_spec in Hv. congruence.
Defined.

Lemma median_days_to_publish_rows (df : ArticleFrame) :
  median_days_to_publish df =
  Ok (match omap days_to_publish
              (values (List.filter (fun x => enters_median_b (snd x)) df)) with
      | [] => None
      | d :: l => Some (median (d :: l))
      end).
Proof.
  unfold median_days_to_publish, isin, ne_str, eq_bool, eq_str, col. cbv zeta.
  rewrite !smap_smap, !series_and_smap, getitem_mask_smap.
  cbn [mbind mret result_bind result_ret bind]. rewrite values_smap.
  assert (EF : forall l : list ArticleRecord,
            omap (fun v : option Z => v) (map days_to_publish l) = omap days_to_publish l).
  { induction l as [|a l IH]; [reflexivity|].
    cbn [map omap list_omap]. destruct (days_to_publish a); rewrite <- IH; reflexivity. }
  rewrite EF.
  set (f := fun x : nat * ArticleRecord => enters_median_b (snd x)).
  change (List.filter _ df) with (List.filter f df).
  destruct (omap days_to_publish (values (List.filter f df))); reflexivity.
Qed.

(** C9: [median_days_to_publish] returns the median of the non-null
    [days_to_publish] values of the rows that pass every filter (publish
    status "Online", visible to customers, latest version, one of the three
    article types, [published_at] neither null nor empty, publisher name not
    empty, not internal), and returns [None] when there is no such value:
    in particular when no row passes, and on every table whose rows all have
    [internal] true. *)
Theorem median_days_to_publish_spec (df : ArticleFrame) :
  let rows := filter (fun x => enters_median (snd x)) df in
  let days := omap days_to_publish (values rows) in
  (days = [] -> median_days_to_publish df = Ok None) /\
  (days <> [] ->
     median_days_to_publish df = Ok (Some (median days)) /\ is_median (median days) days) /\
  (rows = [] -> median_days_to_publish df = Ok None) /\
  (Forall (fun x => internal (snd x) = Some true) df -> median_days_to_publish df = Ok None).
Proof.
  intros rows days.
  assert (E : median_days_to_publish df =
              Ok (match days with [] => None | d :: l => Some (median (d :: l)) end)).
  { rewrite median_days_to_publish_rows. unfold days, rows.
    rewrite (filter_reflect (fun x => enters_median_b (snd x))
               (fun x => enters_median (snd x)))
      by (intros x; apply enters_median_b_spec).
    reflexivity. }
  assert (Hrows : rows = [] -> days = []).
  { unfold days. intros ->. reflexivity. }
  split; [|split; [|split]].
  - intros Hd. rewrite E, Hd. reflexivity.
  - intros Hd. split.
    + rewrite E. destruct days; [contradiction|reflexivity].
    + apply median_is_median. exact Hd.
  - intros Hr. rewrite E, (Hrows Hr). reflexivity.
  - intros Hall. rewrite E, Hrows; [reflexivity|].
    unfold rows. clear E Hrows days rows. unfold ArticleFrame, Series in *.
    induction Hall as [|x l Hx _ IH]; [reflexivity|].
    rewrite filter_cons, decide_False; [exact IH|].
    intros (_ & _ & _ & _ & _ & _ & _ & Hi). congruence.
Qed.

(* ===================================================================== *)
(** ** The normalizer *)
(* ===================================================================== *)

Lemma getitem_cols_present (keys : list str) (df : RawFrame) :
  (forall k, In k keys -> is_Some (df !! k)) ->
  exists out, getitem_cols keys df = Ok out /\
    Forall2 (fun k oc => fst oc = k /\ df !! k = Some (snd oc)) keys out.
Proof.
  intros Hp. unfold getitem_cols.
  assert (Hf : List.filter (fun k => bool_decide (df !! k = None)) keys = []).
  { induction keys as [|k keys IH]; [reflexivity|]. simpl.
    destruct (Hp k (or_introl eq_refl)) as [c Hc].
    rewrite bool_decide_eq_false_2 by congruence.
    apply IH. intros k' Hk'. apply Hp. right. exact Hk'. }
  rewrite Hf. eexists. split; [reflexivity|].
  clear Hf. induction keys as [|k keys IH]; [constructor|].
  destruct (Hp k (or_introl eq_refl)) as [c Hc].
  cbn [omap list_omap]. rewrite Hc. cbn [option_map]. constructor.
  - split; [reflexivity|exact Hc].
  - apply IH. intros k' Hk'. apply Hp. right. exact Hk'.
Qed.



Lemma rename_projected_part (w wanted : list (str * str)) (df : RawFrame) (out : CleanFrame) :
  Forall (fun kv => dict_get wanted (fst kv) = Some (snd kv)) w ->
  Forall2 (fun k oc => fst oc = k /\ df !! k = Some (snd oc)) (map fst w) out ->
  projected w (fun _ c => c) df (rename wanted out).
Proof.
  unfold projected, rename. intros Hs. revert out.
  induction Hs as [|kv l Hkv _ IH]; intros out F.
  - inversion F; subst. constructor.
  - inversion F as [|? oc ? out' [E1 E2] F']; subst. cbn [map]. constructor.
    + cbn [fst snd]. rewrite E1, Hkv. split; [reflexivity|]. eauto.
    + apply IH. exact F'.
Qed.

Lemma rename_projected (wanted : list (str * str)) (df : RawFrame) (out : CleanFrame) :
  dict_sound wanted ->
  Forall2 (fun k oc => fst oc = k /\ df !! k = Some (snd oc)) (map fst wanted) out ->
  projected wanted (fun _ c => c) df (rename wanted out).
Proof. apply rename_projected_part. Qed.




Section NormalizerProperties.
Variable int_of_str : str -> option Z.
Variable astype_other : column -> result column.





End NormalizerProperties.

Lemma projected_names (w : list (str * str)) (coerce : str -> column -> column)
    (df : RawFrame) (out : CleanFrame) :
  projected w coerce df out -> map fst out = map snd w.
Proof.
  unfold projected. induction 1 as [|kv oc w out [E _] _ IH]; [reflexivity|].
  simpl. rewrite E, IH. reflexivity.
Qed.

Lemma forallb_dict_sound (w : list (str * str)) :
  forallb (fun kv => bool_decide (dict_get w (fst kv) = Some (snd kv))) w = true ->
  dict_sound w.
Proof.
  intros Hb. apply List.Forall_forall. intros kv Hin.
  rewrite forallb_forall in Hb. specialize (Hb kv Hin).
  apply bool_decide_eq_true in Hb. exact Hb.
Qed.


Lemma wanted_articles_sound : dict_sound wanted_articles.
Proof. apply forallb_dict_sound. vm_compute. reflexivity. Qed.

(** The display of [clean_articles] names [PUBLISHED_BY_NAME] twice; the
    dict keeps the first position and the last value, so the canonical
    fields are seventeen and [publisher] is not among them. *)
Example wanted_articles_fields :
  map snd wanted_articles =
  [lit "published_by_name"; lit "region"; lit "views_by_customers"; lit "article_id";
   lit "published_at"; lit "days_to_publish"; lit "article_type"; lit "publish_status";
   lit "internal"; lit "title"; lit "community_article_url"; lit "article_attach_count";
   lit "creator_region"; lit "created_at"; lit "creator_name"; lit "visible_to_customers";
   lit "version_is_latest"].
Proof. vm_compute. reflexivity. Qed.


Lemma wanted_articles_views :
  In (lit "views_by_customers") (map snd wanted_articles) /\
  forall kv, In kv wanted_articles -> snd kv = lit "views_by_customers" ->
             fst kv = lit "PUBLIC_KB_VIEWCOUNT".
Proof.
  split.
  - rewrite wanted_articles_fields. simpl. tauto.
  - assert (Hb : forallb (fun kv => implb (bool_decide (snd kv = lit "views_by_customers"))
                                         (bool_decide (fst kv = lit "PUBLIC_KB_VIEWCOUNT")))
                         wanted_articles = true) by (vm_compute; reflexivity).
    intros kv Hin Ev. rewrite forallb_forall in Hb. specialize (Hb kv Hin).
    rewrite (bool_decide_eq_true_2 _ Ev) in Hb. simpl in Hb.
    apply bool_decide_eq_true in Hb. exact Hb.
Qed.


(* ===================================================================== *)
(** ** The concrete runtimes satisfy the assumptions *)
(* ===================================================================== *)

Lemma fragment_upper_idempotent : @upper_ext_idempotent Instances.fragment_tables.
Proof.
  intros c Hc. unfold upper_ext. cbn [Instances.fragment_tables].
  unfold Instances.fragment_upper.
  destruct (N.eqb_spec c 223) as [->|H1]; [reflexivity|].
  destruct (N.eqb_spec c 233) as [->|H2]; [reflexivity|].
  destruct (N.eqb_spec c 305) as [->|H3]; [reflexivity|].
  unfold upper. simpl. unfold upper_cp, upper_ext. cbn [Instances.fragment_tables].
  unfold Instances.fragment_upper.
  assert (Hge : (c <? 128)%N = false) by (apply N.ltb_ge; exact Hc).
  rewrite Hge.
  rewrite (proj2 (N.eqb_neq c 223) H1), (proj2 (N.eqb_neq c 233) H2),
    (proj2 (N.eqb_neq c 305) H3).
  reflexivity.
Qed.

Lemma fragment_upper_keeps_nonspace : @upper_ext_keeps_nonspace Instances.fragment_tables.
Proof.
  intros c Hc Hs. unfold upper_ext. cbn [Instances.fragment_tables].
  unfold Instances.fragment_upper.
  destruct (c =? 223)%N; [split; [discriminate|reflexivity]|].
  destruct (c =? 233)%N; [split; [discriminate|reflexivity]|].
  destruct (c =? 305)%N; [split; [discriminate|reflexivity]|].
  split; [discriminate|]. simpl. rewrite Hs. reflexivity.
Qed.

Lemma fragment_fold_no_capital : @fold_ext_no_ascii_capital Instances.fragment_tables.
Proof.
  intros c Hc. unfold fold_ext. cbn [Instances.fragment_tables].
  unfold Instances.fragment_fold.
  destruct (c =? 223)%N; [reflexivity|].
  destruct (c =? 201)%N; [reflexivity|].
  destruct (c =? 304)%N; [reflexivity|].
  destruct (c =? 8490)%N; [reflexivity|].
  simpl. rewrite andb_true_r. unfold is_ascii_upper.
  apply negb_true_iff, andb_false_iff. right. apply N.leb_gt. lia.
Qed.

Lemma exact_float_zero_laws : @float_zero_laws Instances.exact_float.
Proof.
  split; [|vm_compute; reflexivity]. intros [|d] Hd; [contradiction|reflexivity].
Qed.

(* ===================================================================== *)
(** ** The theorems at concrete inputs *)
(* ===================================================================== *)

(** C2 at a table that writes one region in three ways. *)
Lemma region_keyed_aggregations_normalised_witness :
  let df := Instances.regional in
  let df' := @replace_regions Instances.fragment_tables (fun _ => true) df in
  @close_reason_ratio Instances.fragment_tables Instances.exact_float df' (Some (lit "all"))
  = @close_reason_ratio Instances.fragment_tables Instances.exact_float df (Some (lit "all")).
Proof.
  exact (proj1 (proj2 (@region_keyed_aggregations_normalised
                         Instances.fragment_tables Instances.exact_float
                         (fun _ => true) Instances.regional (Some (lit "all"))
                         Instances.march_15 6
                         fragment_upper_idempotent fragment_upper_keeps_nonspace))).
Defined.

(** C3 at two readings of the clock in one month, at the same time of day. *)
Lemma monthly_metrics_read_clock_fields_witness :
  @osp_kcs_engagement Instances.fragment_tables Instances.exact_float
     Instances.march_15 Instances.regional
  = @osp_kcs_engagement Instances.fragment_tables Instances.exact_float
     Instances.march_20 Instances.regional.
Proof.
  exact (proj2 (proj2 (@monthly_metrics_read_clock_fields
                         Instances.fragment_tables Instances.exact_float
                         Instances.march_15 Instances.march_20 Instances.regional 6
                         eq_refl eq_refl)) eq_refl).
Defined.

Lemma regional_index_nodup : List.NoDup (index Instances.regional).
Proof. repeat constructor; simpl; intuition discriminate. Qed.

(** C4 at a request for region ["emea"]. *)
Lemma get_valid_cases_and_ratio_witness :
  let scoped := @in_requested_region Instances.fragment_tables (Some (lit "emea")) in
  @get_valid_cases_and_ratio Instances.fragment_tables Instances.exact_float
     Instances.regional (Some (lit "emea")) =
  Ok (filter (fun x => scoped (snd x) /\ valid_case (snd x)) Instances.regional,
      @Ratio Instances.exact_float
        (count_of (fun r => scoped r /\ valid_case r) (values Instances.regional))
        (count_of (fun r => scoped r /\ has_close_reason r) (values Instances.regional))).
Proof.
  exact (@get_valid_cases_and_ratio_spec Instances.fragment_tables Instances.exact_float
           Instances.regional (Some (lit "emea")) regional_index_nodup).
Defined.

(** C6 at the regional table, read in March for February. *)
Lemma osp_ratio_none_or_zero_witness :
  exists res,
    @osp_kcs_engagement Instances.fragment_tables Instances.exact_float
       Instances.march_15 Instances.regional = Ok res /\
    length (List.filter (@folded_reason_listed_b Instances.fragment_tables)
                        (values (filtered_df res))) = 0 /\
    (Forall (fun x => close_reason (snd x) = None) (filtered_df res) ->
       osp_close_reason_ratio res = None) /\
    (~ Forall (fun x => close_reason (snd x) = None) (filtered_df res) ->
       osp_close_reason_ratio res = Some (@fzero Instances.exact_float)).
Proof.
  exact (@osp_ratio_none_or_zero Instances.fragment_tables Instances.exact_float
           Instances.march_15 Instances.regional
           fragment_fold_no_capital exact_float_zero_laws).
Defined.

(** C7 at a case closed late on day 21. *)
Lemma month_week_bucket_boundaries_witness :
  exists w,
    week_start (Instances.closed_on 21) = Some w /\
    year w = 2024%Z /\ month w = 2%Z /\ time_of_day w = [0; 0; 0; 0; 0]%Z /\
    ((1 <= 21 <= 7)%Z -> day w = 1%Z) /\
    ((8 <= 21 <= 14)%Z -> day w = 8%Z) /\
    ((15 <= 21 <= 21)%Z -> day w = 15%Z) /\
    ((22 <= 21)%Z -> day w = 22%Z).
Proof.
  exact (month_week_bucket_boundaries (Instances.closed_on 21)
           (mkTimestamp 2024 2 21 23 59 59 999999 999) eq_refl).
Defined.

(** What the code returns at those inputs. *)
Example get_valid_cases_and_ratio_emea :
  @get_valid_cases_and_ratio Instances.fragment_tables Instances.exact_float
     Instances.regional (Some (lit "emea"))
  = Ok (firstn 1 Instances.regional, Some (Instances.thousandths 500)).
Proof. reflexivity. Qed.

Example close_reason_ratio_all_regions :
  @close_reason_ratio Instances.fragment_tables Instances.exact_float
     Instances.regional (Some (lit "all"))
  = @PerRegion Instances.exact_float
      [(Some (lit "EMEA"), Some (Instances.thousandths 500));
       (Some (lit "APAC"), Some (Instances.thousandths 1000));
       (Some (lit "ADMIN"), Some (Instances.thousandths 0))].
Proof. reflexivity. Qed.

Example osp_on_regional :
  @osp_kcs_engagement Instances.fragment_tables Instances.exact_float
     Instances.march_15 Instances.regional
  = Ok (@mkOsp Instances.exact_float Instances.regional 5 (Some (Instances.thousandths 0)) 4).
Proof. reflexivity. Qed.

(* ===================================================================== *)
(** ** Groups of [groupby] *)
(* ===================================================================== *)

Lemma insert_sorted_perm_any {K} (leb : K -> K -> bool) (k : K) (l : list K) :
  Permutation (insert_sorted leb k l) (k :: l).
Proof.
  induction l as [|x l IH]; simpl; [reflexivity|].
  destruct (leb k x); [reflexivity|].
  rewrite IH. apply perm_swap.
Qed.

Lemma sort_keys_perm_any {K} (leb : K -> K -> bool) (l : list K) :
  Permutation (sort_keys leb l) l.
Proof.
  induction l as [|x l IH]; simpl; [reflexivity|].
  rewrite insert_sorted_perm_any. constructor. exact IH.
Qed.

Lemma sort_keys_In {K} (leb : K -> K -> bool) (k : K) (l : list K) :
  In k (sort_keys leb l) <-> In k l.
Proof.
  split; apply Permutation_in; [|symmetry]; apply sort_keys_perm_any.
Qed.

Lemma unique_In {A} `{EqDecision A} (x : A) (l : list A) : In x (unique l) <-> In x l.
Proof. rewrite <- !list_elem_of_In. apply unique_elem_of. Qed.

Section Groups.
Context {R K : Type} `{EqDecision K}.
Variable leb : K -> K -> bool.
Variable key : R -> option K.

Lemma groupby_keys (df : Series R) :
  map fst (groupby leb key df) = sort_keys leb (unique (omap key (values df))).
Proof. unfold groupby. rewrite map_map. simpl. apply map_id. Qed.

Lemma groupby_keys_nodup (df : Series R) : NoDup (map fst (groupby leb key df)).
Proof.
  rewrite groupby_keys. rewrite (sort_keys_perm_any leb). apply unique_NoDup.
Qed.

Lemma omap_key_In (k : K) (df : Series R) :
  In k (omap key (values df)) <-> exists x, In x df /\ key (snd x) = Some k.
Proof.
  unfold values. induction df as [|x df IH]; simpl.
  - split; [contradiction|]. intros (x & [] & _).
  - destruct (key (snd x)) as [k'|] eqn:E; simpl; rewrite ?IH; split.
    + intros [->|(y & Hy & Ey)]; [exists x; auto|exists y; auto].
    + intros (y & [<-|Hy] & Ey); [left; congruence|right; eauto].
    + intros (y & Hy & Ey). exists y. auto.
    + intros (y & [<-|Hy] & Ey); [congruence|eauto].
Qed.

(** A group is made of the rows of its key, and every key has a row. *)
Lemma groupby_In (k : K) (g : Series R) (df : Series R) :
  In (k, g) (groupby leb key df) <->
  (exists x, In x df /\ key (snd x) = Some k) /\
  g = List.filter (fun p => bool_decide (key (snd p) = Some k)) df.
Proof.
  unfold groupby. rewrite in_map_iff. split.
  - intros (k' & [= <- <-] & Hk). split; [|reflexivity].
    apply omap_key_In, unique_In, (sort_keys_In leb). exact Hk.
  - intros [Hx ->]. exists k. split; [reflexivity|].
    apply (sort_keys_In leb), unique_In, omap_key_In. exact Hx.
Qed.

Lemma group_size (k : K) (df : Series R) :
  length (List.filter (fun p => bool_decide (key (snd p) = Some k)) df)
  = length (List.filter (fun x => bool_decide (x = k)) (omap key (values df))).
Proof.
  unfold values. induction df as [|x df IH]; [reflexivity|].
  cbn [map omap list_omap List.filter]. destruct (key (snd x)) as [k'|] eqn:E.
  - cbn [List.filter]. destruct (decide (k' = k)) as [->|Hne].
    + rewrite !bool_decide_eq_true_2 by reflexivity. simpl. rewrite IH. reflexivity.
    + rewrite !bool_decide_eq_false_2 by congruence. exact IH.
  - rewrite bool_decide_eq_false_2 by congruence. exact IH.
Qed.

Lemma sum_indicator (x : K) (U : list K) :
  NoDup U -> In x U ->
  sum_list (map (fun k => if bool_decide (x = k) then 1 else 0) U) = 1.
Proof.
  induction 1 as [|k U Hk ND IH]; simpl; [contradiction|].
  intros [->|Hin].
  - rewrite bool_decide_eq_true_2 by reflexivity.
    assert (Hz : sum_list (map (fun k => if bool_decide (x = k) then 1 else 0) U) = 0).
    { clear IH ND. induction U as [|u U IHU]; [reflexivity|]. simpl.
      rewrite bool_decide_eq_false_2.
      - apply IHU. intros Hx. apply Hk. right. exact Hx.
      - intros ->. apply Hk. left. }
    rewrite Hz. reflexivity.
  - rewrite bool_decide_eq_false_2; [apply IH; exact Hin|].
    intros ->. apply Hk, list_elem_of_In. exact Hin.
Qed.

Lemma sum_occurrences (Ks U : list K) :
  NoDup U -> (forall x, In x Ks -> In x U) ->
  sum_list (map (fun k => length (List.filter (fun x => bool_decide (x = k)) Ks)) U)
  = length Ks.
Proof.
  intros ND. induction Ks as [|x Ks IH]; intros Hsub.
  - simpl. clear. induction U as [|u U IHU]; [reflexivity|exact IHU].
  - assert (E : forall V,
              sum_list (map (fun k => length (List.filter (fun y => bool_decide (y = k))
                                                          (x :: Ks))) V)
              = sum_list (map (fun k => if bool_decide (x = k) then 1 else 0) V)
                + sum_list (map (fun k => length (List.filter (fun y => bool_decide (y = k))
                                                              Ks)) V)).
    { induction V as [|v V IHV]; [reflexivity|]. cbn [map sum_list foldr].
      rewrite IHV. cbn [List.filter]. destruct (bool_decide (x = v)); simpl; lia. }
    rewrite E, (sum_indicator x U ND (Hsub x (or_introl eq_refl))), IH; [reflexivity|].
    intros y Hy. apply Hsub. right. exact Hy.
Qed.

(** The groups partition the rows that have a key: their sizes add up to
    the number of those rows. *)
Lemma groupby_sizes (df : Series R) :
  sum_list (map (fun g => length (snd g)) (groupby leb key df))
  = length (omap key (values df)).
Proof.
  unfold groupby. rewrite map_map. cbn [snd].
  set (U := sort_keys leb (unique (omap key (values df)))).
  rewrite (map_ext _ (fun k => length (List.filter (fun x => bool_decide (x = k))
                                                   (omap key (values df)))))
    by (intros k; apply group_size).
  apply sum_occurrences.
  - unfold U. rewrite (sort_keys_perm_any leb). apply unique_NoDup.
  - intros x Hx. unfold U. apply (sort_keys_In leb), unique_In. exact Hx.
Qed.
End Groups.

(* ===================================================================== *)
(** ** [open_cases_week_over_week_by_region] *)
(* ===================================================================== *)

Section OpenCasesProperties.
Context `{UnicodeTables}.

Lemma open_excluded_regions_upper :
  map upper [lit "ADMIN LAND (TEST)"; lit ""] = OPEN_EXCLUDED_REGIONS.
Proof. reflexivity. Qed.

Lemma open_case_kept_b_spec (end_date : option Timestamp) (r : CaseRecord) :
  open_case_kept_b end_date r = true <-> open_case_kept end_date r.
Proof.
  unfold open_case_kept_b, open_case_kept. rewrite open_excluded_regions_upper.
  rewrite !andb_true_iff, !negb_true_iff, bool_decide_eq_false.
  assert (H1 : (match option_map upper (option_map strip (region r)) with
                | Some x => in_strs x OPEN_EXCLUDED_REGIONS
                | None => false
                end = false /\ notna_value (region r) = true)
               <-> exists s, region r = Some s /\ ~ In (upper (strip s)) OPEN_EXCLUDED_REGIONS).
  { destruct (region r) as [s|]; cbn [option_map notna_value].
    - rewrite <- not_true_iff_false, in_strs_spec. split.
      + intros [Hn _]. eauto.
      + intros (s' & [= <-] & Hn). auto.
    - split; [intros [_ [=]]|intros (s' & [=] & _)]. }
  assert (H2 : match owner_role r with Some x => in_strs x exclude_roles | None => false end
               = false <-> forall s, owner_role r = Some s -> ~ In s exclude_roles).
  { destruct (owner_role r) as [s|].
    - rewrite <- not_true_iff_false, in_strs_spec. split.
      + intros Hn s' [= <-]. exact Hn.
      + intros Hs. exact (Hs s eq_refl).
    - split; [intros _ s' [=]|reflexivity]. }
  assert (H3 : match end_date with
               | Some e => match closed_date r with Some x => ts_leb x e | None => false end
               | None => true
               end = true
               <-> forall e, end_date = Some e ->
                     exists t, closed_date r = Some t /\ ts_leb t e = true).
  { destruct end_date as [e|].
    - destruct (closed_date r) as [t|].
      + split; [intros Ht e' [= <-]; eauto|].
        intros Hs. destruct (Hs e eq_refl) as (t' & [= <-] & Ht). exact Ht.
      + split; [discriminate|]. intros Hs. destruct (Hs e eq_refl) as (t' & [=] & _).
    - split; [intros _ e [=]|reflexivity]. }
  rewrite <- H1, <- H2, <- H3. tauto.
Qed.

#[global] Instance open_case_kept_dec end_date r : Decision (open_case_kept end_date r).
Proof.
  destruct (open_case_kept_b end_date r) eqn:E; [left|right].
  - apply open_case_kept_b_spec. exact E.
  - intros Hv. apply open_case_kept_b_spec in Hv. congruence.
Defined.

Lemma open_cases_rows (df : DataFrame) (end_date : option Timestamp) :
  open_cases_week_over_week_by_region df end_date =
  Ok (map (fun g => (fst (fst g), snd (fst g), length (snd g)))
          (groupby week_region_leb week_region_key
             (List.filter (fun x => open_case_kept_b end_date (snd x)) df))).
Proof.
  unfold open_cases_week_over_week_by_region. cbv zeta.
  unfold series_not, isin, notna, ne_str, str_upper, str_strip, col.
  rewrite !smap_smap, !series_and_smap, getitem_mask_smap.
  cbn [mbind mret result_bind result_ret bind].
  destruct end_date as [e|].
  - unfold le_ts, col. rewrite !smap_smap, getitem_mask_smap.
    cbn [mbind mret result_bind result_ret bind].
    rewrite filter_filter_andb. reflexivity.
  - cbn [mbind mret result_bind result_ret bind]. do 3 f_equal.
    apply List.filter_ext. intros x. unfold open_case_kept_b. rewrite andb_true_r.
    reflexivity.
Qed.

Lemma week_start_shape (r : CaseRecord) (w : Timestamp) :
  week_start r = Some w ->
  In (day w) [1; 8; 15; 22]%Z /\ time_of_day w = [0; 0; 0; 0; 0]%Z.
Proof.
  unfold week_start. destruct (closed_date r) as [dt|]; [|discriminate].
  cbn [option_map]. intros [= <-]. unfold get_month_week_start.
  destruct (day dt <=? 7)%Z; [|destruct (day dt <=? 14)%Z; [|destruct (day dt <=? 21)%Z]];
    simpl; tauto.
Qed.

Lemma week_region_key_spec (r : CaseRecord) (w : Timestamp) (g : str) :
  week_region_key r = Some (w, g) <-> week_start r = Some w /\ region_norm r = Some g.
Proof.
  unfold week_region_key. destruct (week_start r), (region_norm r); split;
    try discriminate; try (intros [[=] [=]]); try (intros [= <- <-]); try (intros [[=] _]);
    try (intros [_ [=]]); subst; auto.
Qed.

(** X1: Every row of the result is a week bucket of a kept region: the week is
    midnight of day 1, 8, 15 or 22, the region is in normal form and not an
    excluded one, no (week, region) pair occurs twice, and the count is the
    positive number of kept cases of that week and region. *)
Theorem open_cases_result_rows (df : DataFrame) (end_date : option Timestamp) :
  exists out,
    open_cases_week_over_week_by_region df end_date = Ok out /\
    NoDup (map fst out) /\
    forall w g c, In (w, g, c) out ->
      In (day w) [1; 8; 15; 22]%Z /\ time_of_day w = [0; 0; 0; 0; 0]%Z /\
      ~ In g OPEN_EXCLUDED_REGIONS /\
      0 < c /\
      c = count_of (fun r => open_case_kept end_date r /\
                             week_start r = Some w /\ region_norm r = Some g)
                   (values df).
Proof.
  eexists. split; [apply open_cases_rows|].
  set (kept := List.filter (fun x => open_case_kept_b end_date (snd x)) df).
  split.
  - rewrite map_map. cbn [fst].
    rewrite (map_ext _ fst) by (intros [[a b] c]; reflexivity).
    apply groupby_keys_nodup.
  - intros w g c Hin. apply in_map_iff in Hin as ([[w' g'] grp] & [= <- <- <-] & Hg).
    cbn [fst snd] in *. apply groupby_In in Hg as [(x & Hx & Ek) ->].
    apply week_region_key_spec in Ek as [Ew Eg].
    apply filter_In in Hx as [Hx Hk].
    apply open_case_kept_b_spec in Hk.
    destruct (week_start_shape _ _ Ew) as [Hd Ht].
    split; [exact Hd|]. split; [exact Ht|].
    assert (Hc : length (List.filter
                   (fun p => bool_decide (week_region_key (snd p) = Some (w', g'))) kept)
                 = count_of (fun r => open_case_kept end_date r /\
                                      week_start r = Some w' /\ region_norm r = Some g')
                            (values df)).
    { unfold kept. rewrite filter_filter_andb.
      pose (t := fun r => open_case_kept_b end_date r
                          && bool_decide (week_region_key r = Some (w', g'))).
      transitivity (length (values (List.filter (fun x => t (snd x)) df))).
      { unfold values. rewrite length_map. reflexivity. }
      rewrite (values_filter_rows t df). unfold t.
      apply length_filter_reflect. intros r.
      rewrite andb_true_iff, open_case_kept_b_spec, bool_decide_eq_true, week_region_key_spec.
      reflexivity. }
    split.
    + destruct Hk as [(s & Es & Hn) _]. unfold region_norm in Eg. rewrite Es in Eg.
      cbn [option_map] in Eg. injection Eg as <-. exact Hn.
    + rewrite <- Hc. split; [|reflexivity].
      assert (Hmem : In x (List.filter
                (fun p => bool_decide (week_region_key (snd p) = Some (w', g'))) kept)).
      { apply filter_In. split.
        - unfold kept. apply filter_In. split; [exact Hx|].
          apply open_case_kept_b_spec. exact Hk.
        - apply bool_decide_eq_true, week_region_key_spec. auto. }
      destruct (List.filter _ kept); [contradiction|simpl; lia].
Qed.

(** X2: No case is lost or counted twice: the counts add up to the number of
    kept cases that have a closed date. *)
Theorem open_cases_counts_add_up (df : DataFrame) (end_date : option Timestamp) :
  exists out,
    open_cases_week_over_week_by_region df end_date = Ok out /\
    sum_list (map snd out)
    = count_of (fun r => open_case_kept end_date r /\ closed_date r <> None) (values df).
Proof.
  eexists. split; [apply open_cases_rows|].
  rewrite map_map. cbn [snd].
  rewrite (groupby_sizes week_region_leb week_region_key).
  set (kept := List.filter (fun x => open_case_kept_b end_date (snd x)) df).
  assert (E : length (omap week_region_key (values kept))
              = length (List.filter (fun r => open_case_kept_b end_date r
                                              && notna_value (closed_date r)) (values df))).
  { unfold kept. rewrite values_filter_rows.
    induction (values df) as [|r l IH]; [reflexivity|]. cbn [List.filter].
    destruct (open_case_kept_b end_date r) eqn:Ek; cbn [andb]; [|exact IH].
    cbn [omap list_omap]. apply open_case_kept_b_spec in Ek.
    destruct Ek as [(s & Es & _) _].
    assert (Ekey : week_region_key r
                   = option_map (fun t => (normalize (get_month_week_start t), upper (strip s)))
                                (closed_date r)).
    { unfold week_region_key, week_start, region_norm. rewrite Es.
      destruct (closed_date r); reflexivity. }
    rewrite Ekey. destruct (closed_date r); cbn [option_map notna_value length];
      rewrite IH; reflexivity. }
  rewrite E. apply length_filter_reflect. intros r.
  rewrite andb_true_iff, open_case_kept_b_spec.
  destruct (closed_date r); simpl; split; intros [? ?]; split; congruence.
Qed.

End OpenCasesProperties.

(* ===================================================================== *)
(** ** The monthly series *)
(* ===================================================================== *)

Lemma sorted_nodup_strict (l : list Z) :
  StronglySorted Z.le l -> NoDup l -> StronglySorted Z.lt l.
Proof.
  induction 1 as [|x l S IH F]; intros ND; [constructor|].
  apply NoDup_cons in ND as [Hx ND]. constructor; [apply IH; exact ND|].
  apply List.Forall_forall. intros y Hy. rewrite List.Forall_forall in F.
  specialize (F y Hy). assert (x <> y) by (intros ->; apply Hx, list_elem_of_In, Hy). lia.
Qed.

Section MonthlySeries.
Context `{UnicodeTables} `{FloatOps}.

Lemma last_n_months_filter_rows (today : Timestamp) (df : DataFrame) (n : Z) :
  last_n_months_filter today df n
  = Ok (List.filter (fun x => in_last_n_months_b today n (snd x)) df).
Proof.
  unfold last_n_months_filter, col. cbv zeta. rewrite !smap_smap, getitem_mask_smap.
  reflexivity.
Qed.

(** The ratio of one group: the valid rows over the rows with a close
    reason, among the rows of the frame that have the key. *)
Lemma group_ratio {K} `{EqDecision K} (key : CaseRecord -> option K) (k : K)
    (t : CaseRecord -> bool) (df : DataFrame) :
  scalar_of (close_reason_ratio
               (List.filter (fun p => bool_decide (key (snd p) = Some k))
                            (List.filter (fun x => t (snd x)) df)) None)
  = Ratio (length (List.filter (fun r => t r && bool_decide (key r = Some k) && kcs_valid_b r)
                               (values df)))
          (length (List.filter (fun r => t r && bool_decide (key r = Some k)
                                         && has_close_reason_b r) (values df))).
Proof.
  rewrite close_reason_ratio_masks. cbn [scalar_of]. rewrite _ratio_smap.
  rewrite filter_filter_andb.
  pose (u := fun r => t r && bool_decide (key r = Some k)).
  change (List.filter _ df) with (List.filter (fun x => u (snd x)) df).
  rewrite (values_filter_rows u df), !filter_filter_andb. reflexivity.
Qed.

(** X3: The monthly series behind [close_reason_ratio_last_n_months]: one entry
    per month that is not before the first month of the window and has a
    case, in increasing order of month, each with the overall ratio of the
    cases created in that month.  The function returns that series, or an
    empty frame when every ratio is undefined. *)
Theorem last_n_months_series (today : Timestamp) (df : DataFrame) (n : Z) :
  exists l,
    close_reason_ratio_last_n_months today df n
    = Ok (if forallb (fun x => bool_decide (snd x = None)) l then EmptyFrame
          else MonthSeries l) /\
    StronglySorted Z.lt (map fst l) /\
    (forall m, In m (map fst l) <->
               (first_month today n <= m)%Z /\
               exists x, In x df /\ month_of (snd x) = Some m) /\
    (forall m v, In (m, v) l ->
       v = Ratio (count_of (fun r => month_of r = Some m /\ kcs_valid r) (values df))
                 (count_of (fun r => month_of r = Some m /\ has_close_reason r) (values df))).
Proof.
  set (dff := List.filter (fun x => in_last_n_months_b today n (snd x)) df).
  exists (map (fun g : period * Series CaseRecord =>
                 (fst g, scalar_of (close_reason_ratio (snd g) None)))
              (groupby Z.leb month_of dff)).
  split.
  { unfold close_reason_ratio_last_n_months. rewrite last_n_months_filter_rows.
    cbn [mbind mret result_bind result_ret bind]. reflexivity. }
  assert (Hkeys : map fst (map (fun g : period * Series CaseRecord =>
                                  (fst g, scalar_of (close_reason_ratio (snd g) None)))
                               (groupby Z.leb month_of dff))
                  = map fst (groupby Z.leb month_of dff)).
  { rewrite map_map. reflexivity. }
  assert (Hmem : forall m, In m (map fst (groupby Z.leb month_of dff)) <->
                           (first_month today n <= m)%Z /\
                           exists x, In x df /\ month_of (snd x) = Some m).
  { intros m. rewrite groupby_keys, (sort_keys_In Z.leb), unique_In, omap_key_In. split.
    - intros (x & Hx & Em). unfold dff in Hx. apply filter_In in Hx as [Hx Hb].
      unfold in_last_n_months_b in Hb. rewrite Em in Hb. apply Z.leb_le in Hb. eauto.
    - intros (Hm & x & Hx & Em). exists x. split; [|exact Em].
      unfold dff. apply filter_In. split; [exact Hx|].
      unfold in_last_n_months_b. rewrite Em. apply Z.leb_le. exact Hm. }
  split; [|split].
  - rewrite Hkeys. apply sorted_nodup_strict.
    + rewrite groupby_keys. apply sort_keys_sorted.
    + apply groupby_keys_nodup.
  - intros m. rewrite Hkeys. apply Hmem.
  - intros m v Hin. apply in_map_iff in Hin as ([m' g] & E & Hg).
    apply pair_equal_spec in E as [E1 E2]. cbn [fst] in E1. subst m'.
    rewrite <- E2. clear E2 v.
    assert (Hm : (first_month today n <= m)%Z).
    { apply (Hmem m). apply in_map_iff. exists (m, g). auto. }
    apply groupby_In in Hg as [_ Hg].
    change (snd (m, g)) with g. rewrite Hg. unfold dff.
    rewrite (group_ratio month_of m (in_last_n_months_b today n) df).
    f_equal; apply length_filter_reflect; intros r.
    + rewrite !andb_true_iff, bool_decide_eq_true, kcs_valid_b_spec.
      unfold in_last_n_months_b. split; [tauto|]. intros [Em Hv].
      rewrite Em. split; [split; [apply Z.leb_le; exact Hm|reflexivity]|exact Hv].
    + rewrite !andb_true_iff, bool_decide_eq_true. unfold has_close_reason_b.
      rewrite has_close_reason_b_spec.
      unfold in_last_n_months_b. split; [tauto|]. intros [Em Hv].
      rewrite Em. split; [split; [apply Z.leb_le; exact Hm|reflexivity]|exact Hv].
Qed.

Lemma month_region_key_spec (r : CaseRecord) (m : period) (g : str) :
  month_region_key r = Some (m, g) <-> month_of r = Some m /\ region_norm r = Some g.
Proof.
  unfold month_region_key. destruct (month_of r), (region_norm r); split;
    try discriminate; try (intros [[=] [=]]); try (intros [= <- <-]); try (intros [[=] _]);
    try (intros [_ [=]]); subst; auto.
Qed.

(** X4: The by-region month breakdown: one record per (month, region) pair that
    has a case in the window, no pair twice; the record carries the month
    as ["YYYY-MM"], the region in normal form, and the overall ratio of the
    cases of that month and region. *)
Theorem last_n_months_by_region_records (today : Timestamp) (df : DataFrame) (n : Z) :
  exists keys,
    NoDup keys /\
    (forall m g, In (m, g) keys <->
       (first_month today n <= m)%Z /\
       exists x, In x df /\ month_of (snd x) = Some m /\ region_norm (snd x) = Some g) /\
    close_reason_ratio_last_n_months_by_region today df n
    = Ok (map (fun k =>
                 mkRMR (period_str (fst k)) (snd k)
                   (Ratio (count_of (fun r => (month_of r = Some (fst k) /\
                                               region_norm r = Some (snd k)) /\ kcs_valid r)
                                    (values df))
                          (count_of (fun r => (month_of r = Some (fst k) /\
                                               region_norm r = Some (snd k)) /\
                                              has_close_reason r)
                                    (values df))))
              keys).
Proof.
  set (dff := List.filter (fun x => in_last_n_months_b today n (snd x)) df).
  exists (map fst (groupby month_region_leb month_region_key dff)).
  assert (Hmem : forall m g, In (m, g) (map fst (groupby month_region_leb month_region_key dff))
                 <-> (first_month today n <= m)%Z /\
                     exists x, In x df /\ month_of (snd x) = Some m /\
                               region_norm (snd x) = Some g).
  { intros m g. rewrite groupby_keys, (sort_keys_In month_region_leb), unique_In, omap_key_In.
    split.
    - intros (x & Hx & Ek). apply month_region_key_spec in Ek as [Em Eg].
      unfold dff in Hx. apply filter_In in Hx as [Hx Hb].
      unfold in_last_n_months_b in Hb. rewrite Em in Hb. apply Z.leb_le in Hb. eauto.
    - intros (Hm & x & Hx & Em & Eg). exists x. split.
      + unfold dff. apply filter_In. split; [exact Hx|].
        unfold in_last_n_months_b. rewrite Em. apply Z.leb_le. exact Hm.
      + apply month_region_key_spec. auto. }
  split; [apply groupby_keys_nodup|]. split; [exact Hmem|].
  unfold close_reason_ratio_last_n_months_by_region. rewrite last_n_months_filter_rows.
  cbn [mbind mret result_bind result_ret bind]. fold dff. f_equal.
  rewrite map_map. apply map_ext_in. intros [[m g] grp] Hg.
  assert (Hm : (first_month today n <= m)%Z).
  { apply (Hmem m g). apply in_map_iff. exists (m, g, grp). auto. }
  apply (groupby_In month_region_leb month_region_key) in Hg as [_ Hg].
  cbv zeta.
  change (snd (m, g, grp)) with grp. change (fst (m, g, grp)) with (m, g).
  change (fst (m, g)) with m. change (snd (m, g)) with g.
  rewrite Hg. unfold dff.
  rewrite (group_ratio month_region_key (m, g) (in_last_n_months_b today n) df).
  f_equal. f_equal; apply length_filter_reflect; intros r.
  - rewrite !andb_true_iff, bool_decide_eq_true, kcs_valid_b_spec, month_region_key_spec.
    unfold in_last_n_months_b. split; [tauto|]. intros [[Em Eg] Hv].
    rewrite Em. split; [split; [apply Z.leb_le; exact Hm|auto]|exact Hv].
  - rewrite !andb_true_iff, bool_decide_eq_true, month_region_key_spec.
    unfold has_close_reason_b. rewrite has_close_reason_b_spec.
    unfold in_last_n_months_b. split; [tauto|]. intros [[Em Eg] Hv].
    rewrite Em. split; [split; [apply Z.leb_le; exact Hm|auto]|exact Hv].
Qed.

End MonthlySeries.

(* ===================================================================== *)
(** ** The summary of all regions *)
(* ===================================================================== *)

Lemma NoDup_omap_id {A} (l : list (option A)) : NoDup l -> NoDup (omap (fun v => v) l).
Proof.
  induction l as [|[a|] l IH]; intros ND; [constructor| |];
    apply NoDup_cons in ND as [Hx ND].
  - change (omap (fun v => v) (Some a :: l)) with (a :: omap (fun v => v) l).
    apply NoDup_cons. split; [|apply IH; exact ND].
    rewrite list_elem_of_omap. intros (x & Hin & ->). contradiction.
  - apply IH. exact ND.
Qed.

Section AllRegionsProperties.
Context `{UnicodeTables} `{FloatOps}.
Hypothesis upper_idem_ext : upper_ext_idempotent.

#[global] Instance summary_scope_dec g r : Decision (summary_scope g r).
Proof. unfold summary_scope. apply _. Defined.

Lemma summary_call (df : DataFrame) (g : str) :
  List.NoDup (index df) -> upper g = g ->
  (vr ← get_valid_cases_and_ratio df (Some g);
   mret (mkSummary g (length (fst vr)) (snd vr)))
  = Ok (mkSummary g
           (count_of (fun r => summary_scope g r /\ valid_case r) (values df))
           (Ratio (count_of (fun r => summary_scope g r /\ valid_case r) (values df))
                  (count_of (fun r => summary_scope g r /\ has_close_reason r)
                            (values df)))).
Proof using Type.
  intros ND Eg.
  destruct (get_valid_cases_and_ratio_rows df (Some g) ND) as (scope & Hs & ->).
  cbn [mbind mret result_bind result_ret bind fst snd].
  assert (Hscope : forall r, scope r = true <-> summary_scope g r).
  { intros r. rewrite Hs. unfold in_requested_region, requested_region, summary_scope.
    rewrite Eg. destruct (decide (g = lit "ALL")); tauto. }
  assert (E1 : length (List.filter (fun x => scope (snd x) && valid_case_b (snd x)) df)
               = count_of (fun r => summary_scope g r /\ valid_case r) (values df)).
  { pose (t := fun r => scope r && valid_case_b r).
    change (List.filter _ df) with (List.filter (fun x => t (snd x)) df).
    rewrite <- (length_map snd). change (map snd ?l) with (values l).
    rewrite (values_filter_rows t df). apply length_filter_reflect. intros r. unfold t.
    rewrite andb_true_iff, Hscope, valid_case_b_spec. reflexivity. }
  rewrite E1. do 2 f_equal. f_equal.
  - apply length_filter_reflect. intros r.
    rewrite andb_true_iff, Hscope, valid_case_b_spec. reflexivity.
  - apply length_filter_reflect. intros r. unfold has_close_reason_b.
    rewrite andb_true_iff, Hscope, has_close_reason_b_spec. reflexivity.
Qed.

Lemma all_regions_loop_map (df : DataFrame) (regions : list (option str)) :
  List.NoDup (index df) ->
  (forall g, In (Some g) regions -> upper g = g) ->
  all_regions_loop df regions
  = Ok (map (fun g => (mkSummary g
           (count_of (fun r => summary_scope g r /\ valid_case r) (values df))
           (Ratio (count_of (fun r => summary_scope g r /\ valid_case r) (values df))
                  (count_of (fun r => summary_scope g r /\ has_close_reason r)
                            (values df)))))
            (List.filter (fun g => negb (in_strs g [lit "NONE"; lit "ADMIN LAND (TEST)"]))
                         (omap (fun v => v) regions))).
Proof using Type.
  intros ND. induction regions as [|[g|] rest IH]; intros Hup.
  - reflexivity.
  - change (omap (fun v => v) (Some g :: rest)) with (g :: omap (fun v => v) rest).
    pose (ex := fun g => negb (in_strs g [lit "NONE"; lit "ADMIN LAND (TEST)"])).
    pose (inx := in_strs g [lit "NONE"; lit "ADMIN LAND (TEST)"]).
    change (List.filter _ (g :: ?l))
      with (if negb inx then g :: List.filter ex l else List.filter ex l).
    change (all_regions_loop df (Some g :: rest))
      with (if inx then all_regions_loop df rest
            else vr ← get_valid_cases_and_ratio df (Some g);
                 records ← all_regions_loop df rest;
                 mret (mkSummary g (length (fst vr)) (snd vr) :: records)).
    destruct inx; cbn [negb]; [apply IH; intros g' Hg'; apply Hup; right; exact Hg'|].
    + pose proof (summary_call df g ND (Hup g (or_introl eq_refl))) as Hc.
      destruct (get_valid_cases_and_ratio df (Some g)) as [vr|e];
        cbn [mbind mret result_bind result_ret bind] in Hc |- *; [|discriminate].
      injection Hc as Hc1 Hc2. rewrite IH by (intros g' Hg'; apply Hup; right; exact Hg').
      cbn [mbind mret result_bind result_ret bind map]. rewrite Hc1, Hc2. reflexivity.
  - cbn [all_regions_loop]. change (omap (fun v => v) (None :: rest))
      with (omap (fun v : option str => v) rest).
    apply IH. intros g' Hg'. apply Hup. right. exact Hg'.
Qed.

(** X5: [get_all_regions_valid_cases_and_ratios], on a table with distinct row
    labels: it returns one record per region in normal form that a case of
    the table has, but ["NONE"] and ["ADMIN LAND (TEST)"], and no region
    twice.  The record of a region counts the valid cases of that region
    and gives their ratio to the cases of the region with a close reason;
    the record of a region named ["ALL"] is computed from the whole table. *)
Theorem all_regions_records (df : DataFrame) :
  List.NoDup (index df) ->
  exists regions,
    NoDup regions /\
    (forall g, In g regions <->
               (exists r, In r (values df) /\ region_norm r = Some g) /\
               g <> lit "NONE" /\ g <> lit "ADMIN LAND (TEST)") /\
    get_all_regions_valid_cases_and_ratios df
    = Ok (map (fun g =>
                 mkSummary g
                   (count_of (fun r => summary_scope g r /\ valid_case r) (values df))
                   (Ratio (count_of (fun r => summary_scope g r /\ valid_case r) (values df))
                          (count_of (fun r => summary_scope g r /\ has_close_reason r)
                                    (values df))))
              regions).
Proof using upper_idem_ext.
  intros ND. exists (reported_regions df).
  assert (Hcol : values (str_upper (str_strip (col region df))) = map region_norm (values df)).
  { unfold str_upper, str_strip, col. rewrite !smap_smap, values_smap. reflexivity. }
  split; [|split].
  - unfold reported_regions. apply NoDup_ListNoDup, List.NoDup_filter, NoDup_ListNoDup.
    apply NoDup_omap_id, unique_NoDup.
  - intros g. unfold reported_regions.
    rewrite filter_In, <- list_elem_of_In, list_elem_of_omap.
    split.
    + intros [(x & Hx & ->) Hn]. apply unique_elem_of, list_elem_of_In, in_map_iff in Hx.
      destruct Hx as (r & Er & Hr). split; [eauto|].
      apply negb_true_iff in Hn. unfold in_strs in Hn.
      split; intros ->; vm_compute in Hn; discriminate.
    + intros [(r & Hr & Er) [N1 N2]]. split.
      * exists (Some g). split; [|reflexivity].
        apply unique_elem_of, list_elem_of_In, in_map_iff. eauto.
      * apply negb_true_iff. unfold in_strs.
        apply not_true_is_false. intros Hin.
        apply existsb_exists in Hin as (x & [<-|[<-|[]]] & Hx);
          apply bool_decide_eq_true in Hx; congruence.
  - unfold get_all_regions_valid_cases_and_ratios. cbv zeta. rewrite Hcol.
    apply all_regions_loop_map; [exact ND|].
    intros g Hg. apply unique_In, in_map_iff in Hg as (r & Er & _).
    unfold region_norm in Er. destruct (region r) as [s|]; [|discriminate].
    injection Er as <-. apply (upper_idem upper_idem_ext).
Qed.

End AllRegionsProperties.

(** The summary of the regional table. *)
Lemma all_regions_records_witness :
  exists regions,
    NoDup regions /\
    (forall g, In g regions <->
               (exists r, In r (values Instances.regional) /\
                          @region_norm Instances.fragment_tables r = Some g) /\
               g <> lit "NONE" /\ g <> lit "ADMIN LAND (TEST)") /\
    @get_all_regions_valid_cases_and_ratios Instances.fragment_tables Instances.exact_float
      Instances.regional
    = Ok (map (fun g =>
                 @mkSummary Instances.exact_float g
                   (count_of (fun r => @summary_scope Instances.fragment_tables g r /\
                                       valid_case r) (values Instances.regional))
                   (@Ratio Instances.exact_float
                      (count_of (fun r => @summary_scope Instances.fragment_tables g r /\
                                          valid_case r) (values Instances.regional))
                      (count_of (fun r => @summary_scope Instances.fragment_tables g r /\
                                          has_close_reason r) (values Instances.regional))))
              regions).
Proof.
  exact (@all_regions_records Instances.fragment_tables Instances.exact_float
           fragment_upper_idempotent Instances.regional regional_index_nodup).
Defined.

(* ===================================================================== *)
(** ** Created articles *)
(* ===================================================================== *)

Lemma counted_as_created_b_spec (start end_ : Timestamp) (r : ArticleRow) :
  counted_as_created_b start end_ r = true <-> counted_as_created start end_ r.
Proof.
  unfold counted_as_created_b, counted_as_created.
  rewrite !andb_true_iff, negb_true_iff, bool_decide_eq_false, !bool_decide_eq_true.
  assert (Ht : match article_type (article r) with
               | Some x => in_strs x ARTICLE_TYPES
               | None => false
               end = true <->
               exists s, article_type (article r) = Some s /\ In s ARTICLE_TYPES).
  { destruct (article_type (article r)) as [s|].
    - rewrite in_strs_spec. split; [eauto|]. intros (s' & [= <-] & Hin). exact Hin.
    - split; [discriminate|]. intros (s' & [=] & _). }
  assert (Hd : (match to_datetime_coerce (created_at r) with
                | Some x => ts_leb start x
                | None => false
                end = true /\
                match to_datetime_coerce (created_at r) with
                | Some x => ts_leb x end_
                | None => false
                end = true) <->
               exists t, created_at r = DTime t /\ ts_leb start t = true /\ ts_leb t end_ = true).
  { destruct (created_at r) as [| |t]; cbn [to_datetime_coerce].
    - split; [intros [[=] _]|intros (t & [=] & _)].
    - split; [intros [[=] _]|intros (t & [=] & _)].
    - split; [intros [H1 H2]; eauto|]. intros (t' & [= <-] & H1 & H2). auto. }
  rewrite Ht, Hd. tauto.
Qed.

#[global] Instance counted_as_created_dec start end_ r :
  Decision (counted_as_created start end_ r).
Proof.
  destruct (counted_as_created_b start end_ r) eqn:E.
  - left. apply counted_as_created_b_spec. exact E.
  - right. intros Hc. apply counted_as_created_b_spec in Hc. congruence.
Defined.

Lemma count_created_articles_count (df : Series ArticleRow) (start end_ : Timestamp) :
  count_created_articles df start end_
  = Ok (length (List.filter (counted_as_created_b start end_) (values df))).
Proof.
  unfold count_created_articles, isin, ne_str, eq_bool, ge_ts, le_ts, col.
  cbv zeta.
  repeat (rewrite ?smap_smap, ?series_and_smap, getitem_mask_smap;
          cbn [mbind mret result_bind result_ret bind]).
  rewrite !filter_filter_andb. f_equal.
  pose (t := counted_as_created_b start end_).
  transitivity (length (values (List.filter (fun x => t (snd x)) df))).
  - unfold values. rewrite length_map. f_equal. apply List.filter_ext. intros x.
    unfold t, counted_as_created_b. rewrite !andb_assoc. reflexivity.
  - rewrite (values_filter_rows t df). reflexivity.
Qed.

(** X6: [count_created_articles] counts rows, not articles: the rows of one of
    the three article types, not created by "BI Integration", flagged as
    the latest version, whose creation time lies between [start] and
    [end_], both compared as timestamps and both included.  A row without
    a readable creation time is not counted, and the publish status plays
    no part. *)
Theorem count_created_articles_rows (df : Series ArticleRow) (start end_ : Timestamp) :
  count_created_articles df start end_
  = Ok (count_of (counted_as_created start end_) (values df)).
Proof.
  rewrite count_created_articles_count. f_equal. apply length_filter_reflect.
  intros r. apply counted_as_created_b_spec.
Qed.

Lemma ts_leb_same_day_later (t e : Timestamp) :
  date_of t = date_of e -> time_of_day e = [0; 0; 0; 0; 0]%Z ->
  ts_leb t e = true -> time_of_day t = [0; 0; 0; 0; 0]%Z \/
                       exists f, In f (time_of_day t) /\ (f < 0)%Z.
Proof.
  destruct t as [y m d h mi s us ns], e as [y' m' d' h' mi' s' us' ns'].
  unfold date_of, time_of_day, ts_leb, ts_fields. cbn.
  intros [= -> -> ->] [= -> -> -> -> ->].
  rewrite !Z.ltb_irrefl, !Z.eqb_refl. cbn.
  repeat match goal with
         | |- context [(?a <? 0)%Z] =>
             destruct (Z.ltb_spec a 0); cbn;
             [intros _; right; exists a; split; [cbn; tauto|assumption]|]
         | |- context [(?a =? 0)%Z] =>
             destruct (Z.eqb_spec a 0); cbn; [subst|discriminate]
         end.
  intros _. left. reflexivity.
Qed.

(** X7: The upper bound is a timestamp: with [end_] at midnight, as a date
    turns into one, the rows created later on that day are not counted. *)
Theorem count_created_articles_end_day (df : Series ArticleRow) (start end_ : Timestamp) :
  time_of_day end_ = [0; 0; 0; 0; 0]%Z ->
  Forall (fun x => created_later_on end_ (snd x)) df ->
  count_created_articles df start end_ = Ok 0.
Proof.
  intros He Hall. rewrite count_created_articles_count. f_equal.
  unfold values. induction Hall as [|x df Hx _ IH]; [reflexivity|].
  cbn [map List.filter].
  assert (E : counted_as_created_b start end_ (snd x) = false); [|rewrite E; exact IH].
  apply not_true_is_false. intros Hc. apply counted_as_created_b_spec in Hc.
  destruct Hc as (_ & _ & _ & t & Et & _ & Hle).
  destruct Hx as (t' & Et' & Hd & Hpos & Hne). rewrite Et in Et'. injection Et' as <-.
  destruct (ts_leb_same_day_later t end_ Hd He Hle) as [E0|(f & Hf & Hneg)];
    [contradiction|].
  rewrite List.Forall_forall in Hpos. specialize (Hpos f Hf). lia.
Qed.

(** A row created at 10:30 on the last day of the range. *)
Lemma count_created_articles_end_day_witness :
  count_created_articles [(0%nat, Instances.created_in_the_morning)]
    (Instances.at_midnight 2024 3 1) (Instances.at_midnight 2024 3 15) = Ok 0.
Proof.
  apply count_created_articles_end_day; [reflexivity|].
  constructor; [|constructor].
  exists (Instances.at_time 2024 3 15 10 30).
  split; [reflexivity|]. split; [reflexivity|]. split; [|discriminate].
  apply List.Forall_forall. cbn. intros f Hf. intuition lia.
Defined.

(* ===================================================================== *)
(** ** The date windows *)
(* ===================================================================== *)

Section Windows.
Local Open Scope Z_scope.

Lemma days_in_month_bounds (y m : Z) : 28 <= days_in_month y m <= 31.
Proof.
  unfold days_in_month.
  destruct (m =? 2); [destruct (is_leap y); lia|].
  destruct ((m =? 4) || (m =? 6) || (m =? 9) || (m =? 11))%bool; lia.
Qed.

Lemma valid_date_bounds (y m d : Z) :
  valid_date (y, m, d) = true <->
  1 <= y <= 9999 /\ 1 <= m <= 12 /\ 1 <= d <= days_in_month y m.
Proof.
  unfold valid_date. rewrite !andb_true_iff, !Z.leb_le. tauto.
Qed.

Lemma date_replace_first (y m : Z) :
  1 <= y <= 9999 -> 1 <= m <= 12 -> date_replace y m 1 = inr (y, m, 1).
Proof.
  intros Hy Hm. unfold date_replace.
  assert (E : valid_date (y, m, 1) = true); [|rewrite E; reflexivity].
  apply valid_date_bounds. pose proof (days_in_month_bounds y m). lia.
Qed.

(** The loop ends within the fuel given, on the month and year of the
    same month count. *)
Lemma wrap_month_result (fuel : nat) (month year : Z) :
  1 - month <= Z.of_nat fuel -> month <= 12 ->
  wrap_month fuel month year
  = Some ((12 * year + (month - 1)) mod 12 + 1, (12 * year + (month - 1)) / 12).
Proof.
  revert month year. induction fuel as [|fuel IH]; intros month year Hf Hm.
  - cbn [wrap_month]. destruct (Z.leb_spec month 0) as [Hle|Hgt]; [lia|].
    do 2 f_equal; Z.div_mod_to_equations; lia.
  - cbn [wrap_month]. destruct (Z.leb_spec month 0) as [Hle|Hgt].
    + rewrite IH by lia.
      replace (12 * (year - 1) + (month + 12 - 1)) with (12 * year + (month - 1)) by lia.
      reflexivity.
    + do 2 f_equal; Z.div_mod_to_equations; lia.
Qed.

(** X8: [last_month_window] returns the first and the last day of the calendar
    month before today's, in ISO format; in January of year 1 the step
    back by one day raises [OverflowError]. *)
Theorem last_month_window_previous_month (y m d : Z) :
  valid_date (y, m, d) = true ->
  last_month_window (y, m, d)
  = if (y =? 1) && (m =? 1) then inl DateOverflowError
    else let p := 12 * y + (m - 1) - 1 in
         inr (isoformat (period_year p, period_month p, 1),
              isoformat (period_year p, period_month p,
                         days_in_month (period_year p) (period_month p))).
Proof.
  intros Hv. apply valid_date_bounds in Hv as (Hy & Hm & Hd).
  unfold last_month_window. rewrite date_replace_first by assumption.
  cbn [dbind date_minus_one_day]. rewrite Z.ltb_irrefl.
  cbv zeta. unfold period_year, period_month.
  destruct (Z.ltb_spec 1 m) as [H1|H1].
  - assert (Ey : (12 * y + (m - 1) - 1) / 12 = y) by (Z.div_mod_to_equations; lia).
    assert (Em : (12 * y + (m - 1) - 1) mod 12 + 1 = m - 1) by (Z.div_mod_to_equations; lia).
    rewrite Ey, Em. cbn [dbind]. rewrite date_replace_first by lia. cbn [dbind].
    destruct (Z.eqb_spec m 1); [lia|]. rewrite andb_false_r. reflexivity.
  - assert (m = 1) by lia. subst m. destruct (Z.ltb_spec 1 y) as [H2|H2].
    + assert (Ey : (12 * y + (1 - 1) - 1) / 12 = y - 1) by (Z.div_mod_to_equations; lia).
      assert (Em : (12 * y + (1 - 1) - 1) mod 12 + 1 = 12) by (Z.div_mod_to_equations; lia).
      rewrite Ey, Em. cbn [dbind]. rewrite date_replace_first by lia. cbn [dbind].
      destruct (Z.eqb_spec y 1); [lia|]. cbn [andb].
      change (days_in_month (y - 1) 12) with 31. reflexivity.
    + assert (y = 1) by lia. subst y. reflexivity.
Qed.

(** X9: [last_n_months_window n], for [n >= 1]: the loop ends, and the window
    runs from the first day of the month [n - 1] months before today's to
    today, in ISO format; when that month lies before year 1, [replace]
    raises [ValueError]. *)
Theorem last_n_months_window_start (y m d n : Z) :
  valid_date (y, m, d) = true -> 1 <= n ->
  let p := 12 * y + (m - 1) - (n - 1) in
  last_n_months_window (y, m, d) n
  = Some (if 12 <=? p
          then inr (isoformat (period_year p, period_month p, 1), isoformat (y, m, d))
          else inl DateValueError).
Proof.
  intros Hv Hn p. apply valid_date_bounds in Hv as (Hy & Hm & Hd).
  unfold last_n_months_window. rewrite date_replace_first by assumption.
  cbv zeta. rewrite wrap_month_result by lia.
  replace (12 * y + (m - (n - 1) - 1)) with p by (unfold p; lia).
  fold (period_year p). fold (period_month p). f_equal.
  assert (Hpm : 1 <= period_month p <= 12).
  { unfold period_month. Z.div_mod_to_equations. lia. }
  assert (Hpy : period_year p <= y).
  { unfold period_year, p. Z.div_mod_to_equations. lia. }
  destruct (Z.leb_spec 12 p) as [Hp|Hp].
  - assert (1 <= period_year p) by (unfold period_year; Z.div_mod_to_equations; lia).
    rewrite date_replace_first by lia. reflexivity.
  - assert (Hlt : period_year p < 1) by (unfold period_year; Z.div_mod_to_equations; lia).
    unfold date_replace.
    assert (E : valid_date (period_year p, period_month p, 1) = false); [|rewrite E; reflexivity].
    apply not_true_is_false. rewrite valid_date_bounds. lia.
Qed.

(** X10: The window of [pipeline.py] and [last_month_window] are the same
    month: on a valid date after January of year 1, the second returns the
    ISO forms of the two dates of the first. *)
Theorem pipeline_window_is_last_month (now : Timestamp) :
  valid_date (date_of now) = true ->
  1 < year now \/ 1 < month now ->
  last_month_window (date_of now)
  = inr (isoformat (fst (pipeline_window now)), isoformat (snd (pipeline_window now))).
Proof.
  intros Hv Hnot. destruct now as [y m d h mi s us ns].
  unfold date_of in *. cbn [year month day] in *.
  apply valid_date_bounds in Hv as (Hy & Hm & Hd).
  unfold last_month_window. rewrite date_replace_first by assumption.
  cbn [dbind date_minus_one_day]. rewrite Z.ltb_irrefl.
  unfold pipeline_window, minus_one_day, replace_day, date_of.
  cbn [year month day hour minute second microsecond nanosecond fst snd].
  rewrite Z.ltb_irrefl.
  destruct (Z.ltb_spec 1 m) as [H1|H1].
  - cbn [dbind]. rewrite date_replace_first by lia. reflexivity.
  - destruct (Z.ltb_spec 1 y) as [H2|H2]; [|lia].
    cbn [dbind]. rewrite date_replace_first by lia. reflexivity.
Qed.

End Windows.

(** The three windows on 15 March 2024. *)
Lemma last_month_window_previous_month_witness :
  last_month_window (2024, 3, 15)%Z = inr (lit "2024-02-01", lit "2024-02-29").
Proof. exact (last_month_window_previous_month 2024 3 15 eq_refl). Defined.

Lemma last_n_months_window_start_witness :
  last_n_months_window (2024, 3, 15)%Z 6 = Some (inr (lit "2023-10-01", lit "2024-03-15")).
Proof.
  apply (last_n_months_window_start 2024 3 15 6); [reflexivity|lia].
Defined.

Lemma pipeline_window_is_last_month_witness :
  last_month_window (date_of Instances.march_15)
  = inr (isoformat (fst (pipeline_window Instances.march_15)),
         isoformat (snd (pipeline_window Instances.march_15))).
Proof.
  apply pipeline_window_is_last_month; [reflexivity|]. left. reflexivity.
Defined.

(* ===================================================================== *)
(** ** The cases of the engagement metric *)
(* ===================================================================== *)

Lemma lex_leb_cons (x y : Z) (a b : list Z) :
  lex_leb (x :: a) (y :: b) = true <-> (x < y)%Z \/ (x = y /\ lex_leb a b = true).
Proof.
  cbn [lex_leb]. rewrite orb_true_iff, andb_true_iff, Z.ltb_lt, Z.eqb_eq. reflexivity.
Qed.

(** Between the two ends of the window lies one calendar month: the one
    before today's. *)
Lemma osp_window_month (today t : Timestamp) :
  (1 <= month today)%Z ->
  ts_leb (fst (osp_window today)) t = true ->
  ts_leb t (snd (osp_window today)) = true ->
  in_previous_month today t.
Proof.
  destruct today as [y m d h mi s us ns], t as [y' m' d' h' mi' s' us' ns'].
  unfold osp_window, minus_one_day, replace_day, ts_leb, ts_fields, in_previous_month,
    to_period_M.
  cbn [year month day hour minute second microsecond nanosecond fst snd].
  rewrite Z.ltb_irrefl. intros Hm.
  destruct (Z.ltb_spec 1 m) as [H1|H1];
    cbn [year month day hour minute second microsecond nanosecond];
    intros Hs He;
    do 2 (rewrite lex_leb_cons in Hs); do 2 (rewrite lex_leb_cons in He);
    destruct Hs as [?|[? [?|[? _]]]], He as [?|[? [?|[? _]]]]; lia.
Qed.

Section OspCases.
Context `{UnicodeTables} `{FloatOps}.

(** X11: [osp_kcs_engagement], read in a month [today]: every case it keeps is
    a row of the table, created in the calendar month before today's,
    external, owned by a role that contains "Idaptive" or "Support", not
    purged, and of one of the two companies.  [count] is the number of kept
    rows, and the denominator of the ratio never exceeds it. *)
Theorem osp_filtered_previous_month (today : Timestamp) (df : DataFrame) :
  (1 <= month today)%Z ->
  exists res,
    osp_kcs_engagement today df = Ok res /\
    count res = length (filtered_df res) /\
    close_reason_denom res = count_of has_close_reason (values (filtered_df res)) /\
    close_reason_denom res <= count res /\
    forall x, In x (filtered_df res) ->
      In x df /\
      record_type_external (snd x) /\ owner_role_matches OSP_ROLES (snd x) /\
      status_not_purged (snd x) /\
      (exists c, owner_company (snd x) = Some c /\ In c OSP_COMPANIES) /\
      exists t, created_date (snd x) = Some t /\ in_previous_month today t.
Proof.
  intros Hm. eexists. split; [apply osp_kcs_engagement_rows|].
  cbn [filtered_df count close_reason_denom].
  set (filtered := List.filter (fun x => osp_row_b today (snd x)) df).
  split; [reflexivity|]. split; [|split].
  - apply length_filter_reflect. intros r. unfold has_close_reason_b.
    apply has_close_reason_b_spec.
  - etransitivity; [apply List.filter_length_le|]. unfold values. rewrite length_map.
    reflexivity.
  - intros x Hx. unfold filtered in Hx. apply filter_In in Hx as [Hx Hrow].
    split; [exact Hx|]. unfold osp_row_b in Hrow.
    rewrite !andb_true_iff in Hrow. destruct Hrow as [[[[[Ht Hr] Hs] Hc] Hge] Hle].
    split; [apply record_type_external_b_spec; exact Ht|].
    split; [apply owner_role_matches_b_spec; exact Hr|].
    split; [apply status_not_purged_b_spec; exact Hs|]. split.
    + destruct (owner_company (snd x)) as [c|]; [|discriminate].
      exists c. split; [reflexivity|]. apply in_strs_spec. exact Hc.
    + destruct (created_date (snd x)) as [t|]; [|discriminate].
      exists t. split; [reflexivity|]. apply (osp_window_month today t Hm Hge Hle).
Qed.

End OspCases.

(** The cases of February, read on 15 March. *)
Lemma osp_filtered_previous_month_witness :
  exists res,
    @osp_kcs_engagement Instances.fragment_tables Instances.exact_float
      Instances.march_15 Instances.regional = Ok res /\
    count res = length (filtered_df res) /\
    close_reason_denom res = count_of has_close_reason (values (filtered_df res)) /\
    close_reason_denom res <= count res /\
    forall x, In x (filtered_df res) ->
      In x Instances.regional /\
      record_type_external (snd x) /\ owner_role_matches OSP_ROLES (snd x) /\
      status_not_purged (snd x) /\
      (exists c, owner_company (snd x) = Some c /\ In c OSP_COMPANIES) /\
      exists t, created_date (snd x) = Some t /\ in_previous_month Instances.march_15 t.
Proof.
  apply (@osp_filtered_previous_month Instances.fragment_tables Instances.exact_float
           Instances.march_15 Instances.regional).
  vm_compute. discriminate.
Defined.

(* ===================================================================== *)
(** ** The ratio of one region and of every region *)
(* ===================================================================== *)

Section RegionRatios.
Context `{UnicodeTables} `{FloatOps}.

Lemma not_all_false (r : str) :
  upper r <> lit "ALL" -> bool_decide (upper r = lit "ALL") = false.
Proof. intros Hn. apply bool_decide_eq_false. exact Hn. Qed.

(** X12: [close_reason_ratio] for one region: the valid cases of the region
    over the cases of the region with a close reason, the region of a case
    and the argument both read in upper case. *)
Theorem close_reason_ratio_region (df : DataFrame) (r : str) :
  upper r <> lit "ALL" ->
  close_reason_ratio df (Some r)
  = Scalar (Ratio (count_of (fun c => kcs_valid c /\ in_region (upper r) c) (values df))
                  (count_of (fun c => has_close_reason c /\ in_region (upper r) c)
                            (values df))).
Proof.
  intros Hn. rewrite close_reason_ratio_masks, (not_all_false r Hn), _ratio_smap.
  do 2 f_equal; apply length_filter_reflect; intros c.
  - rewrite andb_true_iff, kcs_valid_b_spec, in_region_b_spec. reflexivity.
  - unfold has_close_reason_b.
    rewrite andb_true_iff, has_close_reason_b_spec, in_region_b_spec. reflexivity.
Qed.

Lemma admin_internal_not_all (g : str) :
  In g [lit "ADMIN"; lit "INTERNAL"] -> g <> lit "ALL".
Proof. intros [<-|[<-|[]]]; discriminate. Qed.

(** X13: No case counts as valid for the regions ADMIN and INTERNAL: asked for
    one of them, [close_reason_ratio] returns zero when the region has a
    case with a close reason, and the undefined value otherwise. *)
Theorem close_reason_ratio_admin_internal (df : DataFrame) (r : str) :
  float_zero_laws ->
  In (upper r) [lit "ADMIN"; lit "INTERNAL"] ->
  close_reason_ratio df (Some r)
  = Scalar (if decide (count_of (fun c => has_close_reason c /\ in_region (upper r) c)
                                (values df) = 0)
            then None else Some fzero).
Proof.
  intros [Hdiv Hround] Hin.
  rewrite close_reason_ratio_masks,
    (not_all_false r (admin_internal_not_all _ Hin)), _ratio_smap.
  assert (E : List.filter (fun a => kcs_valid_b a && in_region_b (upper r) a) (values df) = []).
  { induction (values df) as [|c l IH]; [reflexivity|]. cbn [List.filter].
    assert (Ec : kcs_valid_b c && in_region_b (upper r) c = false); [|rewrite Ec; exact IH].
    apply not_true_is_false. rewrite andb_true_iff, kcs_valid_b_spec, in_region_b_spec.
    intros [[_ Hout] (s & Es & Eg)]. apply (Hout s Es). rewrite Eg. exact Hin. }
  rewrite E. cbn [length]. f_equal.
  rewrite (length_filter_reflect _ (fun c => has_close_reason c /\ in_region (upper r) c)).
  - unfold Ratio. destruct (decide _) as [|Hd]; [reflexivity|].
    rewrite (Hdiv _ Hd), Hround. reflexivity.
  - intros c. unfold has_close_reason_b.
    rewrite andb_true_iff, has_close_reason_b_spec, in_region_b_spec. reflexivity.
Qed.

(** X14: [close_reason_ratio] for ["ALL"]: one entry per region in normal form
    that occurs in the table, the missing region among them with an
    undefined ratio, and no region twice.  The entry of a region other than
    one named ["ALL"] is the ratio that the call for that region returns. *)
Theorem close_reason_ratio_all_entries (df : DataFrame) (r : str) :
  upper_ext_idempotent ->
  upper r = lit "ALL" ->
  exists l,
    close_reason_ratio df (Some r) = PerRegion l /\
    NoDup (map fst l) /\
    (forall k, In k (map fst l) <-> exists c, In c (values df) /\ region_norm c = k) /\
    (forall v, In (None, v) l -> v = None) /\
    (forall g v, In (Some g, v) l -> g <> lit "ALL" ->
                 close_reason_ratio df (Some g) = Scalar v).
Proof.
  intros Hidem Hall. eexists. split.
  { rewrite close_reason_ratio_masks. rewrite bool_decide_true by exact Hall. reflexivity. }
  split; [|split; [|split]].
  - rewrite map_map. cbn [fst]. rewrite map_id. apply unique_NoDup.
  - intros k. rewrite map_map. cbn [fst]. rewrite map_id, unique_In, in_map_iff.
    split; intros (c & H1 & H2); exists c; auto.
  - intros v Hin. apply in_map_iff in Hin as (reg & E & _).
    apply pair_equal_spec in E as [-> <-]. rewrite _ratio_smap.
    assert (E : forall l : list CaseRecord,
              List.filter (fun a => has_close_reason_b a &&
                                    match @None str, region_norm a with
                                    | Some x, Some y => bool_decide (x = y)
                                    | _, _ => false
                                    end) l = []).
    { induction l as [|c l IH]; [reflexivity|]. cbn [List.filter].
      rewrite andb_false_r. exact IH. }
    rewrite E. reflexivity.
  - intros g v Hin Hg. apply in_map_iff in Hin as (reg & E & Hreg).
    apply pair_equal_spec in E as [-> <-].
    apply unique_In, in_map_iff in Hreg as (c & Ec & _).
    assert (Eg : upper g = g).
    { unfold region_norm in Ec. destruct (region c) as [s|]; [|discriminate].
      injection Ec as <-. apply (upper_idem Hidem). }
    rewrite close_reason_ratio_masks, Eg. rewrite bool_decide_false by exact Hg.
    f_equal. f_equal; apply smap_ext; intros a _; f_equal; unfold in_region_b;
      (destruct (region_norm a) as [y|];
       [apply bool_decide_ext; split; congruence
       |apply bool_decide_eq_false_2; discriminate]).
Qed.

End RegionRatios.

(** The three theorems on the regional table. *)
Lemma close_reason_ratio_region_witness :
  @close_reason_ratio Instances.fragment_tables Instances.exact_float
    Instances.regional (Some (lit "emea"))
  = Scalar (@Ratio Instances.exact_float
              (count_of (fun c => @kcs_valid Instances.fragment_tables c /\
                                  @in_region Instances.fragment_tables (lit "EMEA") c)
                        (values Instances.regional))
              (count_of (fun c => has_close_reason c /\
                                  @in_region Instances.fragment_tables (lit "EMEA") c)
                        (values Instances.regional))).
Proof.
  apply (@close_reason_ratio_region Instances.fragment_tables Instances.exact_float
           Instances.regional (lit "emea")).
  vm_compute. discriminate.
Defined.

Lemma close_reason_ratio_admin_internal_witness :
  @close_reason_ratio Instances.fragment_tables Instances.exact_float
    Instances.regional (Some (lit "admin"))
  = Scalar (if decide (count_of (fun c => has_close_reason c /\
                                          @in_region Instances.fragment_tables (lit "ADMIN") c)
                                (values Instances.regional) = 0)
            then None else Some (@fzero Instances.exact_float)).
Proof.
  apply (@close_reason_ratio_admin_internal Instances.fragment_tables Instances.exact_float
           Instances.regional (lit "admin") exact_float_zero_laws).
  left. reflexivity.
Defined.

Lemma close_reason_ratio_all_entries_witness :
  exists l,
    @close_reason_ratio Instances.fragment_tables Instances.exact_float
      Instances.regional (Some (lit "all")) = PerRegion l /\
    NoDup (map fst l) /\
    (forall k, In k (map fst l) <->
               exists c, In c (values Instances.regional) /\
                         @region_norm Instances.fragment_tables c = k) /\
    (forall v, In (None, v) l -> v = None) /\
    (forall g v, In (Some g, v) l -> g <> lit "ALL" ->
                 @close_reason_ratio Instances.fragment_tables Instances.exact_float
                   Instances.regional (Some g) = Scalar v).
Proof.
  apply (@close_reason_ratio_all_entries Instances.fragment_tables Instances.exact_float
           Instances.regional (lit "all") fragment_upper_idempotent).
  reflexivity.
Defined.

(* ===================================================================== *)
(** ** Columns and errors of [clean_articles] *)
(* ===================================================================== *)

Lemma getitem_cols_ok_present (keys : list str) (df : RawFrame) (out : CleanFrame) :
  getitem_cols keys df = Ok out -> forall k, In k keys -> is_Some (df !! k).
Proof.
  unfold getitem_cols. intros E k Hk.
  destruct (df !! k) as [c|] eqn:Ek; [eauto|].
  assert (Hin : In k (List.filter (fun k => bool_decide (df !! k = None)) keys)).
  { apply filter_In. split; [exact Hk|]. apply bool_decide_eq_true. exact Ek. }
  destruct (List.filter _ keys); [contradiction|discriminate].
Qed.

Lemma getitem_cols_raises (keys : list str) (df : RawFrame) (e : pyerr) :
  getitem_cols keys df = Raise e ->
  exists missing, e = KeyError missing /\ missing <> [] /\
                  Forall (fun k => In k keys /\ df !! k = None) missing.
Proof.
  unfold getitem_cols. intros E.
  set (missing := List.filter (fun k => bool_decide (df !! k = None)) keys) in *.
  assert (Hall : Forall (fun k => In k keys /\ df !! k = None) missing).
  { apply List.Forall_forall. intros k' Hk'. unfold missing in Hk'.
    apply filter_In in Hk' as [Hk1 Hk2]. apply bool_decide_eq_true in Hk2. auto. }
  destruct missing as [|m ms]; [discriminate|].
  injection E as <-. exists (m :: ms). split; [reflexivity|]. split; [discriminate|exact Hall].
Qed.

Lemma projected_In (w : list (str * str)) (coerce : str -> column -> column)
    (df : RawFrame) (out : CleanFrame) (oc : str * column) :
  projected w coerce df out -> In oc out ->
  exists kv c, In kv w /\ fst oc = snd kv /\ df !! fst kv = Some c /\
               snd oc = coerce (snd kv) c.
Proof.
  unfold projected. induction 1 as [|kv oc' w out (E & c & Hc & Ec) _ IH]; [contradiction|].
  intros [<-|Hin].
  - exists kv, c. split; [left; reflexivity|auto].
  - destruct (IH Hin) as (kv' & c' & Hk & Hrest). exists kv', c'. split; [right; exact Hk|auto].
Qed.

Section CleanArticles.
Variable int_of_str : str -> option Z.
Variable astype_other : column -> result column.

Lemma coerce_column_names (name : str) (df out : CleanFrame) :
  coerce_column int_of_str astype_other name df = Ok out -> map fst out = map fst df.
Proof.
  revert out. induction df as [|[n c] df IH]; intros out; [discriminate|].
  cbn [coerce_column]. destruct (bool_decide (n = name)).
  - destruct (fillna0_astype_int int_of_str astype_other c) as [c'|e];
      cbn [mbind mret result_bind result_ret bind]; [|discriminate].
    intros [= <-]. reflexivity.
  - destruct (coerce_column int_of_str astype_other name df) as [df''|e];
      cbn [mbind mret result_bind result_ret bind]; [|discriminate].
    intros [= <-]. cbn [map fst]. rewrite (IH df'' eq_refl). reflexivity.
Qed.

(** The cast of an object column of plain values: it returns when [int()]
    accepts every string, and raises [ValueError] when it rejects one. *)
Lemma plain_cells_cast (l : list cell) :
  Forall (plain_cell int_of_str) l ->
  exists rs, traverse (int_of_cell int_of_str) l = Some rs /\
    ((Forall (fun v => ~ rejected int_of_str v) l /\ exists zs, collect rs = Ok zs) \/
     (Exists (rejected int_of_str) l /\ collect rs = Raise ValueError)).
Proof.
  induction 1 as [|v l Hv _ (rs & Ers & IH)].
  - exists []. split; [reflexivity|]. left. split; [constructor|]. exists []. reflexivity.
  - assert (Hcell : (exists z, int_of_cell int_of_str v = Some (Ok z) /\
                               ~ rejected int_of_str v) \/
                    (int_of_cell int_of_str v = Some (Raise ValueError) /\
                     rejected int_of_str v)).
    { destruct v as [|z|x|s|b|t]; cbn [plain_cell int_of_cell] in *.
      - left. exists 0%Z. split; [reflexivity|]. intros (s & [=] & _).
      - rewrite Hv. left. exists z. split; [reflexivity|]. intros (s & [=] & _).
      - contradiction.
      - destruct (int_of_str s) as [z|] eqn:Es.
        + rewrite (Hv z eq_refl). left. exists z. split; [reflexivity|].
          intros (s' & [= <-] & En). congruence.
        + right. split; [reflexivity|]. exists s. auto.
      - left. eexists. split; [reflexivity|]. intros (s & [=] & _).
      - contradiction. }
    destruct Hcell as [(z & Ez & Hn)|[Ez Hr]].
    + exists (Ok z :: rs). split; [cbn [traverse]; rewrite Ez, Ers; reflexivity|].
      cbn [collect]. cbn [mbind mret result_bind result_ret bind].
      destruct IH as [[Hall (zs & Ezs)]|[Hex Eraise]].
      * left. split; [constructor; assumption|]. rewrite Ezs. eexists. reflexivity.
      * right. split; [apply Exists_cons_tl; exact Hex|]. rewrite Eraise. reflexivity.
    + exists (Raise ValueError :: rs). split; [cbn [traverse]; rewrite Ez, Ers; reflexivity|].
      right. split; [apply Exists_cons_hd; exact Hr|]. reflexivity.
Qed.

(** The cast of the view counts decides the outcome of [coerce_column] on
    a projected table. *)
Lemma coerce_column_outcome (w : list (str * str)) (df : RawFrame) (out : CleanFrame)
    (c0 : column) :
  In (lit "views_by_customers") (map snd w) ->
  (forall kv c, In kv w -> snd kv = lit "views_by_customers" ->
                df !! fst kv = Some c -> c = c0) ->
  projected w (fun _ c => c) df out ->
  match fillna0_astype_int int_of_str astype_other c0 with
  | Ok _ => exists out', coerce_column int_of_str astype_other (lit "views_by_customers") out
                         = Ok out'
  | Raise e => coerce_column int_of_str astype_other (lit "views_by_customers") out = Raise e
  end.
Proof.
  intros Hin Hsrc P. unfold projected in P.
  induction P as [|kv oc w out [E (c & Hc & Ec)] P IH]; [contradiction|].
  destruct oc as [n col0]. cbn [fst snd] in *. subst n col0.
  cbn [coerce_column].
  destruct (decide (snd kv = lit "views_by_customers")) as [Ev|Nv].
  - rewrite (bool_decide_eq_true_2 _ Ev).
    rewrite (Hsrc kv c (or_introl eq_refl) Ev Hc).
    destruct (fillna0_astype_int int_of_str astype_other c0) as [c'|e];
      cbn [mbind mret result_bind result_ret bind]; [eexists|]; reflexivity.
  - rewrite (bool_decide_eq_false_2 _ Nv).
    assert (IH' := IH (ltac:(destruct Hin as [Hh|Ht]; [congruence|exact Ht]))
                      (fun kv' c' Hk' => Hsrc kv' c' (or_intror Hk'))).
    destruct (fillna0_astype_int int_of_str astype_other c0) as [c'|e].
    + destruct IH' as [out' ->]. cbn [mbind mret result_bind result_ret bind].
      eexists. reflexivity.
    + rewrite IH'. reflexivity.
Qed.

(** X15: The columns of a cleaned article table: seventeen, in this order.  The
    mapping names [PUBLISHED_BY_NAME] twice, and the second name wins: the
    table has a column [published_by_name], in the place of the first
    entry, and no column [publisher]. *)
Theorem clean_articles_columns (df : RawFrame) (out : CleanFrame) :
  clean_articles int_of_str astype_other df = Ok out ->
  map fst out =
  [lit "published_by_name"; lit "region"; lit "views_by_customers"; lit "article_id";
   lit "published_at"; lit "days_to_publish"; lit "article_type"; lit "publish_status";
   lit "internal"; lit "title"; lit "community_article_url"; lit "article_attach_count";
   lit "creator_region"; lit "created_at"; lit "creator_name"; lit "visible_to_customers";
   lit "version_is_latest"] /\
  ~ In (lit "publisher") (map fst out).
Proof.
  unfold clean_articles. cbv zeta.
  destruct (getitem_cols (map fst wanted_articles) df) as [cols|e] eqn:Eg;
    cbn [mbind mret result_bind result_ret bind]; [|discriminate].
  intros Ec. apply coerce_column_names in Ec.
  destruct (getitem_cols_present _ df (getitem_cols_ok_present _ _ _ Eg)) as (cols' & Eg' & F).
  rewrite Eg in Eg'. injection Eg' as <-.
  pose proof (rename_projected wanted_articles df cols wanted_articles_sound F) as P.
  apply projected_names in P. rewrite Ec, P, wanted_articles_fields.
  split; [reflexivity|].
  intros Hin. cbn [In] in Hin.
  repeat (destruct Hin as [Hin|Hin]; [discriminate|]). exact Hin.
Qed.

(** X16: The view counts as Python objects.  With every source column
    there and a view-count column of dtype object that holds only [None],
    bools, ints that fit 64 bits and strings ([int()] of a string fitting 64
    bits when it is accepted), [clean_articles] returns a table when
    [int()] accepts every string, and raises [ValueError] when it rejects
    one.  A missing view count raises nothing. *)
Theorem clean_articles_errors (df : RawFrame) (l : list cell) :
  (forall k, In k (map fst wanted_articles) -> is_Some (df !! k)) ->
  df !! lit "PUBLIC_KB_VIEWCOUNT" = Some (Objects l) ->
  Forall (plain_cell int_of_str) l ->
  (Forall (fun v => ~ rejected int_of_str v) l ->
     exists out, clean_articles int_of_str astype_other df = Ok out) /\
  (Exists (rejected int_of_str) l ->
     clean_articles int_of_str astype_other df = Raise ValueError).
Proof.
  intros Hp Hv Hplain. unfold clean_articles. cbv zeta.
  destruct (getitem_cols_present _ df Hp) as (cols & -> & F).
  cbn [mbind mret result_bind result_ret bind].
  pose proof (rename_projected wanted_articles df cols wanted_articles_sound F) as P.
  destruct wanted_articles_views as [Hin Hsrc].
  assert (Hc0 : forall kv c, In kv wanted_articles -> snd kv = lit "views_by_customers" ->
                             df !! fst kv = Some c -> c = Objects l).
  { intros kv c Hk Ev Hc. rewrite (Hsrc kv Hk Ev), Hv in Hc. congruence. }
  pose proof (coerce_column_outcome wanted_articles df (rename wanted_articles cols)
                (Objects l) Hin Hc0 P) as Hout.
  destruct (plain_cells_cast l Hplain) as (rs & Ers & Hcase).
  unfold fillna0_astype_int in Hout. cbn [pinned_cast] in Hout. rewrite Ers in Hout.
  cbn [option_map] in Hout.
  destruct Hcase as [[Hall (zs & Ezs)]|[Hex Eraise]].
  - rewrite Ezs in Hout. cbn [mbind mret result_bind result_ret bind] in Hout. split.
    + intros _. exact Hout.
    + intros Hex. exfalso. apply List.Exists_exists in Hex as (v & Hin' & Hr).
      rewrite List.Forall_forall in Hall. exact (Hall v Hin' Hr).
  - rewrite Eraise in Hout. cbn [mbind mret result_bind result_ret bind] in Hout. split.
    + intros Hall. exfalso. apply List.Exists_exists in Hex as (v & Hin' & Hr).
      rewrite List.Forall_forall in Hall. exact (Hall v Hin' Hr).
    + intros _. exact Hout.
Qed.

End CleanArticles.

Lemma raw_articles_with_fields (views : column) (k : str) :
  In k (map fst wanted_articles) -> is_Some (Instances.raw_articles_with views !! k).
Proof.
  intros Hk. unfold Instances.raw_articles_with.
  destruct (decide (k = lit "PUBLIC_KB_VIEWCOUNT")) as [->|Hn].
  - exists views. apply lookup_insert_eq.
  - assert (E : <[lit "PUBLIC_KB_VIEWCOUNT" := views]> Instances.raw_articles !! k
                = Instances.raw_articles !! k) by (apply lookup_insert_ne; congruence).
    unfold is_Some. setoid_rewrite E.
    assert (Hb : forallb (fun k => bool_decide (is_Some (Instances.raw_articles !! k)))
                         (map fst wanted_articles) = true) by (vm_compute; reflexivity).
    rewrite forallb_forall in Hb. specialize (Hb k Hk).
    apply bool_decide_eq_true in Hb. exact Hb.
Qed.


(** A raw table with every source column and a missing view count; and a
    view count that is no number. *)
Lemma clean_articles_columns_witness :
  exists out,
    clean_articles Instances.digits_only Instances.left_to_pandas Instances.raw_articles
    = Ok out /\
    map fst out =
    [lit "published_by_name"; lit "region"; lit "views_by_customers"; lit "article_id";
     lit "published_at"; lit "days_to_publish"; lit "article_type"; lit "publish_status";
     lit "internal"; lit "title"; lit "community_article_url"; lit "article_attach_count";
     lit "creator_region"; lit "created_at"; lit "creator_name"; lit "visible_to_customers";
     lit "version_is_latest"] /\
    ~ In (lit "publisher") (map fst out).
Proof.
  eexists. split; [vm_compute; reflexivity|].
  apply (clean_articles_columns Instances.digits_only Instances.left_to_pandas
           Instances.raw_articles).
  vm_compute. reflexivity.
Defined.

Lemma clean_articles_errors_witness :
  let l := [CStr (lit "n/a")] in
  (Forall (fun v => ~ rejected Instances.digits_only v) l ->
     exists out, clean_articles Instances.digits_only Instances.left_to_pandas
                   (Instances.raw_articles_with (Objects l)) = Ok out) /\
  (Exists (rejected Instances.digits_only) l ->
     clean_articles Instances.digits_only Instances.left_to_pandas
       (Instances.raw_articles_with (Objects l)) = Raise ValueError).
Proof.
  intros l.
  apply (clean_articles_errors Instances.digits_only Instances.left_to_pandas
           (Instances.raw_articles_with (Objects l)) l).
  - apply raw_articles_with_fields.
  - unfold Instances.raw_articles_with. apply lookup_insert_eq.
  - repeat constructor. intros z Hz. vm_compute in Hz. discriminate.
Defined.
